(** * Boat telemetry exporter: a model of [process_boat_data.py]

    The script reads, for every boat and every day, the line-delimited JSON
    files of a day directory, extracts the configured signals from the
    decoded records, and writes one CSV file per signal.

    The model follows the script function by function:
    - decoded JSON values are the inductive type [value]; Python's own
      operations on them ([<], [==] inside containers, truth value,
      [split], [endswith]) are written out in the module [Py];
    - an exception the script does not catch is an [outcome] [Raise e];
    - the input tree is read-only data ([node]); the output tree and the
      logger are the state [world], threaded through the functions that
      write or log;
    - [json.loads] is library code: a line of an input file is given by what
      the decoder does with it ([line]);
    - [repr] of floats, lists and dicts is library code as well: it is the
      section variable [py_repr].

    What the model leaves out: the output tree is apart from the input
    tree, and creating a directory or writing a file under it succeeds;
    the input directories can be listed; text is written as UTF-8.

    Of the two helper scripts the functions that compute are modelled:
    [expand_range] and [parse_vehicles] of [engine_hours.py] and
    [extract_date_part] of [organize_and_unzip.py], with the way [re]
    matches their patterns (module [Re]).  Their other functions ping
    hosts, open SSH sessions, copy files and call [unzstd]; [main.py] is a
    page over a database client and a data-frame library.  These are left
    out. *)

From Stdlib Require Import ZArith String Ascii List PrimFloat SpecFloat FloatOps.
From Stdlib Require Import OrderedTypeEx.
From stdpp Require Import gmap strings list pretty sorting.

Set Warnings "-register-all,-inexact-float".

(** ** Exceptions *)

Inductive exn : Type :=
| TypeError
| AttributeError
| OverflowError
| NotADirectoryError.

Inductive outcome (A : Type) : Type :=
| Ok (a : A)
| Raise (e : exn).
Arguments Ok {A} a.
Arguments Raise {A} e.

#[global] Instance outcome_ret : MRet outcome := fun A a => Ok a.
#[global] Instance outcome_bind : MBind outcome := fun A B k m =>
  match m with
  | Ok a => k a
  | Raise e => Raise e
  end.
#[global] Instance outcome_fmap : FMap outcome := fun A B f m =>
  match m with
  | Ok a => Ok (f a)
  | Raise e => Raise e
  end.

(** ** Decoded JSON values

    What [json.loads] returns: [None], [bool], [int], [float], [str], [list]
    and [dict].  A [dict] keeps its keys in insertion order; strings are
    UTF-8 byte strings, whose byte order is the order of the code points. *)

Inductive value : Type :=
| VNone
| VBool (b : bool)
| VInt (n : Z)
| VFloat (f : float)
| VStr (s : string)
| VList (items : list value)
| VDict (items : list (string * value)).

Module Py.

(** [key in d] and [d[key]] for a dict given by its items. *)
Fixpoint dict_get (items : list (string * value)) (key : string) : option value :=
  match items with
  | [] => None
  | (k, v) :: rest => if String.eqb k key then Some v else dict_get rest key
  end.

(** Numbers: [bool] is a subclass of [int]. *)
Inductive number : Type :=
| NInt (n : Z)
| NFloat (f : float).

Definition as_number (v : value) : option number :=
  match v with
  | VBool b => Some (NInt (if b then 1 else 0))
  | VInt n => Some (NInt n)
  | VFloat f => Some (NFloat f)
  | _ => None
  end.

(** [int(x)] to [float]: round to nearest, ties to even; an [int] beyond the
    range of a double raises [OverflowError]. *)
Definition float_of_int (n : Z) : outcome float :=
  let f := SF2Prim (binary_normalize prec emax n 0 false) in
  if is_infinity f then Raise OverflowError else Ok f.

Definition signed (s : bool) (m : positive) : Z :=
  if s then Z.neg m else Z.pos m.

(** Python compares an [int] with a [float] by their exact values. *)
Definition int_lt_float (n : Z) (f : float) : bool :=
  match Prim2SF f with
  | S754_nan => false
  | S754_infinity s => negb s
  | S754_zero _ => (n <? 0)%Z
  | S754_finite s m e =>
      if (0 <=? e)%Z then (n <? signed s m * 2 ^ e)%Z
      else (n * 2 ^ (- e) <? signed s m)%Z
  end.

Definition float_lt_int (f : float) (n : Z) : bool :=
  match Prim2SF f with
  | S754_nan => false
  | S754_infinity s => s
  | S754_zero _ => (0 <? n)%Z
  | S754_finite s m e =>
      if (0 <=? e)%Z then (signed s m * 2 ^ e <? n)%Z
      else (signed s m <? n * 2 ^ (- e))%Z
  end.

Definition int_eq_float (n : Z) (f : float) : bool :=
  match Prim2SF f with
  | S754_nan => false
  | S754_infinity _ => false
  | S754_zero _ => (n =? 0)%Z
  | S754_finite s m e =>
      if (0 <=? e)%Z then (n =? signed s m * 2 ^ e)%Z
      else (n * 2 ^ (- e) =? signed s m)%Z
  end.

Definition number_lt (x y : number) : bool :=
  match x, y with
  | NInt a, NInt b => (a <? b)%Z
  | NInt a, NFloat g => int_lt_float a g
  | NFloat f, NInt b => float_lt_int f b
  | NFloat f, NFloat g => PrimFloat.ltb f g
  end.

Definition number_eq (x y : number) : bool :=
  match x, y with
  | NInt a, NInt b => (a =? b)%Z
  | NInt a, NFloat g => int_eq_float a g
  | NFloat f, NInt b => int_eq_float b f
  | NFloat f, NFloat g => PrimFloat.eqb f g
  end.

(** [x is y or x == y], the test containers apply to their items.  The
    decoder returns one and the same object for every [NaN] it reads, so two
    decoded [NaN] are identical although not equal. *)
Fixpoint item_eq (a b : value) : bool :=
  match a, b with
  | VNone, VNone => true
  | VStr s, VStr t => String.eqb s t
  | VFloat f, VFloat g => (is_nan f && is_nan g) || PrimFloat.eqb f g
  | VList xs, VList ys =>
      (fix all2 (xs ys : list value) : bool :=
         match xs, ys with
         | [], [] => true
         | x :: xs', y :: ys' => item_eq x y && all2 xs' ys'
         | _, _ => false
         end) xs ys
  | VDict xs, VDict ys =>
      Nat.eqb (length xs) (length ys) &&
      (fix all (xs : list (string * value)) : bool :=
         match xs with
         | [] => true
         | (k, v) :: xs' =>
             match dict_get ys k with
             | Some w => item_eq v w && all xs'
             | None => false
             end
         end) xs
  | _, _ =>
      match as_number a, as_number b with
      | Some x, Some y => number_eq x y
      | _, _ => false
      end
  end.

(** [a < b].  Numbers compare with numbers, strings with strings, lists with
    lists (at the first pair of items that differ); anything else raises
    [TypeError]. *)
Fixpoint lt (a b : value) : outcome bool :=
  match a, b with
  | VStr s, VStr t => Ok (String.ltb s t)
  | VList xs, VList ys =>
      (fix first_diff (xs ys : list value) : outcome bool :=
         match xs, ys with
         | [], [] => Ok false
         | [], _ :: _ => Ok true
         | _ :: _, [] => Ok false
         | x :: xs', y :: ys' =>
             if item_eq x y then first_diff xs' ys' else lt x y
         end) xs ys
  | _, _ =>
      match as_number a, as_number b with
      | Some x, Some y => Ok (number_lt x y)
      | _, _ => Raise TypeError
      end
  end.

(** The truth value of [v], as [if v:] tests it. *)
Definition truthy (v : value) : bool :=
  match v with
  | VNone => false
  | VBool b => b
  | VInt n => negb (n =? 0)%Z
  | VFloat f => negb (PrimFloat.eqb f 0)
  | VStr s => negb (String.eqb s "")
  | VList items => negb (Nat.eqb (length items) 0)
  | VDict items => negb (Nat.eqb (length items) 0)
  end.

(** [s.split(sep)] for a one-character separator. *)
Fixpoint split (sep : ascii) (s : string) : list string :=
  match s with
  | EmptyString => [EmptyString]
  | String c rest =>
      if Ascii.eqb c sep then EmptyString :: split sep rest
      else match split sep rest with
           | [] => [String c EmptyString]
           | w :: ws => String c w :: ws
           end
  end.

(** [s.endswith(suffix)]. *)
Definition endswith (s suffix : string) : bool :=
  let n := String.length s in
  let k := String.length suffix in
  Nat.leb k n && String.eqb (substring (n - k) k s) suffix.

End Py.

(** ** Regular expressions

    The patterns of the two helper scripts, and the way [re] matches them:
    a repetition takes as many characters as it can first and gives them
    back one by one while the rest of the pattern does not match; an
    optional character is tried first with the character, then without.
    What is left of the pattern is the continuation [k].

    The class [digit] stands for [\d] and for [[0-9]].  On a subject that
    holds no decimal digit outside ASCII they are the same; the theorems on
    [\d] say where they need the subject to be ASCII. *)

Module Re.

Inductive regex : Type :=
| Str (text : string)
| Opt (c : ascii)
| Plus (class : ascii -> bool)
| Times (n : nat) (class : ascii -> bool)
| Group (n : nat) (r : regex)
| Backref (n : nat)
| Seq (r1 r2 : regex).

Definition between (lo hi c : ascii) : bool :=
  (nat_of_ascii lo <=? nat_of_ascii c) && (nat_of_ascii c <=? nat_of_ascii hi).

(** [[a-zA-Z]]. *)
Definition letter (c : ascii) : bool := between "a" "z" c || between "A" "Z" c.

Definition digit (c : ascii) : bool := between "0" "9" c.

(** The groups that have matched so far, the last one first. *)
Definition groups : Type := list (nat * string).

Fixpoint group (g : groups) (n : nat) : option string :=
  match g with
  | [] => None
  | (i, text) :: rest => if Nat.eqb i n then Some text else group rest n
  end.

(** The text from the position [s] up to the later position [rest]. *)
Definition consumed (s rest : string) : string :=
  substring 0 (String.length s - String.length rest) s.

(** The position after the text [t], when [t] stands at the position [s]. *)
Fixpoint after (t s : string) : option string :=
  match t with
  | EmptyString => Some s
  | String c t' =>
      match s with
      | String c' s' => if Ascii.eqb c c' then after t' s' else None
      | EmptyString => None
      end
  end.

(** Characters of a class, as many as there are, then fewer. *)
Fixpoint many {A : Type} (class : ascii -> bool) (s : string)
    (k : string -> option A) : option A :=
  match s with
  | String c rest =>
      if class c then
        match many class rest k with
        | Some a => Some a
        | None => k s
        end
      else k s
  | EmptyString => k s
  end.

Fixpoint times {A : Type} (n : nat) (class : ascii -> bool) (s : string)
    (k : string -> option A) : option A :=
  match n with
  | O => k s
  | S n' =>
      match s with
      | String c rest => if class c then times n' class rest k else None
      | EmptyString => None
      end
  end.

Fixpoint run {A : Type} (r : regex) (s : string) (g : groups)
    (k : string -> groups -> option A) : option A :=
  match r with
  | Str text =>
      match after text s with
      | Some rest => k rest g
      | None => None
      end
  | Opt c =>
      match
        match s with
        | String c' rest => if Ascii.eqb c c' then k rest g else None
        | EmptyString => None
        end
      with
      | Some a => Some a
      | None => k s g
      end
  | Plus class =>
      match s with
      | String c rest => if class c then many class rest (fun s' => k s' g) else None
      | EmptyString => None
      end
  | Times n class => times n class s (fun s' => k s' g)
  | Group n r' => run r' s g (fun s' g' => k s' ((n, consumed s s') :: g'))
  | Backref n =>
      match group g n with
      | Some text =>
          match after text s with
          | Some rest => k rest g
          | None => None
          end
      | None => None
      end
  | Seq r1 r2 => run r1 s g (fun s' g' => run r2 s' g' k)
  end.

(** [re.match(r, s)]: at the start of [s]; [re.search(r, s)]: at the first
    position of [s] where the pattern matches. *)
Definition match_ (r : regex) (s : string) : option groups :=
  run r s [] (fun _ g => Some g).

Fixpoint search (r : regex) (s : string) : option groups :=
  match match_ r s with
  | Some g => Some g
  | None =>
      match s with
      | String _ rest => search r rest
      | EmptyString => None
      end
  end.

(** [m.group(n)], for a group that took part in the match. *)
Definition text (g : groups) (n : nat) : string := default EmptyString (group g n).

(** Strings by their characters: all of a class; one character of the class
    at least, and all of it; [n] characters, all of the class; a first
    character of the class; [s.isascii()]. *)
Fixpoint all (class : ascii -> bool) (s : string) : bool :=
  match s with
  | EmptyString => true
  | String c rest => class c && all class rest
  end.

Definition word (class : ascii -> bool) (s : string) : bool :=
  negb (String.eqb s EmptyString) && all class s.

Definition word_of (n : nat) (class : ascii -> bool) (s : string) : bool :=
  Nat.eqb (String.length s) n && all class s.

Definition starts_in (class : ascii -> bool) (s : string) : bool :=
  match s with
  | EmptyString => false
  | String c _ => class c
  end.

Definition isascii (s : string) : bool := all (fun c => nat_of_ascii c <? 128) s.

End Re.

(** ** [engine_hours.py]: the list of vehicles (lines 12-26)

    [None] stands for the [ValueError] that [int] raises. *)

Module EngineHours.

(** [int(digits)] for a string of decimal digits.  Since Python 3.11 [int]
    raises [ValueError] on a string of more than 4300 digits. *)
Definition digit_value (c : ascii) : Z := Z.of_nat (nat_of_ascii c) - 48.

Fixpoint int_from (acc : Z) (digits : string) : Z :=
  match digits with
  | EmptyString => acc
  | String c rest => int_from (10 * acc + digit_value c) rest
  end.

Definition int (digits : string) : option Z :=
  if 4300 <? String.length digits then None else Some (int_from 0 digits).

(** [range(a, b)]. *)
Definition range (a b : Z) : list Z := seqZ a (b - a).

(** [r"([a-zA-Z]+)(\d+)-\1(\d+)"]. *)
Definition range_pattern : Re.regex :=
  Re.Seq (Re.Group 1 (Re.Plus Re.letter))
    (Re.Seq (Re.Group 2 (Re.Plus Re.digit))
       (Re.Seq (Re.Str "-")
          (Re.Seq (Re.Backref 1) (Re.Group 3 (Re.Plus Re.digit))))).

Definition expand_range (item : string) : option (list string) :=
  match Re.match_ range_pattern item with
  | None => Some [item]
  | Some g =>
      let prefix := Re.text g 1 in
      first ← int (Re.text g 2);
      last ← int (Re.text g 3);
      Some (List.map (fun i => prefix +:+ pretty i) (range first (last + 1)))
  end.

(** [c in s], for a character [c]. *)
Fixpoint contains (c : ascii) (s : string) : bool :=
  match s with
  | EmptyString => false
  | String c' rest => Ascii.eqb c' c || contains c rest
  end.

(** The loop of [parse_vehicles] over the items. *)
Fixpoint parse_items (items : list string) (vehicles : list string)
    : option (list string) :=
  match items with
  | [] => Some vehicles
  | item :: rest =>
      vehicles ←
        (if contains "-" item
         then expanded ← expand_range item; Some (vehicles ++ expanded)
         else Some (vehicles ++ [item]));
      parse_items rest vehicles
  end.

Definition parse_vehicles (raw_input : string) : option (list string) :=
  parse_items (Py.split "," raw_input) [].

End EngineHours.

(** ** [organize_and_unzip.py]: the date of a file name (lines 74-79)

    Here [None] is the [None] that [extract_date_part] returns. *)

Module OrganizeAndUnzip.

(** [r"snarfd?\.([0-9]{4})-([0-9]{2})-([0-9]{2})T"]. *)
Definition date_pattern : Re.regex :=
  Re.Seq (Re.Str "snarf")
    (Re.Seq (Re.Opt "d")
       (Re.Seq (Re.Str ".")
          (Re.Seq (Re.Group 1 (Re.Times 4 Re.digit))
             (Re.Seq (Re.Str "-")
                (Re.Seq (Re.Group 2 (Re.Times 2 Re.digit))
                   (Re.Seq (Re.Str "-")
                      (Re.Seq (Re.Group 3 (Re.Times 2 Re.digit)) (Re.Str "T")))))))).

Definition extract_date_part (filename : string) : option string :=
  match Re.search date_pattern filename with
  | Some g => Some (Re.text g 1 +:+ "_" +:+ Re.text g 2 +:+ "_" +:+ Re.text g 3)
  | None => None
  end.

End OrganizeAndUnzip.

(** ** The input tree, the output tree and the log *)

(** A line of an input file, by what the reader does with it: [line.strip()]
    is empty, [json.loads(line)] raises [JSONDecodeError], or it returns a
    value. *)
Inductive line : Type :=
| Blank
| Malformed
| Json (v : value).

(** A file that can be read to its end, or one whose reading fails after the
    given lines: it cannot be opened, it is not UTF-8 from some point on, or
    the decoder gives up on the next line with an exception other than
    [JSONDecodeError]. *)
Inductive contents : Type :=
| Readable (lines : list line)
| Unreadable (lines : list line).

Inductive node : Type :=
| File (c : contents)
| Dir (entries : list (string * node)).

(** A directory of the input tree with its name, as a [Path] gives both. *)
Record directory : Type := {
  dir_name : string;
  dir_entries : list (string * node)
}.

Definition path : Type := list string.

Inductive level : Type := DEBUG | INFO | WARNING | ERROR.

(** The calls of the logger, one constructor per call site. *)
Inductive message : Type :=
| ParseFailed (file : string)
| ReadFailed (file : string)
| NoJsonFiles (day : string)
| ProcessingFiles (n : nat) (day : string)
| ProcessingFile (file : string)
| Created (csv_path : path) (n : nat)
| NoData (config_key : string)
| RootMissing
| NoBoatDirs
| BoatNotFound (boat : string)
| SingleBoat (boat : string)
| FoundBoats (n : nat)
| ProcessingBoat (boat : string)
| NoDayDirs (boat : string)
| DayNotFound (day boat : string)
| SingleDay (day : string)
| ProcessingDay (day boat : string)
| Starting
| OutputTo (output : path)
| Complete.

(** The files and directories under the output path, whether the logger was
    set to emit [DEBUG] records (it emits from [INFO] on otherwise), and the
    log so far. *)
Record world : Type := {
  files : gmap path string;
  dirs : gset path;
  debug : bool;
  log : list (level * message)
}.

(** Code that logs, writes and may raise. *)
Definition io (A : Type) : Type := world -> outcome A * world.

#[global] Instance io_ret : MRet io := fun A a w => (Ok a, w).
#[global] Instance io_bind : MBind io := fun A B k m w =>
  match m w with
  | (Ok a, w') => k a w'
  | (Raise e, w') => (Raise e, w')
  end.

Definition lift {A : Type} (r : outcome A) : io A := fun w => (r, w).

Definition emitted (w : world) (lvl : level) : bool :=
  match lvl with
  | DEBUG => debug w
  | _ => true
  end.

Definition logger (lvl : level) (msg : message) : io unit := fun w =>
  if emitted w lvl
  then (Ok tt, {| files := files w; dirs := dirs w; debug := debug w;
                  log := log w ++ [(lvl, msg)] |})
  else (Ok tt, w).

(** [logger.setLevel(logging.DEBUG)]. *)
Definition setLevel_DEBUG : io unit := fun w =>
  (Ok tt, {| files := files w; dirs := dirs w; debug := true; log := log w |}).

(** [open(p, 'w')] creates or truncates the file; [write] appends to it. *)
Definition open_w (p : path) : io unit := fun w =>
  (Ok tt, {| files := <[p := EmptyString]> (files w); dirs := dirs w;
             debug := debug w; log := log w |}).

Definition write (p : path) (text : string) : io unit := fun w =>
  (Ok tt, {| files := <[p := default EmptyString (files w !! p) +:+ text]> (files w);
             dirs := dirs w; debug := debug w; log := log w |}).

(** [p.mkdir(parents=True, exist_ok=True)]: [p] and the directories above it. *)
Fixpoint parents (p : path) : list path :=
  match p with
  | [] => []
  | x :: rest => [x] :: List.map (cons x) (parents rest)
  end.

Definition mkdir (p : path) : io unit := fun w =>
  (Ok tt, {| files := files w; dirs := dirs w ∪ list_to_set (parents p);
             debug := debug w; log := log w |}).

(** [for x in xs: acc = body(x, acc)]. *)
Fixpoint for_each {A S : Type} (xs : list A) (body : A -> S -> io S) (acc : S) : io S :=
  match xs with
  | [] => mret acc
  | x :: rest => acc' ← body x acc; for_each rest body acc'
  end.

(** A data point: the row [{'boat': .., 'value': .., 'timestamp': ..}]. *)
Record point : Type := {
  boat : string;
  val : value;
  timestamp : value
}.

(** ** The script *)

Section Script.

(** [repr] of a float, a list or a dict: library code, left open. *)
Variable py_repr : value -> string.

(** [str(v)], which is also what an f-string prints for [{v}]. *)
Definition py_str (v : value) : string :=
  match v with
  | VNone => "None"
  | VBool true => "True"
  | VBool false => "False"
  | VInt n => pretty n
  | VStr s => s
  | VFloat _ | VList _ | VDict _ => py_repr v
  end.

Definition GEAR_STATE_MAP : list (Z * string) :=
  [ (0%Z, "Neutral"); (1%Z, "Forward"); (2%Z, "Reverse");
    (3%Z, "NotAvailable"); (255%Z, "Unknown") ].

(** [GEAR_STATE_MAP.get(x, default)]: a list or a dict cannot be hashed; any
    other value is looked up by [==]. *)
Definition gear_state_get (x : value) (default : string) : outcome string :=
  match x with
  | VList _ | VDict _ => Raise TypeError
  | _ =>
      Ok (match List.find (fun kv => Py.item_eq (VInt (fst kv)) x) GEAR_STATE_MAP with
          | Some kv => snd kv
          | None => default
          end)
  end.

(** [lambda x: GEAR_STATE_MAP.get(x, f'Unknown({x})') if x is not None else None] *)
Definition gear_transform (x : value) : outcome value :=
  match x with
  | VNone => Ok VNone
  | _ => s ← gear_state_get x ("Unknown(" +:+ py_str x +:+ ")"); Ok (VStr s)
  end.

Definition to_degrees (f : float) : float :=
  (f * 180.0 / 3.14159265359)%float.

(** [lambda x: x * 180.0 / 3.14159265359 if x is not None else None] *)
Definition heading_transform (x : value) : outcome value :=
  match x with
  | VNone => Ok VNone
  | _ =>
      match Py.as_number x with
      | Some (Py.NInt n) => f ← Py.float_of_int n; Ok (VFloat (to_degrees f))
      | Some (Py.NFloat f) => Ok (VFloat (to_degrees f))
      | None => Raise TypeError
      end
  end.

Record config : Type := {
  message_type : option string;
  field : string;
  csv_name : string;
  transform : option (value -> outcome value)
}.

Definition plain (mt fld csv : string) : config :=
  {| message_type := Some mt; field := fld; csv_name := csv; transform := None |}.

Definition MESSAGE_CONFIGS : list (string * config) :=
  [ ("VolvoFuelLevel",
     plain "PentaEngineStatus" "fuel_level.fuel_level1" "fuel_level1.csv");
    ("EngineFuelEconomy",
     plain "PentaEngineStatus" "fuel_econ.engine_fuel_rate" "engine_fuel_rate.csv");
    ("EngineHours",
     plain "PentaEngineStatus" "hours.engine_total_hours_of_operation"
           "engine_total_hours_of_operation.csv");
    ("EngineTemperatures",
     plain "PentaEngineStatus" "temps.engine_oil_temperature" "engine_oil_temperature.csv");
    ("PentaEngineStatus_oil_pressure",
     plain "PentaEngineStatus" "pressures.engine_oil_pressure" "engine_oil_pressure.csv");
    ("EngineSpeed",
     plain "PentaEngineStatus" "speed.engine_speed" "engine_speed.csv");
    ("SeaState", plain "SeaState" "instant_g_force" "instant_g_force.csv");
    ("Odometry", plain "Odometry" "odometer" "odometer.csv");
    ("PentaEngineStatus_gear",
     {| message_type := Some "PentaEngineStatus";
        field := "vessel_status.current_gear";
        csv_name := "current_gear.csv";
        transform := Some gear_transform |});
    ("VehicleCommand", plain "VehicleCommand" "throttle" "throttle.csv");
    ("VesselHeading",
     {| message_type := Some "VesselHeading";
        field := "heading";
        csv_name := "heading.csv";
        transform := Some heading_transform |});
    ("PentaEngineStatus_steering",
     plain "PentaEngineStatus" "vessel_status.current_steering_angle"
           "current_steering_angle.csv");
    ("Ahrs_roll", plain "Ahrs" "attitude.roll_deg" "roll_deg.csv");
    ("Ahrs_pitch", plain "Ahrs" "attitude.pitch_deg" "pitch_deg.csv");
    ("Ahrs_yaw", plain "Ahrs" "attitude.yaw_deg" "yaw_deg.csv") ].

(** The loop of [get_nested_value] over the fields of the path. *)
Fixpoint walk (fields : list string) (v : value) : value :=
  match fields with
  | [] => v
  | fld :: rest =>
      match v with
      | VDict items =>
          match Py.dict_get items fld with
          | Some v' => walk rest v'
          | None => VNone
          end
      | _ => VNone
      end
  end.

Definition get_nested_value (data : value) (field_path : string) : value :=
  walk (Py.split "." field_path) data.

(** The loop of [read_json_file] over the lines of the file. *)
Definition read_line (file : string) (l : line) (records : list value) : io (list value) :=
  match l with
  | Blank => mret records
  | Malformed => logger WARNING (ParseFailed file);; mret records
  | Json record => mret (records ++ [record])
  end.

Definition read_json_file (file_path : string * node) : io (list value) :=
  let (name, file) := file_path in
  match file with
  | File (Readable lines) => for_each lines (read_line name) []
  | File (Unreadable lines) =>
      records ← for_each lines (read_line name) [];
      logger ERROR (ReadFailed name);;
      mret records
  | Dir _ => logger ERROR (ReadFailed name);; mret []
  end.

(** [v is None]. *)
Definition is_none (v : value) : bool :=
  match v with
  | VNone => true
  | _ => false
  end.

(** [message_data]: the data points collected so far, by configuration key. *)
Definition message_store : Type := gmap string (list point).

(** The body of the loop over the configurations, for one record
    (lines 210-228). *)
Definition extract (boat_name : string) (msg_type : string) (ts : value)
    (message_data_obj : value) (entry : string * config)
    (message_data : message_store) : outcome message_store :=
  let (config_key, cfg) := entry in
  let check_message_type := default config_key (message_type cfg) in
  if String.eqb msg_type check_message_type then
    let field_value := get_nested_value message_data_obj (field cfg) in
    field_value ←
      match transform cfg with
      | Some f => if is_none field_value then Ok field_value else f field_value
      | None => Ok field_value
      end;
    if is_none field_value then Ok message_data
    else Ok (<[config_key :=
                 default [] (message_data !! config_key) ++
                 [ {| boat := boat_name; val := field_value; timestamp := ts |} ]]>
             message_data)
  else Ok message_data.

(** [for x in xs: acc = body(x, acc)] for a body that only computes. *)
Fixpoint fold_outcome {A S : Type} (xs : list A) (body : A -> S -> outcome S) (acc : S)
    : outcome S :=
  match xs with
  | [] => Ok acc
  | x :: rest => acc' ← body x acc; fold_outcome rest body acc'
  end.

(** The body of the loop over the records of a file (lines 196-228):
    [.get] and [.keys] exist on a dict only. *)
Definition process_record (boat_name : string) (record : value)
    (message_data : message_store) : outcome message_store :=
  match record with
  | VDict items =>
      let ts := default (VStr "") (Py.dict_get items "ts") in
      let msg_obj := default (VDict []) (Py.dict_get items "msg") in
      if Py.truthy msg_obj then
        match msg_obj with
        | VDict wrapper =>
            let msg_type :=
              match wrapper with
              | (k, _) :: _ => k
              | [] => EmptyString
              end in
            let message_data_obj := default (VDict []) (Py.dict_get wrapper msg_type) in
            fold_outcome MESSAGE_CONFIGS
              (extract boat_name msg_type ts message_data_obj) message_data
        | _ => Raise AttributeError
        end
      else Ok message_data
  | _ => Raise AttributeError
  end.

(** ** Writing a series (lines 234-250) *)

Definition CR : ascii := "013"%char.
Definition LF : ascii := "010"%char.
Definition QUOTE : ascii := "034"%char.
Definition CRLF : string := String CR (String LF EmptyString).

(** A field is quoted when it holds the delimiter, the quote character or a
    character of the line terminator (the [excel] dialect, [QUOTE_MINIMAL]). *)
Definition special (c : ascii) : bool :=
  Ascii.eqb c "," || Ascii.eqb c QUOTE || Ascii.eqb c CR || Ascii.eqb c LF.

Fixpoint needs_quotes (s : string) : bool :=
  match s with
  | EmptyString => false
  | String c rest => special c || needs_quotes rest
  end.

Fixpoint double_quotes (s : string) : string :=
  match s with
  | EmptyString => EmptyString
  | String c rest =>
      if Ascii.eqb c QUOTE then String QUOTE (String QUOTE (double_quotes rest))
      else String c (double_quotes rest)
  end.

(** The writer prints [None] as the empty string and anything else by [str]. *)
Definition csv_field (v : value) : string :=
  let s := match v with
           | VNone => EmptyString
           | _ => py_str v
           end in
  if needs_quotes s then String QUOTE (double_quotes s +:+ String QUOTE EmptyString)
  else s.

Definition csv_row (fields : list value) : string :=
  String.concat "," (List.map csv_field fields) +:+ CRLF.

Definition header : string := "boat,value,timestamp" +:+ CRLF.

Definition row_of (p : point) : string :=
  csv_row [VStr (boat p); val p; timestamp p].

Definition rows (ps : list point) : string :=
  String.concat EmptyString (List.map row_of ps).

(** [data_points.sort(key=lambda x: x['timestamp'])]: [list.sort] is stable
    and compares keys with [<] only.  It is written here as an insertion
    from the right: an element goes in front of the first one whose key is
    not smaller than its own.  A comparison that raises ends the sort.
    Where [<] is a strict weak order on the keys every stable sort returns
    the same list, and where the keys are strings and numbers of both kinds
    every sort runs into a comparison that raises; on other keys the
    comparisons [list.sort] makes may differ from the ones made here. *)
Fixpoint insert_point (x : point) (sorted : list point) : outcome (list point) :=
  match sorted with
  | [] => Ok [x]
  | y :: rest =>
      smaller ← Py.lt (timestamp y) (timestamp x);
      if (smaller : bool) then rest' ← insert_point x rest; Ok (y :: rest')
      else Ok (x :: y :: rest)
  end.

Fixpoint sort (data_points : list point) : outcome (list point) :=
  match data_points with
  | [] => Ok []
  | x :: rest => sorted ← sort rest; insert_point x sorted
  end.

(** The body of the loop over the configurations: the file is opened and the
    header written before the sort, so a sort that raises leaves the header
    behind. *)
Definition export (output_dir : path) (entry : string * config)
    (data_points : list point) : io unit :=
  let (config_key, cfg) := entry in
  match data_points with
  | _ :: _ =>
      let csv_path := output_dir ++ [csv_name cfg] in
      open_w csv_path;;
      write csv_path header;;
      sorted ← lift (sort data_points);
      write csv_path (rows sorted);;
      logger INFO (Created csv_path (length data_points))
  | [] => logger WARNING (NoData config_key)
  end.

(** ** One day of one boat *)

(** [day_dir.glob('*' + suffix)]: the entries whose name ends with the
    suffix, in the order the directory lists them. *)
Definition glob (day_dir : directory) (suffix : string) : list (string * node) :=
  List.filter (fun e => Py.endswith (fst e) suffix) (dir_entries day_dir).

(** The reading half of [process_boat_day_data], for one file. *)
Definition process_file (boat_name : string) (json_file : string * node)
    (message_data : message_store) : io message_store :=
  logger DEBUG (ProcessingFile (fst json_file));;
  records ← read_json_file json_file;
  lift (fold_outcome records (process_record boat_name) message_data).

(** The writing half, for one configuration. *)
Definition export_config (output_dir : path) (message_data : message_store)
    (entry : string * config) (_ : unit) : io unit :=
  export output_dir entry (default [] (message_data !! fst entry)).

(** The collectors, empty, one per configuration (line 174). *)
Definition no_data : message_store :=
  list_to_map (List.map (fun e => (fst e, [])) MESSAGE_CONFIGS).

(** The candidate files (lines 177-182).  The filter tests [str(f)], which
    ends with the name of [f], a name longer than [.zst]. *)
Definition json_files (day_dir : directory) : list (string * node) :=
  List.filter (fun f => negb (Py.endswith (fst f) ".zst"))
    (glob day_dir ".json" ++ glob day_dir ".jsonl").

Definition process_boat_day_data (day_dir : directory) (output_dir : path)
    (boat_name : string) : io unit :=
  let message_data := no_data in
  match json_files day_dir with
  | [] => logger WARNING (NoJsonFiles (dir_name day_dir))
  | _ :: _ =>
      logger INFO (ProcessingFiles (length (json_files day_dir)) (dir_name day_dir));;
      message_data ← for_each (json_files day_dir) (process_file boat_name) message_data;
      mkdir output_dir;;
      for_each MESSAGE_CONFIGS (export_config output_dir message_data) tt
  end.

(** ** All boats and the entry point *)

(** [[d for d in p.iterdir() if d.is_dir()]]. *)
Fixpoint subdirs (entries : list (string * node)) : list directory :=
  match entries with
  | [] => []
  | (name, Dir es) :: rest => {| dir_name := name; dir_entries := es |} :: subdirs rest
  | (_, File _) :: rest => subdirs rest
  end.

Definition named (name : string) (ds : list directory) : list directory :=
  List.filter (fun d => String.eqb (dir_name d) name) ds.

(** [if boat_filter:] holds for a filter that is given and not empty. *)
Definition requested (f : option string) : option string :=
  match f with
  | Some EmptyString => None
  | _ => f
  end.

Definition process_day (output_base_dir : path) (boat_name : string)
    (day_dir : directory) (_ : unit) : io unit :=
  let day_name := dir_name day_dir in
  logger INFO (ProcessingDay day_name boat_name);;
  process_boat_day_data day_dir (output_base_dir ++ [boat_name; day_name]) boat_name.

Definition process_boat (output_base_dir : path) (day_filter : option string)
    (boat_dir : directory) (_ : unit) : io unit :=
  let boat_name := dir_name boat_dir in
  logger INFO (ProcessingBoat boat_name);;
  match subdirs (dir_entries boat_dir) with
  | [] => logger WARNING (NoDayDirs boat_name)
  | day_dirs =>
      match requested day_filter with
      | Some day =>
          match named day day_dirs with
          | [] => logger WARNING (DayNotFound day boat_name)
          | day_dirs =>
              logger INFO (SingleDay day);;
              for_each day_dirs (process_day output_base_dir boat_name) tt
          end
      | None => for_each day_dirs (process_day output_base_dir boat_name) tt
      end
  end.

(** [raw_json_dir] is what stands at that path: nothing, a file or a
    directory; [iterdir] on a file raises. *)
Definition process_all_boats (raw_json_dir : option node) (output_base_dir : path)
    (boat_filter day_filter : option string) : io unit :=
  match raw_json_dir with
  | None => logger ERROR RootMissing
  | Some (File _) => lift (Raise NotADirectoryError)
  | Some (Dir entries) =>
      match subdirs entries with
      | [] => logger WARNING NoBoatDirs
      | boat_dirs =>
          match requested boat_filter with
          | Some b =>
              match named b boat_dirs with
              | [] => logger ERROR (BoatNotFound b)
              | boat_dirs =>
                  logger INFO (SingleBoat b);;
                  for_each boat_dirs (process_boat output_base_dir day_filter) tt
              end
          | None =>
              logger INFO (FoundBoats (length boat_dirs));;
              for_each boat_dirs (process_boat output_base_dir day_filter) tt
          end
      end
  end.

(** The parsed command line. *)
Record arguments : Type := {
  raw_json_dir : option node;
  output : path;
  verbose : bool;
  boat_arg : option string;
  day_arg : option string
}.

(** [main()], with the status the process exits with: [0] when [main]
    returns, [1] when an exception leaves it. *)
Definition main (args : arguments) (w : world) : Z * world :=
  let run : io unit :=
    (if verbose args then setLevel_DEBUG else mret tt);;
    logger INFO Starting;;
    logger INFO (OutputTo (output args));;
    process_all_boats (raw_json_dir args) (output args) (boat_arg args) (day_arg args);;
    logger INFO Complete in
  match run w with
  | (Ok _, w') => (0%Z, w')
  | (Raise _, w') => (1%Z, w')
  end.

(** ** Definitions used in the statements *)

(** [resolves data fields v]: every field of the path is a key of the mapping
    reached so far, and [v] is the value reached at the end. *)
Inductive resolves : value -> list string -> value -> Prop :=
| resolves_here (v : value) : resolves v [] v
| resolves_step (items : list (string * value)) (fld : string) (rest : list string)
    (v' v : value) :
    Py.dict_get items fld = Some v' ->
    resolves v' rest v ->
    resolves (VDict items) (fld :: rest) v.

(** The label of a gear code, as the table and its fallback give it. *)
Definition gear_label (code : Z) : string :=
  if (code =? 0)%Z then "Neutral"
  else if (code =? 1)%Z then "Forward"
  else if (code =? 2)%Z then "Reverse"
  else if (code =? 3)%Z then "NotAvailable"
  else if (code =? 255)%Z then "Unknown"
  else "Unknown(" +:+ pretty code +:+ ")".

(** The records and the warnings a sequence of lines stands for. *)
Definition decoded (l : line) : option value :=
  match l with
  | Json v => Some v
  | _ => None
  end.

Definition warning_of (file : string) (l : line) : option (level * message) :=
  match l with
  | Malformed => Some (WARNING, ParseFailed file)
  | _ => None
  end.

Definition add_log (w : world) (entries : list (level * message)) : world :=
  {| files := files w; dirs := dirs w; debug := debug w; log := log w ++ entries |}.

(** An entry of a day directory that [glob] does not pick up, and a day
    directory without any candidate file. *)
Definition no_candidate (e : string * node) : Prop :=
  Py.endswith (fst e) ".json" = false /\ Py.endswith (fst e) ".jsonl" = false.

Definition idle_day (d : directory) : Prop := Forall no_candidate (dir_entries d).

Definition idle_boat (b : directory) : Prop :=
  Forall idle_day (subdirs (dir_entries b)).

(** Code that returns normally and leaves the output tree as it found it. *)
Definition quiet (m : io unit) : Prop :=
  forall w, exists w', m w = (Ok tt, w') /\ files w' = files w /\ dirs w' = dirs w.

(** Timestamps that are all strings, or all integers. *)
Definition is_str (v : value) : bool :=
  match v with
  | VStr _ => true
  | _ => false
  end.

Definition is_int (v : value) : bool :=
  match v with
  | VInt _ => true
  | _ => false
  end.

Definition uniform_timestamps (ps : list point) : bool :=
  forallb (fun p => is_str (timestamp p)) ps ||
  forallb (fun p => is_int (timestamp p)) ps.

(** [not_after p q]: the timestamp of [q] is not smaller than that of [p]. *)
Definition not_after (p q : point) : Prop :=
  Py.lt (timestamp q) (timestamp p) = Ok false.

(** The points whose timestamp equals [k]. *)
Definition at_time (k : value) (ps : list point) : list point :=
  List.filter (fun p => Py.item_eq (timestamp p) k) ps.

(** [a < b] returns [r]. *)
Definition lt_is (r : bool) (a b : value) : bool :=
  match Py.lt a b with
  | Ok r' => Bool.eqb r r'
  | Raise _ => false
  end.

(** Neither of [a] and [b] is smaller than the other, which for keys that
    [<] orders is the case when they are equal. *)
Definition tied (a b : value) : bool := lt_is false a b && lt_is false b a.

Definition tied_with (k : value) (ps : list point) : list point :=
  List.filter (fun p => tied k (timestamp p)) ps.

(** [<] raises on no two of the keys and is a strict weak order on them:
    of [a < b] and [b < a] at most one holds, and [a <= b <= c] gives
    [a <= c], where [a <= b] stands for [not b < a]. *)
Definition ordered_by_lt (keys : list value) : bool :=
  forallb (fun a =>
    forallb (fun b => lt_is false a b || (lt_is true a b && lt_is false b a)) keys)
    keys &&
  forallb (fun a =>
    forallb (fun b =>
      forallb (fun c => implb (lt_is false b a && lt_is false c b) (lt_is false c a))
        keys) keys) keys.

(** The order [<] on the strings and on the integers, as total functions. *)
Definition str_ltb (a b : value) : bool :=
  match a, b with
  | VStr s, VStr t => String.ltb s t
  | _, _ => false
  end.

Definition int_ltb (a b : value) : bool :=
  match a, b with
  | VInt m, VInt n => (m <? n)%Z
  | _, _ => false
  end.

(** What [export] leaves in the file of a series that is not empty. *)
Definition export_content (data_points : list point) : string :=
  match sort data_points with
  | Ok sorted => header +:+ rows sorted
  | Raise _ => header
  end.

Definition export_result (data_points : list point) : outcome unit :=
  match data_points with
  | [] => Ok tt
  | _ :: _ => sorted ← sort data_points; Ok tt
  end.

(** What a day writes, as functions of the day directory alone: the records
    of a file, the series collected from the files, and the files the
    exports leave behind, up to the first one that raises. *)
Definition records_of (json_file : string * node) : list value :=
  match snd json_file with
  | File (Readable lines) | File (Unreadable lines) => omap decoded lines
  | Dir _ => []
  end.

Definition collect (boat_name : string) (json_files : list (string * node))
    (message_data : message_store) : outcome message_store :=
  fold_outcome json_files
    (fun f md => fold_outcome (records_of f) (process_record boat_name) md)
    message_data.

Fixpoint exports_result (message_data : message_store)
    (entries : list (string * config)) : outcome unit :=
  match entries with
  | [] => Ok tt
  | e :: rest =>
      export_result (default [] (message_data !! fst e));;
      exports_result message_data rest
  end.

Fixpoint written (output_dir : path) (message_data : message_store)
    (entries : list (string * config)) : gmap path string :=
  match entries with
  | [] => ∅
  | e :: rest =>
      let data_points := default [] (message_data !! fst e) in
      let own : gmap path string :=
        match data_points with
        | [] => ∅
        | _ :: _ => {[ output_dir ++ [csv_name (snd e)] := export_content data_points ]}
        end in
      match export_result data_points with
      | Ok _ => written output_dir message_data rest ∪ own
      | Raise _ => own
      end
  end.

Definition day_result (day_dir : directory) (boat_name : string) : outcome unit :=
  match json_files day_dir with
  | [] => Ok tt
  | _ :: _ =>
      message_data ← collect boat_name (json_files day_dir) no_data;
      exports_result message_data MESSAGE_CONFIGS
  end.

Definition day_files (day_dir : directory) (output_dir : path) (boat_name : string)
    : gmap path string :=
  match json_files day_dir with
  | [] => ∅
  | _ :: _ =>
      match collect boat_name (json_files day_dir) no_data with
      | Ok message_data => written output_dir message_data MESSAGE_CONFIGS
      | Raise _ => ∅
      end
  end.

Definition day_dirs (day_dir : directory) (output_dir : path) (boat_name : string)
    : gset path :=
  match json_files day_dir with
  | [] => ∅
  | _ :: _ =>
      match collect boat_name (json_files day_dir) no_data with
      | Ok _ => list_to_set (parents output_dir)
      | Raise _ => ∅
      end
  end.

(** An entry of a day directory that [glob] picks up. *)
Definition candidate (e : string * node) : bool :=
  Py.endswith (fst e) ".json" || Py.endswith (fst e) ".jsonl".

(** The transform of a configuration, where it has one, at a field value. *)
Definition transformed (cfg : config) (field_value : value) : outcome value :=
  match transform cfg with
  | Some f => f field_value
  | None => Ok field_value
  end.

(** Every point of the collectors has a value and the given boat name. *)
Definition well_formed (boat_name : string) (md : message_store) : Prop :=
  forall config_key p,
    In p (default [] (md !! config_key)) -> val p <> VNone /\ boat p = boat_name.

(** No signal has a data point. *)
Definition no_points (md : message_store) : bool :=
  forallb (fun e => match default [] (md !! fst e) with
                    | [] => true
                    | _ :: _ => false
                    end) MESSAGE_CONFIGS.

(** No two of the keys are tied. *)
Fixpoint untied (keys : list value) : bool :=
  match keys with
  | [] => true
  | k :: rest => forallb (fun k' => negb (tied k k')) rest && untied rest
  end.

(** [runs m r F D]: whatever the output tree and the log it starts from,
    [m] ends with [r], having written the files of [F], over the ones that
    were at their paths, and created the directories of [D]. *)
Definition runs {A : Type} (m : io A) (r : outcome A) (F : gmap path string)
    (D : gset path) : Prop :=
  forall w, exists w',
    m w = (r, w') /\ files w' = F ∪ files w /\ dirs w' = dirs w ∪ D.

(** Two computations that end the same way and do the same to the output
    tree, where the files written satisfy [PF] and the directories created
    satisfy [PD]. *)
Definition alike {A : Type} (PF PD : path -> Prop) (m1 m2 : io A) : Prop :=
  exists r F D,
    runs m1 r F D /\ runs m2 r F D /\
    (forall p, is_Some (F !! p) -> PF p) /\
    (forall d, d ∈ D -> PD d).

(** The part of the input tree that the filters select: the entries of the
    given name where a filter is given and not empty, all entries
    otherwise. *)
Definition select (filter : option string) (entries : list (string * node))
    : list (string * node) :=
  match requested filter with
  | Some name => List.filter (fun e => String.eqb (fst e) name) entries
  | None => entries
  end.

Definition select_days (day_filter : option string) (e : string * node)
    : string * node :=
  match snd e with
  | Dir days => (fst e, Dir (select day_filter days))
  | File _ => e
  end.

(** A boat directory with the days that the day filter selects. *)
Definition restrict (day_filter : option string) (boat_dir : directory) : directory :=
  {| dir_name := dir_name boat_dir;
     dir_entries := select day_filter (dir_entries boat_dir) |}.

Definition selected (boat_filter day_filter : option string)
    (entries : list (string * node)) : list (string * node) :=
  List.map (select_days day_filter) (select boat_filter entries).

(** A directory that a filter lets through. *)
Definition passes (filter : option string) (d : directory) : Prop :=
  forall name, requested filter = Some name -> dir_name d = name.

(** A boat directory and a day directory of it that the run processes. *)
Definition unit_of (entries : list (string * node)) (boat_filter day_filter : option string)
    (boat_dir day_dir : directory) : Prop :=
  In boat_dir (subdirs entries) /\ passes boat_filter boat_dir /\
  In day_dir (subdirs (dir_entries boat_dir)) /\ passes day_filter day_dir.

(** The paths of the files a run may write and of the directories it may
    create: [output/boat/day/csv_name], and [output/boat/day] with the
    directories above it. *)
Definition output_file (args : arguments) (p : path) : Prop :=
  exists entries boat_dir day_dir entry,
    raw_json_dir args = Some (Dir entries) /\
    unit_of entries (boat_arg args) (day_arg args) boat_dir day_dir /\
    In entry MESSAGE_CONFIGS /\
    p = output args ++ [dir_name boat_dir; dir_name day_dir; csv_name (snd entry)].

Definition output_directory (args : arguments) (d : path) : Prop :=
  exists entries boat_dir day_dir,
    raw_json_dir args = Some (Dir entries) /\
    unit_of entries (boat_arg args) (day_arg args) boat_dir day_dir /\
    In d (parents (output args ++ [dir_name boat_dir; dir_name day_dir])).

(** The records of a log that are not [DEBUG] records. *)
Definition without_debug (entries : list (level * message)) : list (level * message) :=
  List.filter (fun e => match fst e with DEBUG => false | _ => true end) entries.

(** [w1] is at the default level and differs from [w2] by the [DEBUG]
    records that [w2] got in addition, after the log [before]. *)
Definition quieter (before : list (level * message)) (w1 w2 : world) : Prop :=
  files w1 = files w2 /\ dirs w1 = dirs w2 /\ debug w1 = false /\
  exists added,
    log w2 = before ++ added /\ log w1 = before ++ without_debug added.

(** Code that does the same at both levels, [DEBUG] records apart. *)
Definition level_blind {A : Type} (m : io A) : Prop :=
  forall before w1 w2,
    quieter before w1 w2 ->
    fst (m w1) = fst (m w2) /\ quieter before (snd (m w1)) (snd (m w2)).

Definition with_verbose (flag : bool) (args : arguments) : arguments :=
  {| raw_json_dir := raw_json_dir args; output := output args; verbose := flag;
     boat_arg := boat_arg args; day_arg := day_arg args |}.

(** ** Sample inputs *)

(** A [py_repr] for runs that print no float, list or dict. *)
Definition no_repr : value -> string := fun _ => EmptyString.

(** An empty output tree and an empty log, at the default level. *)
Definition fresh : world :=
  {| files := ∅; dirs := ∅; debug := false; log := [] |}.

(** The record [{"ts": ts, "msg": {"Odometry": {"odometer": v}}}], and the
    same record without its [ts] field. *)
Definition odometry (ts v : value) : value :=
  VDict [("ts", ts); ("msg", VDict [("Odometry", VDict [("odometer", v)])])].

Definition odometry_without_ts (v : value) : value :=
  VDict [("msg", VDict [("Odometry", VDict [("odometer", v)])])].

(** [{"ts": ts, "msg": {"PentaEngineStatus": {"vessel_status": {"current_gear": v}}}}]
    and [{"ts": ts, "msg": {"VesselHeading": {"heading": v}}}]. *)
Definition gear_status (ts v : value) : value :=
  VDict [("ts", ts);
         ("msg", VDict [("PentaEngineStatus",
                         VDict [("vessel_status", VDict [("current_gear", v)])])])].

Definition vessel_heading (ts v : value) : value :=
  VDict [("ts", ts); ("msg", VDict [("VesselHeading", VDict [("heading", v)])])].

Definition odometry_cfg : config := plain "Odometry" "odometer" "odometer.csv".

Definition at_ts (ts v : value) : point :=
  {| boat := "cr38"; val := v; timestamp := ts |}.

(** A series with float timestamps, two of them equal. *)
Definition float_series : list point :=
  [ at_ts (VFloat 2.5) (VInt 30); at_ts (VFloat 1.5) (VInt 10);
    at_ts (VInt 2) (VInt 40); at_ts (VFloat 1.5) (VInt 20) ].

(** A series with two points of the timestamp [t1], after one of [t2]. *)
Definition tied_series : list point :=
  [ at_ts (VStr "t2") (VInt 30); at_ts (VStr "t1") (VInt 10);
    at_ts (VStr "t1") (VInt 20) ].

(** The series of a record without [ts] followed by one with [ts = 5]. *)
Definition mixed_series : list point :=
  [ at_ts (VStr "") (VInt 1); at_ts (VInt 5) (VInt 2) ].

(** A day directory with nothing for [glob] to find. *)
Definition day_without_json : directory :=
  {| dir_name := "2025-05-01";
     dir_entries :=
       [ ("notes.txt", File (Readable [Json (odometry (VInt 1) (VInt 2))]));
         ("data.json.zst", File (Unreadable []));
         ("archive", Dir []) ] |}.

(** A tree with one boat and one day, whose file has the given lines. *)
Definition one_file_tree (lines : list line) : node :=
  Dir [("cr38", Dir [("2025-05-01", Dir [("a.jsonl", File (Readable lines))])])].

(** The day of the end-to-end scenario: gear code 2, heading 1.5708. *)
Definition scenario_day : directory :=
  {| dir_name := "2025-05-01";
     dir_entries :=
       [ ("telemetry.jsonl",
          File (Readable [ Json (gear_status (VStr "t1") (VInt 2));
                           Json (vessel_heading (VStr "t2") (VFloat 1.5708)) ])) ] |}.

Definition run_on (root : option node) (boat_filter : option string) : arguments :=
  {| raw_json_dir := root; output := ["output_csv"]; verbose := false;
     boat_arg := boat_filter; day_arg := None |}.

(** A file with the record [odometry 5 7], and the collectors after it. *)
Definition odometry_file : string * node :=
  ("a.jsonl", File (Readable [Json (odometry (VInt 5) (VInt 7))])).

Definition odometry_store : message_store :=
  <["Odometry" := [at_ts (VInt 5) (VInt 7)]]> no_data.

(** A day whose file holds one record, of a message type that no
    configuration asks for. *)
Definition unknown_day : directory :=
  {| dir_name := "2025-05-01";
     dir_entries :=
       [ ("a.jsonl",
          File (Readable [ Json (VDict [ ("ts", VInt 1);
                                         ("msg", VDict [("Heartbeat", VDict [])]) ]) ])) ] |}.

(** A series of two timestamps, in both orders. *)
Definition two_points : list point :=
  [ at_ts (VStr "t2") (VInt 30); at_ts (VStr "t1") (VInt 10) ].

Definition two_points_swapped : list point :=
  [ at_ts (VStr "t1") (VInt 10); at_ts (VStr "t2") (VInt 30) ].

(** ** The field extractor *)

Lemma walk_resolves (fields : list string) (data v : value) :
  resolves data fields v -> walk fields data = v.
Proof.
  induction 1 as [|items fld rest v' v Hget _ IH]; simpl.
  - reflexivity.
  - rewrite Hget. exact IH.
Qed.

Lemma walk_defined_or_absent (fields : list string) (data : value) :
  resolves data fields (walk fields data) \/ walk fields data = VNone.
Proof.
  revert data. induction fields as [|fld rest IH]; intros data; simpl.
  - left. constructor.
  - destruct data; auto.
    destruct (Py.dict_get items fld) as [v'|] eqn:Hget; auto.
    destruct (IH v') as [Hres|Hnone]; auto.
    left. econstructor; eauto.
Qed.

(** C5. Extraction follows the path one field at a time: when every field
    is a key of the mapping reached so far it returns the value reached;
    otherwise (the value reached is no mapping, or lacks the field) it
    returns [None].  On [{"a": {"b": 5}}] the path [a.b] gives [5], and
    [a.c] and [x.y] give [None]. *)
Theorem get_nested_value_follows_path :
  (forall data field_path v,
     resolves data (Py.split "." field_path) v ->
     get_nested_value data field_path = v) /\
  (forall data field_path,
     (forall v, ~ resolves data (Py.split "." field_path) v) ->
     get_nested_value data field_path = VNone) /\
  (forall fld rest data,
     (forall items, data = VDict items -> Py.dict_get items fld = None) ->
     walk (fld :: rest) data = VNone) /\
  (let payload := VDict [("a", VDict [("b", VInt 5)])] in
   get_nested_value payload "a.b" = VInt 5 /\
   get_nested_value payload "a.c" = VNone /\
   get_nested_value payload "x.y" = VNone).
Proof.
  split; [|split; [|split]].
  - intros data field_path v Hres. apply walk_resolves, Hres.
  - intros data field_path Hnone. unfold get_nested_value.
    destruct (walk_defined_or_absent (Py.split "." field_path) data) as [Hres|Habs].
    + destruct (Hnone _ Hres).
    + exact Habs.
  - intros fld rest data Hmiss. simpl.
    destruct data; try reflexivity.
    rewrite (Hmiss items eq_refl). reflexivity.
  - repeat split; reflexivity.
Qed.

(** ** The transforms *)

Lemma gear_transform_int (code : Z) :
  gear_transform (VInt code) = Ok (VStr (gear_label code)).
Proof.
  unfold gear_transform, gear_state_get, gear_label, GEAR_STATE_MAP.
  cbn -[Z.eqb pretty String.append].
  destruct (0 =? code)%Z eqn:E0.
  { apply Z.eqb_eq in E0. subst. reflexivity. }
  destruct (1 =? code)%Z eqn:E1.
  { apply Z.eqb_eq in E1. subst. reflexivity. }
  destruct (2 =? code)%Z eqn:E2.
  { apply Z.eqb_eq in E2. subst. reflexivity. }
  destruct (3 =? code)%Z eqn:E3.
  { apply Z.eqb_eq in E3. subst. reflexivity. }
  destruct (255 =? code)%Z eqn:E255.
  { apply Z.eqb_eq in E255. subst. reflexivity. }
  rewrite (Z.eqb_sym code 0), (Z.eqb_sym code 1), (Z.eqb_sym code 2),
    (Z.eqb_sym code 3), (Z.eqb_sym code 255), E0, E1, E2, E3, E255.
  reflexivity.
Qed.

(** C7. The gear transform sends the codes 0, 1, 2, 3 and 255 to their
    labels, any other integer code [c] to ["Unknown(c)"] (7 to
    ["Unknown(7)"]), and [None] to [None]. *)
Theorem gear_transform_labels :
  gear_transform (VInt 0) = Ok (VStr "Neutral") /\
  gear_transform (VInt 1) = Ok (VStr "Forward") /\
  gear_transform (VInt 2) = Ok (VStr "Reverse") /\
  gear_transform (VInt 3) = Ok (VStr "NotAvailable") /\
  gear_transform (VInt 255) = Ok (VStr "Unknown") /\
  (forall c : Z,
     ~ In c [0; 1; 2; 3; 255]%Z ->
     gear_transform (VInt c) = Ok (VStr ("Unknown(" +:+ pretty c +:+ ")"))) /\
  gear_transform (VInt 7) = Ok (VStr "Unknown(7)") /\
  gear_transform VNone = Ok VNone.
Proof.
  repeat split; try reflexivity.
  intros c Hc. rewrite gear_transform_int. unfold gear_label.
  simpl in Hc.
  destruct (Z.eqb_spec c 0); [lia|].
  destruct (Z.eqb_spec c 1); [lia|].
  destruct (Z.eqb_spec c 2); [lia|].
  destruct (Z.eqb_spec c 3); [lia|].
  destruct (Z.eqb_spec c 255); [lia|].
  reflexivity.
Qed.

(** C6. Both transforms send [None] to [None], but neither is total: the
    gear transform raises [TypeError] on a value that cannot be hashed (a
    list or a dict), and the heading transform raises it on a string, a list
    or a dict, where the contract asks for a labelled sentinel. *)
Theorem transforms_raise_on_unexpected_shapes :
  gear_transform VNone = Ok VNone /\
  heading_transform VNone = Ok VNone /\
  (forall items, gear_transform (VList items) = Raise TypeError) /\
  (forall items, gear_transform (VDict items) = Raise TypeError) /\
  (forall s, heading_transform (VStr s) = Raise TypeError) /\
  (forall items, heading_transform (VList items) = Raise TypeError) /\
  (forall items, heading_transform (VDict items) = Raise TypeError) /\
  (forall boat_name ts message_data,
     process_record boat_name (gear_status ts (VList [VInt 1])) message_data =
       Raise TypeError /\
     process_record boat_name (vessel_heading ts (VStr "north")) message_data =
       Raise TypeError).
Proof.
  repeat split; reflexivity.
Qed.

(** ** The record reader *)

Lemma add_log_nil (w : world) : add_log w [] = w.
Proof. destruct w. unfold add_log. simpl. rewrite app_nil_r. reflexivity. Qed.

Lemma add_log_app (w : world) (xs ys : list (level * message)) :
  add_log (add_log w xs) ys = add_log w (xs ++ ys).
Proof. unfold add_log. simpl. rewrite app_assoc. reflexivity. Qed.

Lemma logger_emitted (lvl : level) (msg : message) (w : world) :
  emitted w lvl = true -> logger lvl msg w = (Ok tt, add_log w [(lvl, msg)]).
Proof. intros H. unfold logger. rewrite H. reflexivity. Qed.

Lemma io_bind_eq {A B : Type} (m : io A) (k : A -> io B) (w : world) :
  (m ≫= k) w =
  match m w with
  | (Ok a, w') => k a w'
  | (Raise e, w') => (Raise e, w')
  end.
Proof. reflexivity. Qed.

Lemma io_ret_eq {A : Type} (a : A) (w : world) : (mret a : io A) w = (Ok a, w).
Proof. reflexivity. Qed.

Ltac io_step :=
  rewrite io_bind_eq; cbn [open_w write lift mkdir files dirs debug log].

Lemma read_lines_spec (file : string) (lines : list line) (records : list value)
    (w : world) :
  for_each lines (read_line file) records w =
  (Ok (records ++ omap decoded lines), add_log w (omap (warning_of file) lines)).
Proof.
  revert records w. induction lines as [|l lines IH]; intros records w.
  - simpl. rewrite app_nil_r, add_log_nil. reflexivity.
  - destruct l as [| |v]; cbn [for_each omap list_omap decoded warning_of].
    + rewrite io_bind_eq. cbn [read_line]. rewrite io_ret_eq. apply IH.
    + rewrite io_bind_eq. cbn [read_line].
      rewrite io_bind_eq, logger_emitted by reflexivity. rewrite io_ret_eq.
      rewrite IH, add_log_app. reflexivity.
    + rewrite io_bind_eq. cbn [read_line]. rewrite io_ret_eq.
      rewrite IH, <- app_assoc. reflexivity.
Qed.

(** C9. The reader handles the lines of a readable file one by one: the
    records are the values of the lines that decode, in order; a blank line
    leaves no trace; a line that fails to decode adds one warning and no
    record, and the lines after it are still read.  A malformed line
    followed by two valid ones gives the two records and one warning. *)
Theorem read_json_file_line_by_line :
  (forall name lines w,
     read_json_file (name, File (Readable lines)) w =
     (Ok (omap decoded lines), add_log w (omap (warning_of name) lines))) /\
  (forall name before after w,
     read_json_file (name, File (Readable (before ++ Blank :: after))) w =
     read_json_file (name, File (Readable (before ++ after))) w) /\
  (forall name before after w,
     read_json_file (name, File (Readable (before ++ Malformed :: after))) w =
     (Ok (omap decoded before ++ omap decoded after),
      add_log w (omap (warning_of name) before ++
                 (WARNING, ParseFailed name) :: omap (warning_of name) after))) /\
  (forall name r1 r2 w,
     read_json_file (name, File (Readable [Malformed; Json r1; Json r2])) w =
     (Ok [r1; r2], add_log w [(WARNING, ParseFailed name)])).
Proof.
  assert (Hread : forall name lines w,
    read_json_file (name, File (Readable lines)) w =
    (Ok (omap decoded lines), add_log w (omap (warning_of name) lines))).
  { intros. unfold read_json_file. apply read_lines_spec. }
  split; [|split; [|split]].
  - exact Hread.
  - intros. rewrite !Hread, !omap_app. reflexivity.
  - intros. rewrite Hread, !omap_app. reflexivity.
  - intros. rewrite Hread. reflexivity.
Qed.

(** ** Records *)

Lemma process_record_not_a_dict (boat_name : string) (record : value)
    (message_data : message_store) :
  (forall items, record <> VDict items) ->
  process_record boat_name record message_data = Raise AttributeError.
Proof.
  intros H. destruct record; try reflexivity. destruct (H items eq_refl).
Qed.

Lemma process_record_msg_not_a_dict (boat_name : string)
    (items : list (string * value)) (msg : value) (message_data : message_store) :
  Py.dict_get items "msg" = Some msg ->
  Py.truthy msg = true ->
  (forall wrapper, msg <> VDict wrapper) ->
  process_record boat_name (VDict items) message_data = Raise AttributeError.
Proof.
  intros Hmsg Htrue Hshape. unfold process_record. rewrite Hmsg.
  cbn [default from_option id]. rewrite Htrue.
  destruct msg; try reflexivity. destruct (Hshape items0 eq_refl).
Qed.

Lemma fold_outcome_raise {A S : Type} (x : A) (rest : list A)
    (body : A -> S -> outcome S) (acc : S) (e : exn) :
  body x acc = Raise e -> fold_outcome (x :: rest) body acc = Raise e.
Proof. intros H. simpl. rewrite H. reflexivity. Qed.

(** C4, as the script has it. A record whose [msg] is missing or empty is
    dropped without a trace; a record that has a payload wrapper is
    processed whether or not it has a [ts] field (a missing one is the empty
    string), and whatever the number of keys of the wrapper (the first key
    is the message type). *)
Theorem record_without_payload_is_dropped :
  (forall boat_name items message_data,
     Py.truthy (default (VDict []) (Py.dict_get items "msg")) = false ->
     process_record boat_name (VDict items) message_data = Ok message_data) /\
  (forall boat_name items message_data,
     Py.dict_get items "ts" = None ->
     process_record boat_name (VDict items) message_data =
     process_record boat_name (VDict (("ts", VStr "") :: items)) message_data) /\
  (forall boat_name ts k v others message_data,
     process_record boat_name
       (VDict [("ts", ts); ("msg", VDict ((k, v) :: others))]) message_data =
     process_record boat_name
       (VDict [("ts", ts); ("msg", VDict [(k, v)])]) message_data).
Proof.
  split; [|split].
  - intros boat_name items message_data H. unfold process_record.
    rewrite H. reflexivity.
  - intros boat_name items message_data H. unfold process_record.
    cbn [Py.dict_get String.eqb Ascii.eqb Bool.eqb]. rewrite H. reflexivity.
  - intros. unfold process_record.
    cbn [Py.dict_get String.eqb Ascii.eqb Bool.eqb default from_option id
         Py.truthy length Nat.eqb negb].
    rewrite !String.eqb_refl. reflexivity.
Qed.

(** ** A day directory without candidate files *)

Lemma filter_none {A : Type} (f : A -> bool) (l : list A) :
  Forall (fun x => f x = false) l -> List.filter f l = [].
Proof.
  induction 1 as [|x l Hx _ IH]; simpl.
  - reflexivity.
  - rewrite Hx. exact IH.
Qed.

Lemma process_boat_day_data_no_files (day_dir : directory) (output_dir : path)
    (boat_name : string) (w : world) :
  idle_day day_dir ->
  process_boat_day_data day_dir output_dir boat_name w =
  (Ok tt, add_log w [(WARNING, NoJsonFiles (dir_name day_dir))]).
Proof.
  intros Hidle.
  assert (Hjson : glob day_dir ".json" = []).
  { apply filter_none. eapply Forall_impl; [exact Hidle|]. intros e [H _]. exact H. }
  assert (Hjsonl : glob day_dir ".jsonl" = []).
  { apply filter_none. eapply Forall_impl; [exact Hidle|]. intros e [_ H]. exact H. }
  unfold process_boat_day_data, json_files. rewrite Hjson, Hjsonl. simpl.
  apply logger_emitted. reflexivity.
Qed.

(** C10. When no entry of the day directory ends with [.json] or [.jsonl],
    processing the day returns after one warning: no directory is created
    and no file is written. *)
Theorem no_json_files_leaves_output_untouched (day_dir : directory)
    (output_dir : path) (boat_name : string) (w : world) :
  Forall no_candidate (dir_entries day_dir) ->
  exists w',
    process_boat_day_data day_dir output_dir boat_name w = (Ok tt, w') /\
    files w' = files w /\
    dirs w' = dirs w /\
    log w' = log w ++ [(WARNING, NoJsonFiles (dir_name day_dir))].
Proof.
  intros Hidle. eexists. split.
  - apply process_boat_day_data_no_files. exact Hidle.
  - repeat split.
Qed.

(** ** Exit status *)

Lemma quiet_logger (lvl : level) (msg : message) : quiet (logger lvl msg).
Proof.
  intros w. unfold logger. destruct (emitted w lvl); eexists; repeat split.
Qed.

Lemma quiet_bind (m : io unit) (k : unit -> io unit) :
  quiet m -> (forall u, quiet (k u)) -> quiet (m ≫= k).
Proof.
  intros Hm Hk w. destruct (Hm w) as (w1 & E1 & F1 & D1).
  destruct (Hk tt w1) as (w2 & E2 & F2 & D2).
  exists w2. rewrite io_bind_eq, E1, E2. repeat split; congruence.
Qed.

Lemma quiet_for_each {A : Type} (xs : list A) (body : A -> unit -> io unit) :
  Forall (fun x => quiet (body x tt)) xs -> quiet (for_each xs body tt).
Proof.
  induction 1 as [|x xs Hx _ IH]; simpl.
  - intros w. exists w. repeat split.
  - apply quiet_bind; [exact Hx|]. intros []. exact IH.
Qed.

Lemma quiet_process_day (output_base_dir : path) (boat_name : string)
    (day_dir : directory) :
  idle_day day_dir -> quiet (process_day output_base_dir boat_name day_dir tt).
Proof.
  intros Hidle. unfold process_day.
  apply quiet_bind; [apply quiet_logger|]. intros _ w.
  rewrite process_boat_day_data_no_files by exact Hidle.
  eexists. repeat split.
Qed.

Lemma Forall_named (P : directory -> Prop) (name : string) (ds : list directory) :
  Forall P ds -> Forall P (named name ds).
Proof.
  unfold named. induction 1 as [|d ds Hd _ IH]; simpl.
  - constructor.
  - destruct (String.eqb (dir_name d) name); [constructor|]; assumption.
Qed.

Lemma quiet_process_boat (output_base_dir : path) (day_filter : option string)
    (boat_dir : directory) :
  idle_boat boat_dir -> quiet (process_boat output_base_dir day_filter boat_dir tt).
Proof.
  intros Hidle. unfold process_boat, idle_boat in *.
  apply quiet_bind; [apply quiet_logger|]. intros _.
  assert (Hdays : forall ds, Forall idle_day ds ->
    quiet (for_each ds (process_day output_base_dir (dir_name boat_dir)) tt)).
  { intros ds Hds. apply quiet_for_each.
    eapply Forall_impl; [exact Hds|]. intros d. apply quiet_process_day. }
  destruct (subdirs (dir_entries boat_dir)) as [|d ds] eqn:Hsub.
  - apply quiet_logger.
  - destruct (requested day_filter) as [day|].
    + pose proof (Forall_named idle_day day (d :: ds) Hidle) as Hnamed.
      destruct (named day (d :: ds)) as [|d' ds'].
      * apply quiet_logger.
      * apply quiet_bind; [apply quiet_logger|]. intros _. apply Hdays, Hnamed.
    + apply Hdays, Hidle.
Qed.

Lemma main_of_quiet_run (args : arguments) (w : world) :
  quiet (process_all_boats (raw_json_dir args) (output args) (boat_arg args)
           (day_arg args)) ->
  exists w', main args w = (0%Z, w') /\ files w' = files w /\ dirs w' = dirs w.
Proof.
  intros Hrun. unfold main.
  assert (Hall : quiet
    ((if verbose args then setLevel_DEBUG else mret tt);;
     logger INFO Starting;;
     logger INFO (OutputTo (output args));;
     process_all_boats (raw_json_dir args) (output args) (boat_arg args) (day_arg args);;
     logger INFO Complete)).
  { apply quiet_bind.
    { intros w0. destruct (verbose args); eexists; repeat split. }
    intros _. apply quiet_bind; [apply quiet_logger|].
    intros _. apply quiet_bind; [apply quiet_logger|].
    intros _. apply quiet_bind; [exact Hrun|].
    intros _. apply quiet_logger. }
  destruct (Hall w) as (w' & E & F & D). rewrite E. exists w'. repeat split; assumption.
Qed.

(** C3, as the script has it. The exit status is zero when the input root
    does not exist and when the boat filter matches none of the boat
    directories: the script logs an error, processes nothing and returns.
    It is zero as well when no day directory holds a candidate file.  In
    all three cases the output tree is left as it was. *)
Theorem main_exits_with_zero :
  (forall args w,
     raw_json_dir args = None ->
     exists w',
       main args w = (0%Z, w') /\ files w' = files w /\ dirs w' = dirs w /\
       In (ERROR, RootMissing) (log w')) /\
  (forall args w entries b,
     raw_json_dir args = Some (Dir entries) ->
     subdirs entries <> [] ->
     requested (boat_arg args) = Some b ->
     named b (subdirs entries) = [] ->
     exists w',
       main args w = (0%Z, w') /\ files w' = files w /\ dirs w' = dirs w /\
       In (ERROR, BoatNotFound b) (log w')) /\
  (forall args w entries,
     raw_json_dir args = Some (Dir entries) ->
     Forall idle_boat (subdirs entries) ->
     exists w',
       main args w = (0%Z, w') /\ files w' = files w /\ dirs w' = dirs w).
Proof.
  split; [|split].
  - intros args w Hroot. unfold main. rewrite Hroot.
    destruct (verbose args); eexists; (split; [reflexivity|]);
      cbn; repeat split; rewrite !in_app_iff; simpl; auto.
  - intros args w entries b Hroot Hsub Hreq Hnone. unfold main, process_all_boats.
    rewrite Hroot. destruct (subdirs entries) as [|d ds]; [congruence|].
    rewrite Hreq, Hnone.
    destruct (verbose args); eexists; (split; [reflexivity|]);
      cbn; repeat split; rewrite !in_app_iff; simpl; auto.
  - intros args w entries Hroot Hidle. apply main_of_quiet_run.
    rewrite Hroot. unfold process_all_boats.
    assert (Hboats : forall ds, Forall idle_boat ds ->
      quiet (for_each ds (process_boat (output args) (day_arg args)) tt)).
    { intros ds Hds. apply quiet_for_each.
      eapply Forall_impl; [exact Hds|]. intros d. apply quiet_process_boat. }
    destruct (subdirs entries) as [|d ds].
    + apply quiet_logger.
    + destruct (requested (boat_arg args)) as [b|].
      * pose proof (Forall_named idle_boat b (d :: ds) Hidle) as Hnamed.
        destruct (named b (d :: ds)) as [|d' ds'].
        -- apply quiet_logger.
        -- apply quiet_bind; [apply quiet_logger|]. intros _. apply Hboats, Hnamed.
      * apply quiet_bind; [apply quiet_logger|]. intros _. apply Hboats, Hidle.
Qed.

(** ** The sort *)

Lemma lt_is_spec (r : bool) (a b : value) :
  lt_is r a b = true <-> Py.lt a b = Ok r.
Proof.
  unfold lt_is. destruct (Py.lt a b) as [r'|e].
  - destruct r, r'; simpl; split; congruence.
  - split; discriminate.
Qed.

Section SortTheory.

(** A class [C] of keys on which [<] never raises and is a strict weak
    order, given by the boolean function [ltb]. *)
Variable C : value -> Prop.
Variable ltb : value -> value -> bool.
Hypothesis lt_ltb : forall a b, C a -> C b -> Py.lt a b = Ok (ltb a b).
Hypothesis ltb_asym : forall a b, C a -> C b -> ltb a b = true -> ltb b a = false.
Hypothesis ltb_trans : forall a b c, C a -> C b -> C c ->
  ltb b a = false -> ltb c b = false -> ltb c a = false.

(** A property of points that no two points hold of which one has the
    smaller key: the order among the points that have it is kept. *)
Definition separated (f : point -> bool) : Prop :=
  forall p q, C (timestamp p) -> C (timestamp q) ->
    ltb (timestamp p) (timestamp q) = true -> f p = true -> f q = false.

Lemma not_after_trans (x y : point) (l : list point) :
  C (timestamp x) -> C (timestamp y) ->
  Forall (fun p => C (timestamp p)) l ->
  not_after x y -> Forall (not_after y) l -> Forall (not_after x) l.
Proof.
  intros Cx Cy HC Hxy. unfold not_after in *.
  rewrite lt_ltb in Hxy by assumption.
  induction HC as [|z l Cz _ IH]; intros Hl; inversion Hl as [|? ? Hyz Hrest]; subst.
  - constructor.
  - constructor; [|apply IH, Hrest].
    rewrite lt_ltb in * by assumption.
    f_equal. apply (ltb_trans _ (timestamp y)); try assumption; congruence.
Qed.

Lemma insert_point_spec (x : point) (sorted : list point) :
  C (timestamp x) ->
  Forall (fun p => C (timestamp p)) sorted ->
  exists r,
    insert_point x sorted = Ok r /\
    Permutation r (x :: sorted) /\
    (StronglySorted not_after sorted -> StronglySorted not_after r) /\
    (forall f, separated f -> List.filter f r = List.filter f (x :: sorted)).
Proof.
  intros Cx HC. induction HC as [|y rest Cy HC IH].
  - exists [x]. repeat split; auto. intros _. repeat constructor.
  - cbn [insert_point]. rewrite lt_ltb by assumption. cbn [mbind outcome_bind].
    destruct (ltb (timestamp y) (timestamp x)) eqn:Hyx.
    + destruct IH as (r & Hins & Hperm & Hsorted & Hstable).
      exists (y :: r). rewrite Hins. cbn [mbind outcome_bind].
      split; [reflexivity|]. split; [|split].
      * rewrite Hperm. apply perm_swap.
      * intros Hss. inversion Hss as [|? ? Hrest Hall]; subst.
        constructor; [apply Hsorted, Hrest|].
        eapply Permutation_Forall; [symmetry; exact Hperm|].
        constructor; [|exact Hall].
        unfold not_after. rewrite lt_ltb by assumption.
        f_equal. apply ltb_asym; assumption.
      * intros f Hf. cbn [List.filter]. rewrite (Hstable f Hf).
        cbn [List.filter].
        destruct (f y) eqn:Hy; [|reflexivity].
        rewrite (Hf y x Cy Cx Hyx Hy). reflexivity.
    + exists (x :: y :: rest). repeat split; auto.
      intros Hss. inversion Hss as [|? ? Hrest Hall]; subst.
      assert (Hxy : not_after x y).
      { unfold not_after. rewrite lt_ltb by assumption. congruence. }
      constructor; [exact Hss|].
      constructor; [exact Hxy|].
      eapply not_after_trans; eassumption.
Qed.

Lemma sort_spec (data_points : list point) :
  Forall (fun p => C (timestamp p)) data_points ->
  exists sorted,
    sort data_points = Ok sorted /\
    Permutation sorted data_points /\
    StronglySorted not_after sorted /\
    (forall f, separated f -> List.filter f sorted = List.filter f data_points).
Proof.
  induction 1 as [|x rest Cx HC IH].
  - exists []. repeat split; auto. constructor.
  - destruct IH as (s & Hsort & Hperm & Hss & Hstable).
    assert (HCs : Forall (fun p => C (timestamp p)) s).
    { eapply Permutation_Forall; [symmetry; exact Hperm|exact HC]. }
    destruct (insert_point_spec x s Cx HCs) as (r & Hins & Hperm' & Hss' & Hstable').
    exists r. cbn [sort]. rewrite Hsort. cbn [mbind outcome_bind].
    split; [exact Hins|]. split; [|split].
    + rewrite Hperm', Hperm. reflexivity.
    + apply Hss', Hss.
    + intros f Hf. rewrite (Hstable' f Hf). cbn [List.filter].
      rewrite (Hstable f Hf). reflexivity.
Qed.

(** Being tied with a key of the class is such a property. *)
Lemma tied_separated (k : value) :
  C k -> separated (fun p => tied k (timestamp p)).
Proof.
  intros Ck p q Cp Cq Hpq Hp.
  destruct (tied k (timestamp q)) eqn:Hq; [|reflexivity]. exfalso.
  unfold tied in Hp, Hq.
  apply andb_prop in Hp. destruct Hp as [_ Hpk].
  apply andb_prop in Hq. destruct Hq as [Hkq _].
  apply lt_is_spec in Hpk, Hkq.
  rewrite lt_ltb in Hpk, Hkq by assumption.
  assert (ltb (timestamp p) (timestamp q) = false).
  { apply (ltb_trans _ k); try assumption; congruence. }
  congruence.
Qed.

(** The keys of the class pass the test [ordered_by_lt]. *)
Lemma ordered_by_lt_class (keys : list value) :
  Forall C keys -> ordered_by_lt keys = true.
Proof.
  intros HC. rewrite List.Forall_forall in HC.
  unfold ordered_by_lt. apply andb_true_intro. split.
  - apply forallb_forall. intros a Ha. apply forallb_forall. intros b Hb.
    unfold lt_is. rewrite !lt_ltb by auto.
    destruct (ltb a b) eqn:Hab; [|reflexivity].
    rewrite (ltb_asym a b) by auto. reflexivity.
  - apply forallb_forall. intros a Ha. apply forallb_forall. intros b Hb.
    apply forallb_forall. intros c Hc.
    unfold lt_is. rewrite !lt_ltb by auto.
    destruct (ltb b a) eqn:Hba; [reflexivity|].
    destruct (ltb c b) eqn:Hcb; [reflexivity|].
    rewrite (ltb_trans a b c) by auto. reflexivity.
Qed.

End SortTheory.

(** Keys that [ordered_by_lt] accepts. *)

Lemma ordered_by_lt_spec (keys : list value) :
  ordered_by_lt keys = true ->
  (forall a b, In a keys -> In b keys -> Py.lt a b = Ok (lt_is true a b)) /\
  (forall a b, In a keys -> In b keys ->
     lt_is true a b = true -> lt_is true b a = false) /\
  (forall a b c, In a keys -> In b keys -> In c keys ->
     lt_is true b a = false -> lt_is true c b = false -> lt_is true c a = false).
Proof.
  unfold ordered_by_lt. intros H. apply andb_prop in H. destruct H as [H1 H2].
  assert (Htotal : forall a b, In a keys -> In b keys ->
    Py.lt a b = Ok false \/ (Py.lt a b = Ok true /\ Py.lt b a = Ok false)).
  { intros a b Ha Hb.
    rewrite forallb_forall in H1. specialize (H1 a Ha).
    rewrite forallb_forall in H1. specialize (H1 b Hb).
    apply orb_prop in H1. destruct H1 as [H1|H1].
    - left. apply lt_is_spec, H1.
    - right. apply andb_prop in H1. destruct H1 as [Hab Hba].
      split; apply lt_is_spec; assumption. }
  assert (Hlt : forall a b, In a keys -> In b keys -> Py.lt a b = Ok (lt_is true a b)).
  { intros a b Ha Hb. unfold lt_is.
    destruct (Htotal a b Ha Hb) as [E|[E _]]; rewrite E; reflexivity. }
  split; [exact Hlt|]. split.
  - intros a b Ha Hb Hab. apply lt_is_spec in Hab.
    destruct (Htotal a b Ha Hb) as [E|[_ E]]; [congruence|].
    unfold lt_is. rewrite E. reflexivity.
  - intros a b c Ha Hb Hc Hba Hcb.
    rewrite forallb_forall in H2. specialize (H2 a Ha).
    rewrite forallb_forall in H2. specialize (H2 b Hb).
    rewrite forallb_forall in H2. specialize (H2 c Hc).
    assert (Eba : lt_is false b a = true).
    { apply lt_is_spec. rewrite (Hlt b a Hb Ha), Hba. reflexivity. }
    assert (Ecb : lt_is false c b = true).
    { apply lt_is_spec. rewrite (Hlt c b Hc Hb), Hcb. reflexivity. }
    rewrite Eba, Ecb in H2. simpl in H2. apply lt_is_spec in H2.
    unfold lt_is. rewrite H2. reflexivity.
Qed.

Lemma sort_ordered (data_points : list point) :
  ordered_by_lt (List.map timestamp data_points) = true ->
  exists sorted,
    sort data_points = Ok sorted /\
    Permutation sorted data_points /\
    StronglySorted not_after sorted /\
    (forall p, In p data_points ->
       tied_with (timestamp p) sorted = tied_with (timestamp p) data_points).
Proof.
  intros Hord. destruct (ordered_by_lt_spec _ Hord) as (Hlt & Hasym & Htrans).
  assert (Hkeys : Forall (fun p => In (timestamp p) (List.map timestamp data_points))
                    data_points).
  { apply List.Forall_forall. intros p Hp. apply in_map, Hp. }
  destruct (sort_spec (fun v => In v (List.map timestamp data_points))
              (lt_is true) Hlt Hasym Htrans data_points Hkeys)
    as (sorted & Hsort & Hperm & Hss & Hstable).
  exists sorted. repeat split; try assumption.
  intros p Hp. apply Hstable.
  apply (tied_separated _ _ Hlt Htrans). apply in_map, Hp.
Qed.

(** Strings. *)

Lemma string_ltb_irrefl (s : string) : String.ltb s s = false.
Proof.
  unfold String.ltb.
  replace (String.compare s s) with Eq; [reflexivity|].
  symmetry. apply String_as_OT.cmp_eq. reflexivity.
Qed.

Lemma string_ltb_asym (s t : string) :
  String.ltb s t = true -> String.ltb t s = false.
Proof.
  unfold String.ltb. rewrite (String.compare_antisym t s).
  destruct (String.compare s t); simpl; congruence.
Qed.

Lemma string_ltb_trans (a b c : string) :
  String.ltb b a = false -> String.ltb c b = false -> String.ltb c a = false.
Proof.
  intros Hba Hcb. destruct (String.ltb c a) eqn:Hca; [|reflexivity].
  exfalso. unfold String.ltb in *.
  destruct (String.compare c a) eqn:Eca; try discriminate.
  apply String_as_OT.cmp_lt in Eca.
  destruct (String.compare b a) eqn:Eba; try discriminate.
  - apply String_as_OT.cmp_eq in Eba. subst b.
    apply String_as_OT.cmp_lt in Eca. unfold String_as_OT.cmp in Eca.
    rewrite Eca in Hcb. discriminate.
  - assert (Eab : String.compare a b = Lt).
    { rewrite String.compare_antisym, Eba. reflexivity. }
    apply String_as_OT.cmp_lt in Eab.
    pose proof (String_as_OT.lt_trans _ _ _ Eca Eab) as Hlt.
    apply String_as_OT.cmp_lt in Hlt. unfold String_as_OT.cmp in Hlt.
    rewrite Hlt in Hcb. discriminate.
Qed.

Lemma sort_strings (data_points : list point) :
  Forall (fun p => is_str (timestamp p) = true) data_points ->
  exists sorted,
    sort data_points = Ok sorted /\
    Permutation sorted data_points /\
    StronglySorted not_after sorted /\
    (forall k, at_time k sorted = at_time k data_points).
Proof.
  intros Hall.
  destruct (sort_spec (fun v => is_str v = true) str_ltb) with (data_points := data_points)
    as (sorted & Hsort & Hperm & Hss & Hstable); try assumption.
  - intros [] []; simpl; try discriminate. reflexivity.
  - intros [] []; simpl; try discriminate. intros _ _. apply string_ltb_asym.
  - intros [] [] []; simpl; try discriminate. intros _ _ _. apply string_ltb_trans.
  - exists sorted. repeat split; try assumption.
    intros k. apply Hstable. intros p q Hp Hq Hlt Hk.
    destruct (timestamp p), (timestamp q); simpl in *; try discriminate.
    destruct k; simpl in *; try discriminate.
    apply String.eqb_eq in Hk. subst.
    destruct (String.eqb_spec s0 s1); [|reflexivity].
    subst. rewrite string_ltb_irrefl in Hlt. discriminate.
Qed.

Lemma strings_ordered_by_lt (keys : list value) :
  Forall (fun v => is_str v = true) keys -> ordered_by_lt keys = true.
Proof.
  apply (ordered_by_lt_class (fun v => is_str v = true) str_ltb).
  - intros [] []; simpl; try discriminate. reflexivity.
  - intros [] []; simpl; try discriminate. intros _ _. apply string_ltb_asym.
  - intros [] [] []; simpl; try discriminate. intros _ _ _. apply string_ltb_trans.
Qed.

(** Integers. *)

Lemma int_eq_float_inj (m n : Z) (f : float) :
  Py.int_eq_float m f = true -> Py.int_eq_float n f = true -> m = n.
Proof.
  unfold Py.int_eq_float. destruct (Prim2SF f) as [| | |s mant e]; try discriminate.
  - lia.
  - destruct (0 <=? e)%Z eqn:He.
    + lia.
    + intros Hm Hn. apply Z.eqb_eq in Hm, Hn.
      assert (Hpos : (0 < 2 ^ (- e))%Z) by (apply Z.pow_pos_nonneg; lia).
      nia.
Qed.

Lemma sort_integers (data_points : list point) :
  Forall (fun p => is_int (timestamp p) = true) data_points ->
  exists sorted,
    sort data_points = Ok sorted /\
    Permutation sorted data_points /\
    StronglySorted not_after sorted /\
    (forall k, at_time k sorted = at_time k data_points).
Proof.
  intros Hall.
  destruct (sort_spec (fun v => is_int v = true) int_ltb) with (data_points := data_points)
    as (sorted & Hsort & Hperm & Hss & Hstable); try assumption.
  - intros [] []; simpl; try discriminate. reflexivity.
  - intros [] []; simpl; try discriminate. lia.
  - intros [] [] []; simpl; try discriminate. lia.
  - exists sorted. repeat split; try assumption.
    intros k. apply Hstable. intros p q Hp Hq Hlt Hk.
    destruct (timestamp p), (timestamp q); simpl in *; try discriminate.
    destruct k; simpl in *; try discriminate.
    + destruct b; lia.
    + lia.
    + destruct (Py.int_eq_float n0 f) eqn:Hn0; [|reflexivity].
      pose proof (int_eq_float_inj _ _ _ Hk Hn0). lia.
Qed.

Lemma forallb_Forall {A : Type} (f : A -> bool) (l : list A) :
  forallb f l = true -> Forall (fun x => f x = true) l.
Proof.
  induction l as [|x l IH]; simpl; intros H.
  - constructor.
  - apply andb_prop in H. destruct H as [Hx Hl]. constructor; auto.
Qed.

Lemma integers_ordered_by_lt (keys : list value) :
  Forall (fun v => is_int v = true) keys -> ordered_by_lt keys = true.
Proof.
  apply (ordered_by_lt_class (fun v => is_int v = true) int_ltb).
  - intros [] []; simpl; try discriminate. reflexivity.
  - intros [] []; simpl; try discriminate. lia.
  - intros [] [] []; simpl; try discriminate. lia.
Qed.

(** A series whose timestamps are all strings, or all integers, is ordered
    by [<]; sorted, its points of one timestamp keep their order. *)
Lemma uniform_ordered_by_lt (data_points : list point) :
  uniform_timestamps data_points = true ->
  ordered_by_lt (List.map timestamp data_points) = true.
Proof.
  unfold uniform_timestamps. intros H. apply orb_prop in H.
  destruct H as [H|H]; apply forallb_Forall in H.
  - apply strings_ordered_by_lt. apply Forall_map. exact H.
  - apply integers_ordered_by_lt. apply Forall_map. exact H.
Qed.

Lemma sort_uniform (data_points sorted : list point) :
  uniform_timestamps data_points = true ->
  sort data_points = Ok sorted ->
  forall k, at_time k sorted = at_time k data_points.
Proof.
  unfold uniform_timestamps. intros H Hsort. apply orb_prop in H.
  destruct H as [H|H]; apply forallb_Forall in H.
  - destruct (sort_strings data_points H) as (s' & E & _ & _ & Hstable).
    rewrite Hsort in E. injection E as <-. exact Hstable.
  - destruct (sort_integers data_points H) as (s' & E & _ & _ & Hstable).
    rewrite Hsort in E. injection E as <-. exact Hstable.
Qed.

(** A series that holds both string and integer timestamps cannot be
    sorted: whatever the order of the points, a string meets an integer. *)

Lemma insert_point_other_kind (x y : point) (rest : list point) :
  is_str (timestamp x) = negb (is_str (timestamp y)) ->
  is_int (timestamp x) = negb (is_int (timestamp y)) ->
  is_str (timestamp x) || is_int (timestamp x) = true ->
  insert_point x (y :: rest) = Raise TypeError.
Proof.
  cbn [insert_point].
  destruct (timestamp x), (timestamp y); simpl; try discriminate; reflexivity.
Qed.

Lemma sort_mixed_raises (data_points : list point) :
  Forall (fun p => is_str (timestamp p) || is_int (timestamp p) = true) data_points ->
  uniform_timestamps data_points = false ->
  sort data_points = Raise TypeError.
Proof.
  induction 1 as [|x rest Hx Hrest IH]; [discriminate|].
  intros Hmixed. cbn [sort].
  destruct (uniform_timestamps rest) eqn:Huni.
  - assert (Hsorted : exists y sorted,
      sort rest = Ok (y :: sorted) /\
      is_str (timestamp x) = negb (is_str (timestamp y)) /\
      is_int (timestamp x) = negb (is_int (timestamp y))).
    { unfold uniform_timestamps in *. cbn [forallb] in Hmixed.
      apply orb_false_elim in Hmixed. destruct Hmixed as [Hs Hi].
      apply orb_prop in Huni. destruct Huni as [Hall|Hall].
      - destruct (sort_strings rest (forallb_Forall _ _ Hall)) as (l & E & P & _).
        destruct l as [|y l].
        + apply Permutation_nil in P. subst rest. cbn [forallb] in *.
          rewrite !andb_true_r in *. rewrite Hs, Hi in Hx. discriminate.
        + exists y, l. split; [exact E|].
          assert (Hy : is_str (timestamp y) = true).
          { apply forallb_Forall in Hall.
            eapply Permutation_Forall in Hall; [|symmetry; exact P].
            inversion Hall; assumption. }
          rewrite Hall, andb_true_r in Hs. rewrite Hs, Hy.
          split; [reflexivity|]. rewrite Hs in Hx. simpl in Hx. rewrite Hx.
          destruct (timestamp y); try discriminate. reflexivity.
      - destruct (sort_integers rest (forallb_Forall _ _ Hall)) as (l & E & P & _).
        destruct l as [|y l].
        + apply Permutation_nil in P. subst rest. cbn [forallb] in *.
          rewrite !andb_true_r in *. rewrite Hs, Hi in Hx. discriminate.
        + exists y, l. split; [exact E|].
          assert (Hy : is_int (timestamp y) = true).
          { apply forallb_Forall in Hall.
            eapply Permutation_Forall in Hall; [|symmetry; exact P].
            inversion Hall; assumption. }
          rewrite Hall, andb_true_r in Hi. rewrite Hi, Hy.
          split; [|reflexivity]. rewrite Hi, orb_false_r in Hx. rewrite Hx.
          destruct (timestamp y); try discriminate. reflexivity. }
    destruct Hsorted as (y & sorted & E & Hs & Hi). rewrite E.
    cbn [mbind outcome_bind]. apply insert_point_other_kind; assumption.
  - rewrite (IH eq_refl). reflexivity.
Qed.

(** A sorted series is left as it is. *)
Lemma sort_sorted (data_points : list point) :
  StronglySorted not_after data_points -> sort data_points = Ok data_points.
Proof.
  induction 1 as [|x rest _ IH Hall]; [reflexivity|].
  cbn [sort]. rewrite IH. cbn [mbind outcome_bind].
  destruct rest as [|y rest']; [reflexivity|].
  inversion Hall as [|? ? Hxy _]; subst. cbn [insert_point].
  unfold not_after in Hxy. rewrite Hxy. reflexivity.
Qed.

(** ** The exporter *)

Lemma write_after_insert (m : gmap path string) (p : path) (a text : string) :
  <[p := default EmptyString (<[p := a]> m !! p) +:+ text]> (<[p := a]> m) =
  <[p := a +:+ text]> m.
Proof. rewrite lookup_insert_eq. simpl. apply insert_insert_eq. Qed.

Lemma export_spec (output_dir : path) (config_key : string) (cfg : config)
    (data_points : list point) (w : world) :
  exists w',
    export output_dir (config_key, cfg) data_points w =
      (export_result data_points, w') /\
    dirs w' = dirs w /\
    files w' =
      match data_points with
      | [] => files w
      | _ :: _ => <[output_dir ++ [csv_name cfg] := export_content data_points]> (files w)
      end.
Proof.
  destruct data_points as [|p ps].
  - destruct (quiet_logger WARNING (NoData config_key) w) as (w' & E & F & D).
    exists w'. simpl. rewrite E. auto.
  - unfold export, export_result, export_content.
    io_step. io_step. rewrite write_after_insert. cbn [String.append].
    io_step. destruct (sort (p :: ps)) as [sorted|e]; cbn [mbind outcome_bind].
    + io_step. rewrite write_after_insert.
      rewrite logger_emitted by reflexivity.
      eexists. split; [reflexivity|]. split; reflexivity.
    + eexists. split; [reflexivity|]. split; reflexivity.
Qed.

(** C1, as the script has it. For a series that is not empty and on whose
    timestamps [<] raises no error and is a strict weak order (as it is when
    they are all strings, or all integers), the file written is the header
    row [boat,value,timestamp] followed by one row per data point: the rows
    are those of a permutation of the series that is sorted by timestamp,
    and the points tied with any one point (for strings and integers: the
    points of one timestamp) keep their order. *)
Theorem export_writes_sorted_rows (output_dir : path) (config_key : string)
    (cfg : config) (data_points : list point) (w : world) :
  data_points <> [] ->
  ordered_by_lt (List.map timestamp data_points) = true ->
  exists sorted w',
    export output_dir (config_key, cfg) data_points w = (Ok tt, w') /\
    files w' !! (output_dir ++ [csv_name cfg]) =
      Some ("boat,value,timestamp" +:+ CRLF +:+
            String.concat EmptyString (List.map row_of sorted)) /\
    Permutation sorted data_points /\
    StronglySorted not_after sorted /\
    (forall p, In p data_points ->
       tied_with (timestamp p) sorted = tied_with (timestamp p) data_points) /\
    (uniform_timestamps data_points = true ->
       forall k, at_time k sorted = at_time k data_points).
Proof.
  intros Hne Hord.
  destruct (sort_ordered data_points Hord) as (sorted & Hsort & Hperm & Hss & Hstable).
  destruct (export_spec output_dir config_key cfg data_points w) as (w' & E & _ & F).
  exists sorted, w'. destruct data_points as [|p ps]; [congruence|].
  split; [|split; [|split; [|split; [|split]]]]; try assumption.
  - rewrite E. unfold export_result. rewrite Hsort. reflexivity.
  - rewrite F, lookup_insert_eq. unfold export_content. rewrite Hsort. reflexivity.
  - intros Huni. apply sort_uniform; assumption.
Qed.

(** ** A day as a function of its directory *)

Lemma read_json_file_records (json_file : string * node) (w : world) :
  exists w',
    read_json_file json_file w = (Ok (records_of json_file), w') /\
    files w' = files w /\ dirs w' = dirs w.
Proof.
  destruct json_file as [name [[lines|lines]|entries]]; unfold read_json_file, records_of;
    cbn [snd].
  - rewrite read_lines_spec. eexists. repeat split.
  - io_step. rewrite read_lines_spec. io_step.
    rewrite logger_emitted by reflexivity. rewrite io_ret_eq. eexists. repeat split.
  - io_step. rewrite logger_emitted by reflexivity. rewrite io_ret_eq.
    eexists. repeat split.
Qed.

Lemma process_files_collect (boat_name : string) (json_files : list (string * node))
    (message_data : message_store) (w : world) :
  exists w',
    for_each json_files (process_file boat_name) message_data w =
      (collect boat_name json_files message_data, w') /\
    files w' = files w /\ dirs w' = dirs w.
Proof.
  revert message_data w. induction json_files as [|f rest IH]; intros md w.
  - exists w. repeat split.
  - cbn [for_each]. unfold collect. cbn [fold_outcome]. rewrite io_bind_eq.
    unfold process_file at 1. rewrite io_bind_eq.
    destruct (quiet_logger DEBUG (ProcessingFile (fst f)) w) as (w1 & E1 & F1 & D1).
    rewrite E1. rewrite io_bind_eq.
    destruct (read_json_file_records f w1) as (w2 & E2 & F2 & D2).
    rewrite E2. unfold lift.
    destruct (fold_outcome (records_of f) (process_record boat_name) md) as [md'|e];
      cbn [mbind outcome_bind].
    + destruct (IH md' w2) as (w3 & E3 & F3 & D3). exists w3.
      rewrite E3. repeat split; congruence.
    + exists w2. repeat split; congruence.
Qed.

Lemma export_all_written (output_dir : path) (message_data : message_store)
    (entries : list (string * config)) (w : world) :
  exists w',
    for_each entries (export_config output_dir message_data) tt w =
      (exports_result message_data entries, w') /\
    files w' = written output_dir message_data entries ∪ files w /\
    dirs w' = dirs w.
Proof.
  revert w. induction entries as [|[config_key cfg] rest IH]; intros w.
  - exists w. cbn [for_each exports_result written]. rewrite (left_id_L ∅ (∪)).
    repeat split.
  - cbn [for_each exports_result written fst snd]. rewrite io_bind_eq.
    unfold export_config at 1. cbn [fst].
    destruct (export_spec output_dir config_key cfg
                (default [] (message_data !! config_key)) w) as (w1 & E1 & D1 & F1).
    rewrite E1.
    assert (F1' : files w1 =
      match default [] (message_data !! config_key) with
      | [] => ∅
      | _ :: _ => {[ output_dir ++ [csv_name cfg] :=
                      export_content (default [] (message_data !! config_key)) ]}
      end ∪ files w).
    { rewrite F1. destruct (default [] (message_data !! config_key)).
      - rewrite (left_id_L ∅ (∪)). reflexivity.
      - apply insert_union_singleton_l. }
    destruct (export_result (default [] (message_data !! config_key))) as [[]|e];
      cbn [mbind outcome_bind].
    + destruct (IH w1) as (w2 & E2 & F2 & D2). exists w2. rewrite E2.
      split; [reflexivity|]. split; [|congruence].
      rewrite F2, F1', (assoc_L (∪)). reflexivity.
    + exists w1. repeat split; assumption.
Qed.

Lemma process_boat_day_data_spec (day_dir : directory) (output_dir : path)
    (boat_name : string) (w : world) :
  exists w',
    process_boat_day_data day_dir output_dir boat_name w =
      (day_result day_dir boat_name, w') /\
    files w' = day_files day_dir output_dir boat_name ∪ files w /\
    dirs w' = dirs w ∪ day_dirs day_dir output_dir boat_name.
Proof.
  unfold process_boat_day_data, day_result, day_files, day_dirs.
  destruct (json_files day_dir) as [|f fs].
  - destruct (quiet_logger WARNING (NoJsonFiles (dir_name day_dir)) w)
      as (w' & E & F & D).
    exists w'. rewrite E, F, D, (left_id_L ∅ (∪)), (right_id_L ∅ (∪)). repeat split.
  - rewrite io_bind_eq.
    destruct (quiet_logger INFO (ProcessingFiles (length (f :: fs)) (dir_name day_dir)) w)
      as (w1 & E1 & F1 & D1).
    rewrite E1, io_bind_eq.
    destruct (process_files_collect boat_name (f :: fs) no_data w1)
      as (w2 & E2 & F2 & D2).
    rewrite E2.
    destruct (collect boat_name (f :: fs) no_data) as [message_data|e];
      cbn [mbind outcome_bind].
    + io_step.
      match goal with
      | |- context [for_each MESSAGE_CONFIGS _ tt ?w3] =>
          destruct (export_all_written output_dir message_data MESSAGE_CONFIGS w3)
            as (w4 & E4 & F4 & D4)
      end.
      exists w4. rewrite E4. split; [reflexivity|].
      cbn [files dirs] in F4, D4. rewrite F4, D4, F2, F1, D2, D1. repeat split.
    + exists w2. rewrite (left_id_L ∅ (∪)), (right_id_L ∅ (∪)).
      repeat split; congruence.
Qed.

(** Processing a day again, on the same directory and into the same output
    directory, ends the same way and leaves every file and directory as the
    first run left it. *)
Lemma process_boat_day_data_twice (day_dir : directory) (output_dir : path)
    (boat_name : string) (w : world) :
  let (r1, w1) := process_boat_day_data day_dir output_dir boat_name w in
  let (r2, w2) := process_boat_day_data day_dir output_dir boat_name w1 in
  r2 = r1 /\ files w2 = files w1 /\ dirs w2 = dirs w1.
Proof.
  destruct (process_boat_day_data_spec day_dir output_dir boat_name w)
    as (w1 & E1 & F1 & D1).
  destruct (process_boat_day_data_spec day_dir output_dir boat_name w1)
    as (w2 & E2 & F2 & D2).
  rewrite E1, E2. split; [reflexivity|]. split.
  - rewrite F2, F1, (assoc_L (∪)), (idemp_L (∪)). reflexivity.
  - rewrite D2, D1, <- (assoc_L (∪)), (idemp_L (∪)). reflexivity.
Qed.

(** C8. Exporting a series twice to the same directory leaves, after the
    second run, exactly the files the first run left, byte for byte, and
    ends the same way: the file of the series is overwritten with the
    content it already had.  The same holds for a whole day processed twice
    from the same directory. *)
Theorem export_twice_same_bytes :
  (forall output_dir entry data_points w,
     let (r1, w1) := export output_dir entry data_points w in
     let (r2, w2) := export output_dir entry data_points w1 in
     r2 = r1 /\ files w2 = files w1 /\ dirs w2 = dirs w1 /\
     (data_points <> [] ->
      files w1 !! (output_dir ++ [csv_name (snd entry)]) =
        Some (export_content data_points) /\
      files w2 !! (output_dir ++ [csv_name (snd entry)]) =
        Some (export_content data_points))) /\
  (forall day_dir output_dir boat_name w,
     let (r1, w1) := process_boat_day_data day_dir output_dir boat_name w in
     let (r2, w2) := process_boat_day_data day_dir output_dir boat_name w1 in
     r2 = r1 /\ files w2 = files w1 /\ dirs w2 = dirs w1).
Proof.
  split.
  - intros output_dir [config_key cfg] data_points w.
    destruct (export_spec output_dir config_key cfg data_points w)
      as (w1 & E1 & D1 & F1).
    destruct (export_spec output_dir config_key cfg data_points w1)
      as (w2 & E2 & D2 & F2).
    rewrite E1, E2. split; [reflexivity|]. split; [|split; [exact D2|]].
    + rewrite F2, F1. destruct data_points; [reflexivity|]. apply insert_insert_eq.
    + intros Hne. rewrite F2, F1. destruct data_points; [congruence|].
      split; apply lookup_insert_eq.
  - intros. apply process_boat_day_data_twice.
Qed.

(** The end-to-end scenario: one file with a gear record (code 2) and a
    heading record (1.5708 rad) gives [current_gear.csv] with the value
    [Reverse] and [heading.csv] with a value close to 90 degrees, one row
    each, and no other file. *)
Example scenario_day_exported :
  process_boat_day_data scenario_day ["out"] "cr38" fresh =
  (Ok tt,
   {| files :=
        {[ ["out"; "current_gear.csv"] := header +:+ "cr38,Reverse,t1" +:+ CRLF;
           ["out"; "heading.csv"] :=
             header +:+ row_of (at_ts (VStr "t2") (VFloat (to_degrees 1.5708))) ]};
      dirs := {[ ["out"] ]};
      debug := false;
      log :=
        [ (INFO, ProcessingFiles 1 "2025-05-01");
          (WARNING, NoData "VolvoFuelLevel");
          (WARNING, NoData "EngineFuelEconomy");
          (WARNING, NoData "EngineHours");
          (WARNING, NoData "EngineTemperatures");
          (WARNING, NoData "PentaEngineStatus_oil_pressure");
          (WARNING, NoData "EngineSpeed");
          (WARNING, NoData "SeaState");
          (WARNING, NoData "Odometry");
          (INFO, Created ["out"; "current_gear.csv"] 1);
          (WARNING, NoData "VehicleCommand");
          (INFO, Created ["out"; "heading.csv"] 1);
          (WARNING, NoData "PentaEngineStatus_steering");
          (WARNING, NoData "Ahrs_roll");
          (WARNING, NoData "Ahrs_pitch");
          (WARNING, NoData "Ahrs_yaw") ] |}) /\
  to_degrees 1.5708 = 90.000210459143773%float.
Proof. split; vm_compute; reflexivity. Qed.

(** ** Paths of fields, composed *)

Lemma split_not_nil (sep : ascii) (s : string) : Py.split sep s <> [].
Proof.
  destruct s as [|c s]; cbn [Py.split]; [discriminate|].
  destruct (Ascii.eqb c sep); [discriminate|].
  destruct (Py.split sep s); discriminate.
Qed.

Lemma append_nil_l (s : string) : EmptyString +:+ s = s.
Proof. reflexivity. Qed.

Lemma append_cons (c : ascii) (a b : string) : String c a +:+ b = String c (a +:+ b).
Proof. reflexivity. Qed.

Lemma split_app (sep : ascii) (a b : string) :
  Py.split sep (a +:+ String sep b) = Py.split sep a ++ Py.split sep b.
Proof.
  induction a as [|c a IH]; rewrite ?append_nil_l, ?append_cons; cbn [Py.split].
  - rewrite Ascii.eqb_refl. reflexivity.
  - destruct (Ascii.eqb c sep).
    + rewrite IH. reflexivity.
    + rewrite IH. pose proof (split_not_nil sep a) as Hne.
      destruct (Py.split sep a) as [|w ws]; [congruence|]. reflexivity.
Qed.

Lemma walk_none (fields : list string) : walk fields VNone = VNone.
Proof. destruct fields; reflexivity. Qed.

Lemma walk_app (fields fields' : list string) (data : value) :
  walk (fields ++ fields') data = walk fields' (walk fields data).
Proof.
  revert data. induction fields as [|fld rest IH]; intros data; [reflexivity|].
  cbn [app walk]. destruct data; try (symmetry; apply walk_none).
  destruct (Py.dict_get items fld); [apply IH|symmetry; apply walk_none].
Qed.

(** X1. Looking up the path [outer.inner] is looking up [inner] in what the
    lookup of [outer] returns: a miss on the way, a null or a value that is
    not a mapping gives [None] at the end in both cases. *)
Theorem get_nested_value_composes (data : value) (outer inner : string) :
  get_nested_value data (outer +:+ "." +:+ inner) =
  get_nested_value (get_nested_value data outer) inner.
Proof.
  unfold get_nested_value. rewrite append_cons, append_nil_l.
  rewrite split_app. apply walk_app.
Qed.

(** ** Files that cannot be read to their end *)

(** X2. The reader never raises and writes nothing.  When the reading of a
    file fails after some lines, the records of these lines are returned,
    and the log gets their warnings followed by one error; an entry that is
    a directory gives no record and the one error. *)
Theorem read_json_file_keeps_what_was_read :
  (forall name lines w,
     read_json_file (name, File (Unreadable lines)) w =
     (Ok (omap decoded lines),
      add_log w (omap (warning_of name) lines ++ [(ERROR, ReadFailed name)]))) /\
  (forall name entries w,
     read_json_file (name, Dir entries) w =
     (Ok [], add_log w [(ERROR, ReadFailed name)])) /\
  (forall json_file w,
     exists records w',
       read_json_file json_file w = (Ok records, w') /\
       files w' = files w /\ dirs w' = dirs w).
Proof.
  split; [|split].
  - intros name lines w. unfold read_json_file.
    io_step. rewrite read_lines_spec. io_step.
    rewrite logger_emitted by reflexivity. rewrite io_ret_eq, add_log_app.
    reflexivity.
  - intros name entries w. unfold read_json_file.
    io_step. rewrite logger_emitted by reflexivity. reflexivity.
  - intros [name [[lines|lines]|entries]] w; unfold read_json_file.
    + rewrite read_lines_spec. eexists _, _. repeat split.
    + io_step. rewrite read_lines_spec. io_step.
      rewrite logger_emitted by reflexivity. rewrite io_ret_eq.
      eexists _, _. repeat split.
    + io_step. rewrite logger_emitted by reflexivity. rewrite io_ret_eq.
      eexists _, _. repeat split.
Qed.

(** ** The candidate files of a day *)

Lemma substring_skip (pre t : string) (n k : nat) :
  substring (String.length pre + n) k (pre +:+ t) = substring n k t.
Proof.
  induction pre as [|c pre IH]; [reflexivity|].
  rewrite append_cons. cbn [String.length Nat.add substring]. exact IH.
Qed.

Lemma string_length_app (a b : string) :
  String.length (a +:+ b) = String.length a + String.length b.
Proof.
  induction a as [|c a IH]; [reflexivity|].
  rewrite append_cons. cbn [String.length Nat.add]. rewrite IH. reflexivity.
Qed.

Lemma substring_split (s : string) (m : nat) :
  m <= String.length s ->
  s = substring 0 m s +:+ substring m (String.length s - m) s.
Proof.
  revert m. induction s as [|c s IH]; intros m Hm.
  - destruct m; [reflexivity|]. cbn in Hm. lia.
  - destruct m as [|m].
    + cbn [substring String.length Nat.sub]. rewrite append_nil_l.
      f_equal. clear. induction s as [|c s IH]; [reflexivity|].
      cbn. f_equal. exact IH.
    + cbn [substring String.length Nat.sub]. rewrite append_cons. f_equal.
      apply IH. cbn in Hm. lia.
Qed.

Lemma endswith_inv (s suffix : string) :
  Py.endswith s suffix = true -> exists pre, s = pre +:+ suffix.
Proof.
  unfold Py.endswith. intros H. apply andb_prop in H. destruct H as [Hle Heq].
  apply Nat.leb_le in Hle. apply String.eqb_eq in Heq.
  exists (substring 0 (String.length s - String.length suffix) s).
  pose proof (substring_split s (String.length s - String.length suffix)) as Hsplit.
  replace (String.length s - (String.length s - String.length suffix))
    with (String.length suffix) in Hsplit by lia.
  rewrite Heq in Hsplit. apply Hsplit. lia.
Qed.

Lemma endswith_app (pre t suffix : string) :
  String.length suffix <= String.length t ->
  Py.endswith (pre +:+ t) suffix = Py.endswith t suffix.
Proof.
  intros Hle. unfold Py.endswith. rewrite string_length_app.
  replace (String.length pre + String.length t - String.length suffix)
    with (String.length pre + (String.length t - String.length suffix)) by lia.
  rewrite substring_skip.
  replace (String.length suffix <=? String.length pre + String.length t)
    with true by (symmetry; apply Nat.leb_le; lia).
  replace (String.length suffix <=? String.length t)
    with true by (symmetry; apply Nat.leb_le; lia).
  reflexivity.
Qed.

Lemma json_is_not_jsonl (s : string) :
  Py.endswith s ".jsonl" = true -> Py.endswith s ".json" = false.
Proof.
  intros H. apply endswith_inv in H. destruct H as [pre ->].
  rewrite endswith_app by (cbn; lia). reflexivity.
Qed.

Lemma candidate_is_not_zst (s : string) :
  Py.endswith s ".json" || Py.endswith s ".jsonl" = true ->
  Py.endswith s ".zst" = false.
Proof.
  intros H. apply orb_prop in H.
  destruct H as [H|H]; apply endswith_inv in H; destruct H as [pre ->];
    rewrite endswith_app by (cbn; lia); reflexivity.
Qed.

Lemma filter_either {A : Type} (f g : A -> bool) (l : list A) :
  (forall x, g x = true -> f x = false) ->
  Permutation (List.filter f l ++ List.filter g l)
              (List.filter (fun x => f x || g x) l).
Proof.
  intros Hfg. induction l as [|x l IH]; [constructor|].
  cbn [List.filter]. destruct (f x) eqn:Hf; cbn [orb].
  - assert (Hg : g x = false).
    { destruct (g x) eqn:Hg; [|reflexivity]. rewrite (Hfg x Hg) in Hf. discriminate. }
    rewrite Hg. cbn [app]. constructor. exact IH.
  - destruct (g x); [|exact IH].
    rewrite <- Permutation_middle. constructor. exact IH.
Qed.

Lemma filter_all {A : Type} (f : A -> bool) (l : list A) :
  (forall x, In x l -> f x = true) -> List.filter f l = l.
Proof.
  induction l as [|x l IH]; intros H; [reflexivity|].
  cbn [List.filter]. rewrite (H x) by (left; reflexivity).
  f_equal. apply IH. intros y Hy. apply H. right. exact Hy.
Qed.

Lemma json_files_unfiltered (day_dir : directory) :
  json_files day_dir = glob day_dir ".json" ++ glob day_dir ".jsonl".
Proof.
  unfold json_files. apply filter_all. intros f Hf.
  apply in_app_or in Hf. unfold glob in Hf. rewrite !filter_In in Hf.
  rewrite candidate_is_not_zst; [reflexivity|].
  destruct Hf as [[_ Hf]|[_ Hf]]; rewrite Hf; [reflexivity|apply orb_true_r].
Qed.

(** X3. The files a day reads are the entries of the day directory whose
    name ends with [.json] or [.jsonl], each of them once: those of the
    first kind in the order of the directory, then those of the second.
    None of them has a name that ends with [.zst], so a file that is still
    compressed is never read, and the filter on [.zst] removes nothing. *)
Theorem compressed_files_are_never_read (day_dir : directory) :
  json_files day_dir = glob day_dir ".json" ++ glob day_dir ".jsonl" /\
  Permutation (json_files day_dir) (List.filter candidate (dir_entries day_dir)) /\
  (forall f, In f (json_files day_dir) ->
     In f (dir_entries day_dir) /\ Py.endswith (fst f) ".zst" = false).
Proof.
  split; [apply json_files_unfiltered|]. split.
  - rewrite json_files_unfiltered. unfold glob, candidate.
    apply filter_either. intros f. apply json_is_not_jsonl.
  - intros f Hf. rewrite json_files_unfiltered in Hf.
    apply in_app_or in Hf. unfold glob in Hf. rewrite !filter_In in Hf.
    split; [tauto|]. apply candidate_is_not_zst.
    destruct Hf as [[_ Hf]|[_ Hf]]; rewrite Hf; [reflexivity|apply orb_true_r].
Qed.

(** ** What a record adds to the collectors *)

Lemma extract_cases (boat_name msg_type : string) (ts payload : value)
    (config_key : string) (cfg : config) (md md' : message_store) :
  extract boat_name msg_type ts payload (config_key, cfg) md = Ok md' ->
  md' = md \/
  exists v,
    msg_type = default config_key (message_type cfg) /\
    transformed cfg (get_nested_value payload (field cfg)) = Ok v /\
    v <> VNone /\
    md' = <[config_key := default [] (md !! config_key) ++
              [ {| boat := boat_name; val := v; timestamp := ts |} ]]> md.
Proof.
  unfold extract, transformed.
  destruct (String.eqb msg_type (default config_key (message_type cfg))) eqn:Hmt;
    [|intros [= <-]; left; reflexivity].
  apply String.eqb_eq in Hmt.
  destruct (transform cfg) as [f|].
  - destruct (is_none (get_nested_value payload (field cfg))) eqn:Hnone.
    + cbn [mbind outcome_bind]. rewrite Hnone. intros [= <-]. left; reflexivity.
    + destruct (f (get_nested_value payload (field cfg))) as [v|e];
        cbn [mbind outcome_bind]; [|discriminate].
      destruct (is_none v) eqn:Hv; intros [= <-]; [left; reflexivity|].
      right. exists v. split; [exact Hmt|]. split; [reflexivity|].
      split; [|reflexivity]. intros ->. discriminate.
  - cbn [mbind outcome_bind].
    destruct (is_none (get_nested_value payload (field cfg))) eqn:Hnone;
      intros [= <-]; [left; reflexivity|].
    right. eexists. split; [exact Hmt|]. split; [reflexivity|].
    split; [|reflexivity]. intros Hv. rewrite Hv in Hnone. discriminate.
Qed.

Lemma extract_all_cases (boat_name msg_type : string) (ts payload : value)
    (cfgs : list (string * config)) (md md' : message_store) :
  NoDup (List.map fst cfgs) ->
  fold_outcome cfgs (extract boat_name msg_type ts payload) md = Ok md' ->
  forall config_key,
    default [] (md' !! config_key) = default [] (md !! config_key) \/
    exists cfg v,
      In (config_key, cfg) cfgs /\
      msg_type = default config_key (message_type cfg) /\
      transformed cfg (get_nested_value payload (field cfg)) = Ok v /\
      v <> VNone /\
      default [] (md' !! config_key) =
        default [] (md !! config_key) ++
        [ {| boat := boat_name; val := v; timestamp := ts |} ].
Proof.
  unfold message_store in *.
  revert md. induction cfgs as [|[k0 c0] rest IH]; intros md Hkeys Hfold key.
  - injection Hfold as <-. left; reflexivity.
  - cbn [List.map fst] in Hkeys. apply NoDup_cons in Hkeys.
    destruct Hkeys as [Hk0 Hrest].
    cbn [fold_outcome] in Hfold.
    destruct (extract boat_name msg_type ts payload (k0, c0) md) as [md1|e] eqn:Hstep;
      cbn [mbind outcome_bind] in Hfold; [|discriminate].
    specialize (IH md1 Hrest Hfold key).
    apply extract_cases in Hstep.
    destruct (decide (key = k0)) as [->|Hne].
    + assert (Hlater : default [] (md' !! k0) = default [] (md1 !! k0)).
      { destruct IH as [E|(cfg & v & Hin & _)]; [exact E|].
        exfalso. apply Hk0. apply list_elem_of_In.
        change k0 with (fst (k0, cfg)). apply in_map, Hin. }
      rewrite Hlater.
      destruct Hstep as [->|(v & Hmt & Hv & Hnone & ->)]; [left; reflexivity|].
      right. exists c0, v. unfold message_store in *. rewrite lookup_insert_eq.
      split; [left; reflexivity|]. repeat (split; [assumption|]). reflexivity.
    + assert (Hfirst : md1 !! key = md !! key).
      { destruct Hstep as [->|(v & _ & _ & _ & ->)]; [reflexivity|].
        unfold message_store in *. apply lookup_insert_ne. congruence. }
      rewrite <- Hfirst.
      destruct IH as [E|(cfg & v & Hin & Hmt & Hv & Hnone & E)]; [left; exact E|].
      right. exists cfg, v. split; [right; exact Hin|].
      repeat (split; [assumption|]). exact E.
Qed.

Lemma MESSAGE_CONFIGS_keys : NoDup (List.map fst MESSAGE_CONFIGS).
Proof. apply (bool_decide_unpack _). vm_compute. reflexivity. Qed.

Lemma dict_get_first (k : string) (v : value) (rest : list (string * value)) :
  Py.dict_get ((k, v) :: rest) k = Some v.
Proof. cbn [Py.dict_get]. rewrite String.eqb_refl. reflexivity. Qed.

(** What [process_record] does when it returns, in terms of the loop over
    the configurations. *)
Lemma process_record_cases (boat_name : string) (record : value)
    (md md' : message_store) :
  process_record boat_name record md = Ok md' ->
  md' = md \/
  exists items msg_type payload others,
    record = VDict items /\
    Py.dict_get items "msg" = Some (VDict ((msg_type, payload) :: others)) /\
    fold_outcome MESSAGE_CONFIGS
      (extract boat_name msg_type (default (VStr "") (Py.dict_get items "ts")) payload)
      md = Ok md'.
Proof.
  unfold process_record.
  destruct record as [| | | | | |items];
    [discriminate|discriminate|discriminate|discriminate|discriminate|discriminate|].
  destruct (Py.dict_get items "msg") as [msg_obj|] eqn:Hmsg;
    cbn [default from_option id];
    [|intros [= <-]; left; reflexivity].
  destruct (Py.truthy msg_obj) eqn:Htruthy; [|intros [= <-]; left; reflexivity].
  destruct msg_obj as [| | | | | |wrapper];
    [discriminate|discriminate|discriminate|discriminate|discriminate|discriminate|].
  destruct wrapper as [|[msg_type payload] others]; [discriminate Htruthy|].
  rewrite dict_get_first. cbn [default from_option id]. intros Hfold.
  right. exists items, msg_type, payload, others.
  split; [reflexivity|]. split; [exact Hmsg|]. exact Hfold.
Qed.


(** ** What the collectors hold *)

Lemma no_data_lookup (config_key : string) :
  default [] (no_data !! config_key) = [].
Proof.
  unfold no_data, message_store.
  generalize MESSAGE_CONFIGS as l.
  induction l as [|e l IH]; [reflexivity|].
  cbn [List.map list_to_map foldr]. destruct (decide (config_key = fst e)) as [->|Hne].
  - rewrite lookup_insert_eq. reflexivity.
  - rewrite lookup_insert_ne by (intros E; apply Hne; symmetry; exact E).
    exact IH.
Qed.

Lemma well_formed_no_data (boat_name : string) : well_formed boat_name no_data.
Proof. intros key p. rewrite no_data_lookup. intros []. Qed.

Lemma process_record_well_formed (boat_name : string) (record : value)
    (md md' : message_store) :
  well_formed boat_name md ->
  process_record boat_name record md = Ok md' ->
  well_formed boat_name md'.
Proof.
  intros Hmd Hrun key p Hp.
  destruct (process_record_cases _ _ _ _ Hrun)
    as [->|(items & msg_type & payload & others & _ & _ & Hfold)];
    [apply (Hmd key p Hp)|].
  destruct (extract_all_cases _ _ _ _ _ _ _ MESSAGE_CONFIGS_keys Hfold key)
    as [Hsame|(cfg & v & _ & _ & _ & Hnone & Hadd)].
  - rewrite Hsame in Hp. apply (Hmd key p Hp).
  - rewrite Hadd in Hp. apply in_app_or in Hp. destruct Hp as [Hp|[<-|[]]].
    + apply (Hmd key p Hp).
    + split; [exact Hnone|reflexivity].
Qed.

Lemma fold_outcome_invariant {A S : Type} (P : S -> Prop) (body : A -> S -> outcome S)
    (xs : list A) (acc acc' : S) :
  (forall x a a', P a -> body x a = Ok a' -> P a') ->
  P acc -> fold_outcome xs body acc = Ok acc' -> P acc'.
Proof.
  intros Hbody. revert acc. induction xs as [|x xs IH]; intros acc Hacc Hfold.
  - injection Hfold as <-. exact Hacc.
  - cbn [fold_outcome] in Hfold.
    destruct (body x acc) as [a|e] eqn:Hx; cbn [mbind outcome_bind] in Hfold;
      [|discriminate].
    apply (IH a); [|exact Hfold]. apply (Hbody x acc a Hacc Hx).
Qed.

(** X5. Whatever the files of a day hold, a data point that was collected
    has a value that is not [None], and carries the boat name the day was
    processed for. *)
Theorem collected_points_have_a_value (boat_name : string)
    (files_read : list (string * node)) (message_data : message_store) :
  collect boat_name files_read no_data = Ok message_data ->
  forall config_key p,
    In p (default [] (message_data !! config_key)) ->
    val p <> VNone /\ boat p = boat_name.
Proof.
  intros Hcollect. unfold collect in Hcollect.
  apply (fold_outcome_invariant (well_formed boat_name) _ _ _ _) in Hcollect;
    [exact Hcollect| |apply well_formed_no_data].
  intros f md md' Hmd Hfile.
  apply (fold_outcome_invariant (well_formed boat_name) _ _ _ _) in Hfile;
    [exact Hfile| |exact Hmd].
  intros record. apply process_record_well_formed.
Qed.

(** ** Timestamps that cannot be sorted *)

(** X6. A series whose timestamps are strings and integers, with at least
    one of each kind, is never exported: the sort raises [TypeError] after
    the file was opened and the header written, so the export leaves the
    header alone in the file and ends there. *)
Theorem mixed_timestamps_abort_the_export (output_dir : path)
    (entry : string * config) (data_points : list point) (w : world) :
  Forall (fun p => is_str (timestamp p) || is_int (timestamp p) = true) data_points ->
  uniform_timestamps data_points = false ->
  exists w',
    export output_dir entry data_points w = (Raise TypeError, w') /\
    files w' = <[output_dir ++ [csv_name (snd entry)] := header]> (files w) /\
    dirs w' = dirs w.
Proof.
  intros Hkinds Hmixed. destruct entry as [config_key cfg].
  pose proof (sort_mixed_raises data_points Hkinds Hmixed) as Hsort.
  destruct (export_spec output_dir config_key cfg data_points w) as (w' & E & D & F).
  exists w'. destruct data_points as [|p ps]; [discriminate|].
  unfold export_result, export_content in *. rewrite Hsort in *.
  split; [exact E|]. split; [exact F|exact D].
Qed.

(** ** The order in which the points were met *)

Lemma tied_sym (a b : value) : tied a b = tied b a.
Proof. unfold tied. apply andb_comm. Qed.

Lemma untied_spec (ps : list point) :
  untied (List.map timestamp ps) = true ->
  forall p q, In p ps -> In q ps ->
    tied (timestamp p) (timestamp q) = true -> p = q.
Proof.
  induction ps as [|x rest IH]; [intros _ p q []|].
  cbn [List.map untied]. intros H. apply andb_prop in H. destruct H as [Hx Hrest].
  rewrite forallb_forall in Hx.
  intros p q [<-|Hp] [<-|Hq] Htied.
  - reflexivity.
  - rewrite (proj1 (negb_true_iff _) (Hx _ (in_map timestamp _ _ Hq))) in Htied.
    discriminate.
  - rewrite tied_sym in Htied.
    rewrite (proj1 (negb_true_iff _) (Hx _ (in_map timestamp _ _ Hp))) in Htied.
    discriminate.
  - apply (IH Hrest p q Hp Hq Htied).
Qed.

Lemma sorted_unique (l1 l2 : list point) :
  StronglySorted not_after l1 -> StronglySorted not_after l2 ->
  Permutation l1 l2 ->
  (forall p q, In p l1 -> In q l1 -> not_after p q -> not_after q p -> p = q) ->
  l1 = l2.
Proof.
  revert l2. induction l1 as [|x t1 IH]; intros l2 H1 H2 Hperm Hanti.
  - apply Permutation_nil in Hperm. congruence.
  - destruct l2 as [|y t2];
      [apply Permutation_sym, Permutation_nil in Hperm; discriminate|].
    inversion H1 as [|? ? Hs1 Hall1]; subst.
    inversion H2 as [|? ? Hs2 Hall2]; subst.
    assert (Hxy : x = y).
    { assert (Hx : In x (y :: t2)).
      { eapply Permutation_in; [exact Hperm|left; reflexivity]. }
      assert (Hy : In y (x :: t1)).
      { eapply Permutation_in; [symmetry; exact Hperm|left; reflexivity]. }
      destruct Hx as [Hx|Hx]; [congruence|].
      destruct Hy as [Hy|Hy]; [congruence|].
      rewrite List.Forall_forall in Hall1, Hall2.
      apply Hanti; [left; reflexivity|right; exact Hy|apply Hall1, Hy|apply Hall2, Hx]. }
    subst y. f_equal. apply IH; try assumption.
    + eapply Permutation_cons_inv. exact Hperm.
    + intros p q Hp Hq. apply Hanti; right; assumption.
Qed.

(** X7. Where [<] orders the timestamps of a series and no two of them are
    tied, the rows of the file do not depend on the order in which the
    points were collected: every arrangement of the points is sorted to the
    same list, and exported with the same content. *)
Theorem export_does_not_depend_on_the_order_met (data_points data_points' : list point) :
  ordered_by_lt (List.map timestamp data_points) = true ->
  untied (List.map timestamp data_points) = true ->
  Permutation data_points data_points' ->
  exists sorted,
    sort data_points = Ok sorted /\
    sort data_points' = Ok sorted /\
    export_content data_points' = export_content data_points.
Proof.
  intros Hord Huntied Hperm.
  destruct (ordered_by_lt_spec _ Hord) as (Hlt & Hasym & Htrans).
  assert (Hkeys : Forall (fun p => In (timestamp p) (List.map timestamp data_points))
                    data_points).
  { apply List.Forall_forall. intros p Hp. apply in_map, Hp. }
  assert (Hkeys' : Forall (fun p => In (timestamp p) (List.map timestamp data_points))
                     data_points').
  { eapply Permutation_Forall; [exact Hperm|exact Hkeys]. }
  destruct (sort_spec (fun v => In v (List.map timestamp data_points))
              (lt_is true) Hlt Hasym Htrans data_points Hkeys)
    as (s & Hsort & Hp & Hss & _).
  destruct (sort_spec (fun v => In v (List.map timestamp data_points))
              (lt_is true) Hlt Hasym Htrans data_points' Hkeys')
    as (s' & Hsort' & Hp' & Hss' & _).
  assert (Hsame : s = s').
  { apply sorted_unique; try assumption.
    - rewrite Hp, Hp'. exact Hperm.
    - intros p q Hin Hin' Hpq Hqp.
      apply (untied_spec data_points Huntied).
      + eapply Permutation_in; [exact Hp|exact Hin].
      + eapply Permutation_in; [exact Hp|exact Hin'].
      + unfold tied. apply andb_true_intro.
        split; apply lt_is_spec; assumption. }
  subst s'. exists s. split; [exact Hsort|]. split; [exact Hsort'|].
  unfold export_content. rewrite Hsort, Hsort'. reflexivity.
Qed.

(** ** The files of a day *)

Lemma written_keys (output_dir : path) (md : message_store)
    (entries : list (string * config)) (p : path) :
  is_Some (written output_dir md entries !! p) ->
  exists e, In e entries /\ p = output_dir ++ [csv_name (snd e)].
Proof.
  induction entries as [|e rest IH]; cbn [written].
  - rewrite lookup_empty. intros [x Hx]. discriminate.
  - intros Hsome.
    assert (Hcases : is_Some (written output_dir md rest !! p) \/
                     p = output_dir ++ [csv_name (snd e)]).
    { destruct (default [] (md !! fst e)) as [|q qs];
        destruct (export_result _);
        rewrite ?lookup_union_is_Some, ?lookup_empty in Hsome.
      - destruct Hsome as [H|[x Hx]]; [left; exact H|discriminate].
      - destruct Hsome as [x Hx]. discriminate.
      - destruct Hsome as [H|[x Hx]]; [left; exact H|].
        apply lookup_singleton_Some in Hx. right. symmetry. apply Hx.
      - destruct Hsome as [x Hx].
        apply lookup_singleton_Some in Hx. right. symmetry. apply Hx. }
    destruct Hcases as [H|H].
    + destruct (IH H) as (e' & Hin & E). exists e'. split; [right; exact Hin|exact E].
    + exists e. split; [left; reflexivity|exact H].
Qed.

Lemma written_lookup (output_dir : path) (md : message_store)
    (entries : list (string * config)) (config_key : string) (cfg : config) :
  NoDup (List.map (fun e => csv_name (snd e)) entries) ->
  exports_result md entries = Ok tt ->
  In (config_key, cfg) entries ->
  written output_dir md entries !! (output_dir ++ [csv_name cfg]) =
    match default [] (md !! config_key) with
    | [] => None
    | p :: ps => Some (export_content (p :: ps))
    end.
Proof.
  induction entries as [|e rest IH]; intros Hnames Hok Hin; [destruct Hin|].
  cbn [List.map] in Hnames. apply NoDup_cons in Hnames.
  destruct Hnames as [Hname Hnames].
  cbn [exports_result written] in *.
  destruct (export_result (default [] (md !! fst e))) as [[]|err];
    cbn [mbind outcome_bind] in Hok; [|discriminate].
  destruct Hin as [->|Hin].
  - cbn [fst snd].
    rewrite lookup_union_r.
    + destruct (default [] (md !! config_key)) as [|q qs];
        [apply lookup_empty|apply lookup_singleton_eq].
    + destruct (written output_dir md rest !! (output_dir ++ [csv_name cfg]))
        as [c|] eqn:Hc; [|reflexivity].
      exfalso. destruct (written_keys output_dir md rest _ (mk_is_Some _ _ Hc))
        as (e' & Hin' & E).
      apply app_inv_head in E. injection E as E.
      apply Hname. apply list_elem_of_In. cbn [snd]. rewrite E.
      apply (in_map (fun e => csv_name (snd e))), Hin'.
  - rewrite lookup_union_l; [apply (IH Hnames Hok Hin)|].
    assert (Hne : output_dir ++ [csv_name (snd e)] <> output_dir ++ [csv_name cfg]).
    { intros E. apply app_inv_head in E. injection E as E.
      apply Hname. apply list_elem_of_In. rewrite E.
      apply (in_map (fun e => csv_name (snd e)) _ (config_key, cfg)), Hin. }
    destruct (default [] (md !! fst e)) as [|q qs];
      [apply lookup_empty|apply lookup_singleton_ne, Hne].
Qed.

Lemma MESSAGE_CONFIGS_csv_names :
  NoDup (List.map (fun e => csv_name (snd e)) MESSAGE_CONFIGS).
Proof. apply (bool_decide_unpack _). vm_compute. reflexivity. Qed.

(** X8. A day that is processed to its end leaves, for every signal, the
    file of the signal with the sorted rows of its series where the series
    has a point, and what was at that path before where it has none: no
    file is created for a signal without data, and an older file of that
    signal stays as it was. *)
Theorem day_writes_the_signals_with_data (day_dir : directory) (output_dir : path)
    (boat_name : string) (w w' : world) :
  process_boat_day_data day_dir output_dir boat_name w = (Ok tt, w') ->
  exists message_data,
    collect boat_name (json_files day_dir) no_data = Ok message_data /\
    forall config_key cfg,
      In (config_key, cfg) MESSAGE_CONFIGS ->
      files w' !! (output_dir ++ [csv_name cfg]) =
        match default [] (message_data !! config_key) with
        | [] => files w !! (output_dir ++ [csv_name cfg])
        | p :: ps => Some (export_content (p :: ps))
        end.
Proof.
  intros Hrun.
  destruct (process_boat_day_data_spec day_dir output_dir boat_name w)
    as (w1 & E & F & _).
  rewrite Hrun in E. injection E as Hres <-.
  unfold day_result, day_files in *.
  destruct (json_files day_dir) as [|f fs].
  { exists no_data. split; [reflexivity|]. intros config_key cfg _.
    rewrite no_data_lookup, F, (left_id_L ∅ (∪)). reflexivity. }
  destruct (collect boat_name (f :: fs) no_data) as [md|e];
    cbn [mbind outcome_bind] in Hres; [|discriminate].
  exists md. split; [reflexivity|]. intros config_key cfg Hin. rewrite F.
  pose proof (written_lookup output_dir md MESSAGE_CONFIGS config_key cfg
                MESSAGE_CONFIGS_csv_names (eq_sym Hres) Hin) as Hlook.
  destruct (default [] (md !! config_key)) as [|q qs].
  - apply lookup_union_r, Hlook.
  - rewrite <- Hlook. apply lookup_union_l'. rewrite Hlook. eexists. reflexivity.
Qed.

Lemma export_nothing (output_dir : path) (md : message_store)
    (entries : list (string * config)) (w : world) :
  Forall (fun e => default [] (md !! fst e) = []) entries ->
  for_each entries (export_config output_dir md) tt w =
  (Ok tt, add_log w (List.map (fun e => (WARNING, NoData (fst e))) entries)).
Proof.
  intros H. revert w. induction H as [|[config_key cfg] rest He _ IH]; intros w.
  - cbn [for_each List.map]. rewrite add_log_nil. reflexivity.
  - cbn [for_each List.map fst] in *. rewrite io_bind_eq.
    unfold export_config at 1. cbn [fst]. rewrite He. cbn [export].
    rewrite logger_emitted by reflexivity. rewrite IH, add_log_app. reflexivity.
Qed.

(** X20. A day that has candidate files but no data point for any signal
    still gets its output directory, with the directories above it, and
    nothing in it: no file is written, and every signal is reported with a
    warning. *)
Theorem day_without_data_creates_its_directory (day_dir : directory)
    (output_dir : path) (boat_name : string) (message_data : message_store)
    (w : world) :
  json_files day_dir <> [] ->
  collect boat_name (json_files day_dir) no_data = Ok message_data ->
  no_points message_data = true ->
  exists w',
    process_boat_day_data day_dir output_dir boat_name w = (Ok tt, w') /\
    files w' = files w /\
    dirs w' = dirs w ∪ list_to_set (parents output_dir) /\
    Forall (fun e => In (WARNING, NoData (fst e)) (log w')) MESSAGE_CONFIGS.
Proof.
  intros Hfiles Hcollect Hempty. unfold process_boat_day_data.
  destruct (json_files day_dir) as [|f fs]; [congruence|].
  rewrite io_bind_eq, logger_emitted by reflexivity. rewrite io_bind_eq.
  match goal with
  | |- context [for_each (f :: fs) (process_file boat_name) no_data ?w1] =>
      destruct (process_files_collect boat_name (f :: fs) no_data w1)
        as (w2 & E2 & F2 & D2)
  end.
  rewrite E2, Hcollect. io_step.
  assert (Hall : Forall (fun e => default [] (message_data !! fst e) = [])
                   MESSAGE_CONFIGS).
  { unfold no_points in Hempty. rewrite forallb_forall in Hempty.
    apply List.Forall_forall. intros e He. specialize (Hempty e He).
    destruct (default [] (message_data !! fst e)); [reflexivity|discriminate]. }
  rewrite (export_nothing _ _ _ _ Hall). eexists. split; [reflexivity|].
  cbn [add_log files dirs log]. split; [exact F2|]. split; [rewrite D2; reflexivity|].
  apply List.Forall_forall. intros e He. apply in_or_app. right.
  apply (in_map (fun e => (WARNING, NoData (fst e))) _ e He).
Qed.

(** ** What a run does to the output tree *)

Lemma runs_logger (lvl : level) (msg : message) : runs (logger lvl msg) (Ok tt) ∅ ∅.
Proof.
  intros w. destruct (quiet_logger lvl msg w) as (w' & E & F & D).
  exists w'. rewrite E, F, D, (left_id_L ∅ (∪)), (right_id_L ∅ (∪)). repeat split.
Qed.

Lemma runs_ret {A : Type} (a : A) : runs (mret a) (Ok a) ∅ ∅.
Proof.
  intros w. exists w. rewrite (left_id_L ∅ (∪)), (right_id_L ∅ (∪)). repeat split.
Qed.

Lemma runs_raise {A : Type} (e : exn) : runs (lift (Raise e) : io A) (Raise e) ∅ ∅.
Proof.
  intros w. exists w. rewrite (left_id_L ∅ (∪)), (right_id_L ∅ (∪)). repeat split.
Qed.

Lemma runs_setLevel_DEBUG : runs setLevel_DEBUG (Ok tt) ∅ ∅.
Proof.
  intros w. eexists. split; [reflexivity|]. cbn [files dirs].
  rewrite (left_id_L ∅ (∪)), (right_id_L ∅ (∪)). split; reflexivity.
Qed.

Lemma runs_bind {A B : Type} (m : io A) (k : A -> io B) (a : A) (r : outcome B)
    (F1 F2 : gmap path string) (D1 D2 : gset path) :
  runs m (Ok a) F1 D1 -> runs (k a) r F2 D2 -> runs (m ≫= k) r (F2 ∪ F1) (D1 ∪ D2).
Proof.
  intros Hm Hk w. destruct (Hm w) as (w1 & E1 & Fw1 & Dw1).
  destruct (Hk w1) as (w2 & E2 & Fw2 & Dw2).
  exists w2. rewrite io_bind_eq, E1, E2. split; [reflexivity|]. split.
  - rewrite Fw2, Fw1, (assoc_L (∪)). reflexivity.
  - rewrite Dw2, Dw1, (assoc_L (∪)). reflexivity.
Qed.

Lemma runs_bind_raise {A B : Type} (m : io A) (k : A -> io B) (e : exn)
    (F : gmap path string) (D : gset path) :
  runs m (Raise e) F D -> runs (m ≫= k) (Raise e) F D.
Proof.
  intros Hm w. destruct (Hm w) as (w1 & E1 & Fw1 & Dw1).
  exists w1. rewrite io_bind_eq, E1. repeat split; assumption.
Qed.

Lemma alike_quiet {A : Type} (PF PD : path -> Prop) (m1 m2 : io A) (r : outcome A) :
  runs m1 r ∅ ∅ -> runs m2 r ∅ ∅ -> alike PF PD m1 m2.
Proof.
  intros H1 H2. exists r, ∅, ∅. split; [exact H1|]. split; [exact H2|]. split.
  - intros p Hp. rewrite lookup_empty in Hp. destruct Hp as [x Hx]. discriminate.
  - intros d Hd. apply elem_of_empty in Hd. destruct Hd.
Qed.

Lemma alike_weaken {A : Type} (PF PD PF' PD' : path -> Prop) (m1 m2 : io A) :
  (forall p, PF p -> PF' p) -> (forall d, PD d -> PD' d) ->
  alike PF PD m1 m2 -> alike PF' PD' m1 m2.
Proof.
  intros HF HD (r & F & D & H1 & H2 & HF0 & HD0).
  exists r, F, D. repeat (split; [assumption|]). split; auto.
Qed.

Lemma alike_left {A : Type} (PF PD : path -> Prop) (m1 m2 : io A) :
  alike PF PD m1 m2 -> alike PF PD m1 m1.
Proof.
  intros (r & F & D & H1 & H2 & HF & HD). exists r, F, D. repeat (split; [assumption|]).
  assumption.
Qed.

Lemma alike_bind {A B : Type} (PF PD : path -> Prop) (m1 m2 : io A)
    (k1 k2 : A -> io B) :
  alike PF PD m1 m2 -> (forall a, alike PF PD (k1 a) (k2 a)) ->
  alike PF PD (m1 ≫= k1) (m2 ≫= k2).
Proof.
  intros (r & F & D & H1 & H2 & HF & HD) Hk. destruct r as [a|e].
  - destruct (Hk a) as (r' & F' & D' & H1' & H2' & HF' & HD').
    exists r', (F' ∪ F), (D ∪ D').
    split; [apply (runs_bind _ _ a); assumption|].
    split; [apply (runs_bind _ _ a); assumption|]. split.
    + intros p Hp. apply lookup_union_is_Some in Hp. destruct Hp; auto.
    + intros d Hd. apply elem_of_union in Hd. destruct Hd; auto.
  - exists (Raise e), F, D.
    split; [apply runs_bind_raise, H1|]. split; [apply runs_bind_raise, H2|].
    split; assumption.
Qed.

Lemma alike_skip_l {A B : Type} (PF PD : path -> Prop) (m0 : io A) (a : A)
    (m1 m2 : io B) :
  runs m0 (Ok a) ∅ ∅ -> alike PF PD m1 m2 -> alike PF PD (m0;; m1) m2.
Proof.
  intros H0 (r & F & D & H1 & H2 & HF & HD). exists r, F, D.
  split; [|repeat (split; [assumption|]); assumption].
  pose proof (runs_bind m0 (fun _ => m1) a r ∅ F ∅ D H0 H1) as H.
  rewrite (right_id_L ∅ (∪)), (left_id_L ∅ (∪)) in H. exact H.
Qed.

Lemma alike_for_each {X Y : Type} (PF PD : path -> Prop)
    (f : X -> unit -> io unit) (g : Y -> unit -> io unit)
    (xs : list X) (ys : list Y) :
  Forall2 (fun x y => alike PF PD (f x tt) (g y tt)) xs ys ->
  alike PF PD (for_each xs f tt) (for_each ys g tt).
Proof.
  induction 1 as [|x y xs ys Hxy _ IH]; cbn [for_each].
  - apply (alike_quiet _ _ _ _ (Ok tt)); apply runs_ret.
  - apply alike_bind; [exact Hxy|]. intros []. exact IH.
Qed.

Lemma Forall2_same {X : Type} (Q : X -> X -> Prop) (xs : list X) :
  (forall x, In x xs -> Q x x) -> Forall2 Q xs xs.
Proof.
  induction xs as [|x xs IH]; intros H; constructor.
  - apply H. left; reflexivity.
  - apply IH. intros y Hy. apply H. right; exact Hy.
Qed.

Lemma Forall2_map_r {X Y : Type} (Q : X -> Y -> Prop) (h : X -> Y) (xs : list X) :
  (forall x, In x xs -> Q x (h x)) -> Forall2 Q xs (List.map h xs).
Proof.
  induction xs as [|x xs IH]; intros H; constructor.
  - apply H. left; reflexivity.
  - apply IH. intros y Hy. apply H. right; exact Hy.
Qed.

Lemma alike_day (day_dir : directory) (output_dir : path) (boat_name : string) :
  alike (fun p => exists e, In e MESSAGE_CONFIGS /\ p = output_dir ++ [csv_name (snd e)])
        (fun d => In d (parents output_dir))
        (process_boat_day_data day_dir output_dir boat_name)
        (process_boat_day_data day_dir output_dir boat_name).
Proof.
  exists (day_result day_dir boat_name), (day_files day_dir output_dir boat_name),
         (day_dirs day_dir output_dir boat_name).
  assert (Hruns : runs (process_boat_day_data day_dir output_dir boat_name)
                    (day_result day_dir boat_name)
                    (day_files day_dir output_dir boat_name)
                    (day_dirs day_dir output_dir boat_name)).
  { intros w. apply process_boat_day_data_spec. }
  split; [exact Hruns|]. split; [exact Hruns|]. split.
  - intros p Hp. unfold day_files in Hp.
    destruct (json_files day_dir);
      [rewrite lookup_empty in Hp; destruct Hp as [x Hx]; discriminate|].
    destruct (collect boat_name _ no_data);
      [|rewrite lookup_empty in Hp; destruct Hp as [x Hx]; discriminate].
    apply written_keys in Hp. exact Hp.
  - intros d Hd. unfold day_dirs in Hd.
    destruct (json_files day_dir); [apply elem_of_empty in Hd; destruct Hd|].
    destruct (collect boat_name _ no_data);
      [|apply elem_of_empty in Hd; destruct Hd].
    apply elem_of_list_to_set in Hd. apply list_elem_of_In. exact Hd.
Qed.

(** The directories that a filter selects. *)

Lemma named_In (name : string) (ds : list directory) (d : directory) :
  In d (named name ds) <-> In d ds /\ dir_name d = name.
Proof. unfold named. rewrite filter_In, String.eqb_eq. reflexivity. Qed.

Lemma subdirs_filter (name : string) (entries : list (string * node)) :
  subdirs (List.filter (fun e => String.eqb (fst e) name) entries) =
  named name (subdirs entries).
Proof.
  unfold named. induction entries as [|[n [c|es]] rest IH]; [reflexivity| |].
  - cbn [List.filter fst subdirs]. destruct (String.eqb n name); exact IH.
  - cbn [List.filter fst subdirs dir_name].
    destruct (String.eqb n name); cbn [subdirs]; rewrite IH; reflexivity.
Qed.

Lemma subdirs_select_days (day_filter : option string) (entries : list (string * node)) :
  subdirs (List.map (select_days day_filter) entries) =
  List.map (restrict day_filter) (subdirs entries).
Proof.
  induction entries as [|[n [c|es]] rest IH]; [reflexivity| |].
  - cbn [List.map select_days snd subdirs]. exact IH.
  - cbn [List.map select_days snd fst subdirs]. rewrite IH. reflexivity.
Qed.

Section Units.

Variable entries : list (string * node).
Variable output_base_dir : path.
Variable boat_filter day_filter : option string.

Let PF (p : path) : Prop :=
  exists boat_dir day_dir entry,
    unit_of entries boat_filter day_filter boat_dir day_dir /\
    In entry MESSAGE_CONFIGS /\
    p = output_base_dir ++ [dir_name boat_dir; dir_name day_dir; csv_name (snd entry)].

Let PD (d : path) : Prop :=
  exists boat_dir day_dir,
    unit_of entries boat_filter day_filter boat_dir day_dir /\
    In d (parents (output_base_dir ++ [dir_name boat_dir; dir_name day_dir])).

Lemma alike_process_day (boat_dir day_dir : directory) :
  unit_of entries boat_filter day_filter boat_dir day_dir ->
  alike PF PD (process_day output_base_dir (dir_name boat_dir) day_dir tt)
              (process_day output_base_dir (dir_name boat_dir) day_dir tt).
Proof.
  intros Hunit. unfold process_day.
  apply alike_bind; [apply (alike_quiet _ _ _ _ (Ok tt)); apply runs_logger|].
  intros _. eapply alike_weaken; [| |apply alike_day].
  - intros p (e & He & ->). exists boat_dir, day_dir, e.
    split; [exact Hunit|]. split; [exact He|]. rewrite <- app_assoc. reflexivity.
  - intros d Hd. exists boat_dir, day_dir. split; [exact Hunit|exact Hd].
Qed.

Lemma alike_days (boat_dir : directory) (days : list directory) :
  In boat_dir (subdirs entries) -> passes boat_filter boat_dir ->
  (forall d, In d days ->
     In d (subdirs (dir_entries boat_dir)) /\ passes day_filter d) ->
  alike PF PD (for_each days (process_day output_base_dir (dir_name boat_dir)) tt)
              (for_each days (process_day output_base_dir (dir_name boat_dir)) tt).
Proof.
  intros Hboat Hpass Hdays. apply alike_for_each, Forall2_same.
  intros d Hd. apply alike_process_day.
  destruct (Hdays d Hd) as [Hin Hp]. repeat split; assumption.
Qed.

Lemma alike_process_boat (boat_dir : directory) :
  In boat_dir (subdirs entries) -> passes boat_filter boat_dir ->
  alike PF PD (process_boat output_base_dir day_filter boat_dir tt)
              (process_boat output_base_dir None (restrict day_filter boat_dir) tt).
Proof.
  intros Hboat Hpass. unfold process_boat. cbn [restrict dir_name dir_entries requested].
  apply alike_bind; [apply (alike_quiet _ _ _ _ (Ok tt)); apply runs_logger|].
  intros _. unfold select, passes in *.
  destruct (requested day_filter) as [day|] eqn:Hreq.
  - rewrite subdirs_filter.
    destruct (subdirs (dir_entries boat_dir)) as [|d ds] eqn:Hsub.
    + apply (alike_quiet _ _ _ _ (Ok tt)); apply runs_logger.
    + destruct (named day (d :: ds)) as [|d' ds'] eqn:Hnamed.
      * apply (alike_quiet _ _ _ _ (Ok tt)); apply runs_logger.
      * apply (alike_skip_l _ _ _ tt); [apply runs_logger|].
        apply alike_days; [exact Hboat|exact Hpass|].
        intros x Hx. rewrite <- Hnamed in Hx. apply named_In in Hx.
        destruct Hx as [Hin Hname]. split; [rewrite Hsub; exact Hin|].
        intros name Hn. rewrite Hreq in Hn. injection Hn as <-. exact Hname.
  - destruct (subdirs (dir_entries boat_dir)) as [|d ds] eqn:Hsub.
    + apply (alike_quiet _ _ _ _ (Ok tt)); apply runs_logger.
    + apply alike_days; [exact Hboat|exact Hpass|].
      intros x Hx. split; [rewrite Hsub; exact Hx|].
      intros name Hn. rewrite Hreq in Hn. discriminate.
Qed.

Lemma alike_boats (boats : list directory) :
  (forall b, In b boats -> In b (subdirs entries) /\ passes boat_filter b) ->
  alike PF PD
    (for_each boats (process_boat output_base_dir day_filter) tt)
    (for_each (List.map (restrict day_filter) boats)
       (process_boat output_base_dir None) tt).
Proof.
  intros Hboats. apply alike_for_each, Forall2_map_r.
  intros b Hb. destruct (Hboats b Hb). apply alike_process_boat; assumption.
Qed.

Lemma alike_process_all_boats :
  alike PF PD
    (process_all_boats (Some (Dir entries)) output_base_dir boat_filter day_filter)
    (process_all_boats (Some (Dir (selected boat_filter day_filter entries)))
       output_base_dir None None).
Proof.
  unfold process_all_boats, selected. rewrite subdirs_select_days.
  cbn [requested]. unfold select.
  assert (Hpasses : forall b : directory, passes None b).
  { intros b name [=]. }
  destruct (requested boat_filter) as [name|] eqn:Hreq.
  - rewrite subdirs_filter.
    destruct (subdirs entries) as [|d ds] eqn:Hsub.
    + apply (alike_quiet _ _ _ _ (Ok tt)); apply runs_logger.
    + destruct (named name (d :: ds)) as [|d' ds'] eqn:Hnamed.
      * apply (alike_quiet _ _ _ _ (Ok tt)); apply runs_logger.
      * cbn [List.map].
        apply alike_bind; [apply (alike_quiet _ _ _ _ (Ok tt)); apply runs_logger|].
        intros _. apply (alike_boats (d' :: ds')).
        intros b Hb. rewrite <- Hnamed in Hb. apply named_In in Hb.
        destruct Hb as [Hin Hname]. split; [rewrite Hsub; exact Hin|].
        intros n Hn. rewrite Hreq in Hn. injection Hn as <-. exact Hname.
  - destruct (subdirs entries) as [|d ds] eqn:Hsub.
    + apply (alike_quiet _ _ _ _ (Ok tt)); apply runs_logger.
    + cbn [List.map].
      apply alike_bind; [apply (alike_quiet _ _ _ _ (Ok tt)); apply runs_logger|].
      intros _. apply (alike_boats (d :: ds)).
      intros b Hb. split; [rewrite Hsub; exact Hb|].
      intros n Hn. rewrite Hreq in Hn. discriminate.
Qed.

End Units.

Lemma main_runs (args : arguments) :
  exists (r : outcome unit) F D,
    (forall w, exists w',
       main args w = (match r with Ok _ => 0%Z | Raise _ => 1%Z end, w') /\
       files w' = F ∪ files w /\ dirs w' = dirs w ∪ D) /\
    (forall p, is_Some (F !! p) -> output_file args p) /\
    (forall d, d ∈ D -> output_directory args d).
Proof.
  assert (Hrun : alike (output_file args) (output_directory args)
    ((if verbose args then setLevel_DEBUG else mret tt);;
     logger INFO Starting;;
     logger INFO (OutputTo (output args));;
     process_all_boats (raw_json_dir args) (output args) (boat_arg args) (day_arg args);;
     logger INFO Complete)
    ((if verbose args then setLevel_DEBUG else mret tt);;
     logger INFO Starting;;
     logger INFO (OutputTo (output args));;
     process_all_boats (raw_json_dir args) (output args) (boat_arg args) (day_arg args);;
     logger INFO Complete)).
  { apply alike_bind.
    { apply (alike_quiet _ _ _ _ (Ok tt));
        destruct (verbose args); first [apply runs_setLevel_DEBUG|apply runs_ret]. }
    intros _. apply alike_bind;
      [apply (alike_quiet _ _ _ _ (Ok tt)); apply runs_logger|].
    intros _. apply alike_bind;
      [apply (alike_quiet _ _ _ _ (Ok tt)); apply runs_logger|].
    intros _. apply alike_bind;
      [|intros _; apply (alike_quiet _ _ _ _ (Ok tt)); apply runs_logger].
    destruct (raw_json_dir args) as [[c|entries]|] eqn:Hroot.
    - apply (alike_quiet _ _ _ _ (Raise NotADirectoryError)); apply runs_raise.
    - eapply alike_weaken;
        [| |eapply alike_left;
             apply (alike_process_all_boats entries (output args) (boat_arg args)
                      (day_arg args))].
      + intros p (b & d & e & Hunit & He & E). exists entries, b, d, e.
        repeat (split; [assumption|]). exact E.
      + intros x (b & d & Hunit & Hx). exists entries, b, d.
        repeat (split; [assumption|]). exact Hx.
    - apply (alike_quiet _ _ _ _ (Ok tt)); apply runs_logger. }
  destruct Hrun as (r & F & D & H & _ & HF & HD).
  exists r, F, D. split; [|split; assumption].
  intros w. destruct (H w) as (w' & E & Fw & Dw). exists w'.
  unfold main. rewrite E. destruct r; repeat split; assumption.
Qed.

(** X9. What a run may do to the output tree, however it ends.  A file that
    was there is still there; a path whose content differs afterwards is
    [output/boat/day/csv_name], for a boat directory of the root and a day
    directory of that boat which pass the filters, and the file name of a
    configured signal; a directory that was there is still there, and a new
    one is [output/boat/day] for such a boat and day, or lies above it. *)
Theorem main_writes_under_the_output_directory (args : arguments) (w : world) :
  let w' := snd (main args w) in
  (forall p, is_Some (files w !! p) -> is_Some (files w' !! p)) /\
  (forall p, files w' !! p <> files w !! p -> output_file args p) /\
  (forall d, d ∈ dirs w -> d ∈ dirs w') /\
  (forall d, d ∈ dirs w' -> d ∉ dirs w -> output_directory args d).
Proof.
  destruct (main_runs args) as (r & F & D & H & HF & HD).
  destruct (H w) as (w' & E & Fw & Dw). rewrite E. cbn [snd].
  split; [|split; [|split]].
  - intros p Hp. rewrite Fw. apply lookup_union_is_Some. right. exact Hp.
  - intros p Hp. apply HF. destruct (F !! p) as [c|] eqn:Hc; [eexists; reflexivity|].
    exfalso. apply Hp. rewrite Fw. apply lookup_union_r. exact Hc.
  - intros d Hd. rewrite Dw. apply elem_of_union. left. exact Hd.
  - intros d Hd Hnew. rewrite Dw in Hd. apply elem_of_union in Hd.
    destruct Hd as [Hd|Hd]; [contradiction|]. apply HD, Hd.
Qed.

(** X21. Running the script again on the same arguments and an unchanged
    input tree ends with the same status and leaves every file and every
    directory as the first run left it, whether or not the run ends with an
    exception. *)
Theorem main_twice_same_output (args : arguments) (w : world) :
  let (status, w1) := main args w in
  let (status', w2) := main args w1 in
  status' = status /\ files w2 = files w1 /\ dirs w2 = dirs w1.
Proof.
  destruct (main_runs args) as (r & F & D & H & _).
  destruct (H w) as (w1 & E1 & F1 & D1). destruct (H w1) as (w2 & E2 & F2 & D2).
  rewrite E1, E2. split; [reflexivity|]. split.
  - rewrite F2, F1, (assoc_L (∪)), (idemp_L (∪)). reflexivity.
  - rewrite D2, D1, <- (assoc_L (∪)), (idemp_L (∪)). reflexivity.
Qed.

(** X10. The filters do what cutting the input tree does: a run with a
    boat filter and a day filter ends as the run without filters on the
    tree that holds only the entries of the root with the boat's name, and
    in them only the entries with the day's name, and it leaves the same
    files and directories.  (The logs differ.) *)
Theorem filters_select_a_part_of_the_tree (entries : list (string * node))
    (output_base_dir : path) (boat_filter day_filter : option string) (w : world) :
  let (r, w1) :=
    process_all_boats (Some (Dir entries)) output_base_dir boat_filter day_filter w in
  let (r', w2) :=
    process_all_boats (Some (Dir (selected boat_filter day_filter entries)))
      output_base_dir None None w in
  r' = r /\ files w2 = files w1 /\ dirs w2 = dirs w1.
Proof.
  destruct (alike_process_all_boats entries output_base_dir boat_filter day_filter)
    as (r & F & D & H1 & H2 & _).
  destruct (H1 w) as (w1 & E1 & F1 & D1). destruct (H2 w) as (w2 & E2 & F2 & D2).
  rewrite E1, E2. split; [reflexivity|]. split; congruence.
Qed.

(** X12. A root that is a regular file ends the run with status 1 before
    anything is processed: listing it raises [NotADirectoryError].  A root
    without any directory in it ends the run with status 0 after a warning,
    whatever the filters.  Neither run touches the output tree. *)
Theorem root_without_boats_ends_the_run :
  (forall args w c,
     raw_json_dir args = Some (File c) ->
     exists w',
       main args w = (1%Z, w') /\ files w' = files w /\ dirs w' = dirs w /\
       log w' = log w ++ [(INFO, Starting); (INFO, OutputTo (output args))]) /\
  (forall args w entries,
     raw_json_dir args = Some (Dir entries) ->
     subdirs entries = [] ->
     exists w',
       main args w = (0%Z, w') /\ files w' = files w /\ dirs w' = dirs w /\
       log w' = log w ++ [(INFO, Starting); (INFO, OutputTo (output args));
                          (WARNING, NoBoatDirs); (INFO, Complete)]).
Proof.
  split.
  - intros args w c Hroot. unfold main. rewrite Hroot.
    destruct (verbose args); eexists; (split; [reflexivity|]);
      cbn; rewrite <- ?app_assoc; repeat split.
  - intros args w entries Hroot Hsub. unfold main, process_all_boats.
    rewrite Hroot, Hsub.
    destruct (verbose args); eexists; (split; [reflexivity|]);
      cbn; rewrite <- ?app_assoc; repeat split.
Qed.

(** ** The verbose flag *)

Lemma level_blind_ret {A : Type} (a : A) : level_blind (mret a : io A).
Proof. intros before w1 w2 H. split; [reflexivity|exact H]. Qed.

Lemma level_blind_lift {A : Type} (r : outcome A) : level_blind (lift r).
Proof. intros before w1 w2 H. split; [reflexivity|exact H]. Qed.

Lemma level_blind_bind {A B : Type} (m : io A) (k : A -> io B) :
  level_blind m -> (forall a, level_blind (k a)) -> level_blind (m ≫= k).
Proof.
  intros Hm Hk before w1 w2 H. rewrite !io_bind_eq.
  destruct (Hm before w1 w2 H) as [Hr Hw].
  destruct (m w1) as [r1 w1'], (m w2) as [r2 w2']. cbn [fst snd] in *. subst r2.
  destruct r1 as [a|e]; [apply Hk, Hw|]. split; [reflexivity|exact Hw].
Qed.

Lemma level_blind_for_each {X S : Type} (xs : list X) (body : X -> S -> io S) (acc : S) :
  (forall x a, level_blind (body x a)) -> level_blind (for_each xs body acc).
Proof.
  intros Hbody. revert acc. induction xs as [|x xs IH]; intros acc; cbn [for_each].
  - apply level_blind_ret.
  - apply level_blind_bind; [apply Hbody|exact IH].
Qed.

Lemma without_debug_app (xs ys : list (level * message)) :
  without_debug (xs ++ ys) = without_debug xs ++ without_debug ys.
Proof. apply List.filter_app. Qed.

Lemma level_blind_logger (lvl : level) (msg : message) : level_blind (logger lvl msg).
Proof.
  intros before w1 w2 (F & D & Hdebug & added & L2 & L1). unfold logger.
  destruct lvl; cbn [emitted]; rewrite ?Hdebug.
  - destruct (debug w2); cbn [fst snd]; (split; [reflexivity|]);
      (split; [exact F|]); (split; [exact D|]); (split; [exact Hdebug|]).
    + exists (added ++ [(DEBUG, msg)]). cbn [log]. rewrite L2, app_assoc.
      split; [reflexivity|]. rewrite without_debug_app. cbn.
      rewrite app_nil_r. exact L1.
    + exists added. split; assumption.
  - cbn [fst snd files dirs debug log]. split; [reflexivity|].
    split; [exact F|]. split; [exact D|]. split; [reflexivity|].
    exists (added ++ [(INFO, msg)]). rewrite L2, L1, without_debug_app, !app_assoc.
    split; reflexivity.
  - cbn [fst snd files dirs debug log]. split; [reflexivity|].
    split; [exact F|]. split; [exact D|]. split; [reflexivity|].
    exists (added ++ [(WARNING, msg)]). rewrite L2, L1, without_debug_app, !app_assoc.
    split; reflexivity.
  - cbn [fst snd files dirs debug log]. split; [reflexivity|].
    split; [exact F|]. split; [exact D|]. split; [reflexivity|].
    exists (added ++ [(ERROR, msg)]). rewrite L2, L1, without_debug_app, !app_assoc.
    split; reflexivity.
Qed.

Lemma level_blind_open_w (p : path) : level_blind (open_w p).
Proof.
  intros before w1 w2 (F & D & Hdebug & Hlog). unfold open_w. cbn [fst snd].
  split; [reflexivity|]. split; [cbn [files]; rewrite F; reflexivity|].
  split; [exact D|]. split; [exact Hdebug|exact Hlog].
Qed.

Lemma level_blind_write (p : path) (text : string) : level_blind (write p text).
Proof.
  intros before w1 w2 (F & D & Hdebug & Hlog). unfold write. cbn [fst snd].
  split; [reflexivity|]. split; [cbn [files]; rewrite F; reflexivity|].
  split; [exact D|]. split; [exact Hdebug|exact Hlog].
Qed.

Lemma level_blind_mkdir (p : path) : level_blind (mkdir p).
Proof.
  intros before w1 w2 (F & D & Hdebug & Hlog). unfold mkdir. cbn [fst snd].
  split; [reflexivity|]. split; [exact F|].
  split; [cbn [dirs]; rewrite D; reflexivity|]. split; [exact Hdebug|exact Hlog].
Qed.

Ltac level_blind :=
  repeat first
    [ apply level_blind_for_each; intros ? ?
    | apply level_blind_bind; [|intros ?]
    | apply level_blind_logger
    | apply level_blind_ret
    | apply level_blind_lift
    | apply level_blind_open_w
    | apply level_blind_write
    | apply level_blind_mkdir ].

Lemma level_blind_read_json_file (json_file : string * node) :
  level_blind (read_json_file json_file).
Proof.
  assert (Hlines : forall name lines,
    level_blind (for_each lines (read_line name) [])).
  { intros name lines. apply level_blind_for_each.
    intros [| |v] records; cbn [read_line]; level_blind. }
  destruct json_file as [name [[lines|lines]|es]]; cbn [read_json_file].
  - apply Hlines.
  - apply level_blind_bind; [apply Hlines|]. intros records. level_blind.
  - level_blind.
Qed.

Lemma level_blind_export (output_dir : path) (entry : string * config)
    (data_points : list point) :
  level_blind (export output_dir entry data_points).
Proof. destruct entry, data_points; cbn [export]; level_blind. Qed.

Lemma level_blind_process_boat_day_data (day_dir : directory) (output_dir : path)
    (boat_name : string) :
  level_blind (process_boat_day_data day_dir output_dir boat_name).
Proof.
  unfold process_boat_day_data. destruct (json_files day_dir) as [|f fs]; level_blind.
  - apply level_blind_read_json_file.
  - apply level_blind_export.
Qed.

Lemma level_blind_process_boat (output_base_dir : path) (day_filter : option string)
    (boat_dir : directory) :
  level_blind (process_boat output_base_dir day_filter boat_dir tt).
Proof.
  assert (Hdays : forall days,
    level_blind (for_each days (process_day output_base_dir (dir_name boat_dir)) tt)).
  { intros days. level_blind. apply level_blind_process_boat_day_data. }
  unfold process_boat. apply level_blind_bind; [apply level_blind_logger|]. intros _.
  destruct (subdirs (dir_entries boat_dir)) as [|d ds]; [apply level_blind_logger|].
  destruct (requested day_filter) as [day|]; [|apply Hdays].
  destruct (named day (d :: ds)); [apply level_blind_logger|].
  apply level_blind_bind; [apply level_blind_logger|]. intros _. apply Hdays.
Qed.

Lemma level_blind_process_all_boats (root : option node) (output_base_dir : path)
    (boat_filter day_filter : option string) :
  level_blind (process_all_boats root output_base_dir boat_filter day_filter).
Proof.
  assert (Hboats : forall boats,
    level_blind (for_each boats (process_boat output_base_dir day_filter) tt)).
  { intros boats. apply level_blind_for_each. intros b [].
    apply level_blind_process_boat. }
  unfold process_all_boats.
  destruct root as [[c|entries]|];
    [apply level_blind_lift| |apply level_blind_logger].
  destruct (subdirs entries) as [|d ds]; [apply level_blind_logger|].
  destruct (requested boat_filter) as [b|].
  - destruct (named b (d :: ds)); [apply level_blind_logger|].
    apply level_blind_bind; [apply level_blind_logger|]. intros _. apply Hboats.
  - apply level_blind_bind; [apply level_blind_logger|]. intros _. apply Hboats.
Qed.

(** X11. At the default level, the verbose flag adds [DEBUG] records to the
    log and changes nothing else: with and without it the run ends with the
    same status and leaves the same files and directories, and the log
    without the flag is the log with it, less its [DEBUG] records. *)
Theorem verbose_adds_debug_records_only (args : arguments) (w : world) :
  debug w = false ->
  let silent := main (with_verbose false args) w in
  let loud := main (with_verbose true args) w in
  fst loud = fst silent /\
  files (snd loud) = files (snd silent) /\
  dirs (snd loud) = dirs (snd silent) /\
  exists added,
    log (snd loud) = log w ++ added /\
    log (snd silent) = log w ++ without_debug added.
Proof.
  intros Hdebug.
  assert (Hrest : level_blind
    (logger INFO Starting;;
     logger INFO (OutputTo (output args));;
     process_all_boats (raw_json_dir args) (output args) (boat_arg args) (day_arg args);;
     logger INFO Complete)).
  { apply level_blind_bind; [apply level_blind_logger|]. intros _.
    apply level_blind_bind; [apply level_blind_logger|]. intros _.
    apply level_blind_bind; [apply level_blind_process_all_boats|]. intros _.
    apply level_blind_logger. }
  specialize (Hrest (log w) w
    {| files := files w; dirs := dirs w; debug := true; log := log w |}).
  destruct Hrest as [Hr (F & D & _ & added & L2 & L1)].
  { split; [reflexivity|]. split; [reflexivity|]. split; [exact Hdebug|].
    exists []. cbn [log without_debug List.filter]. rewrite app_nil_r.
    split; reflexivity. }
  cbv zeta. unfold main, with_verbose.
  cbn [verbose raw_json_dir output boat_arg day_arg].
  rewrite (io_bind_eq setLevel_DEBUG), (io_bind_eq (mret tt)).
  cbn [setLevel_DEBUG mret io_ret].
  match type of Hr with
  | fst (?m ?w1) = fst (?m ?w2) =>
      destruct (m w1) as [r1 w1'], (m w2) as [r2 w2']
  end.
  cbn [fst snd] in *. subst r2.
  destruct r1; cbn [fst snd]; (split; [reflexivity|]);
    (split; [symmetry; exact F|]); (split; [symmetry; exact D|]);
    exists added; split; assumption.
Qed.

End Script.

(** ** Python's operations at sample values *)

Example lt_on_numbers :
  Py.lt (VInt 1) (VFloat 1.5) = Ok true /\
  Py.lt (VFloat 0.5) (VInt 1) = Ok true /\
  Py.lt (VInt (2 ^ 53 + 1)) (VFloat 9007199254740992) = Ok false /\
  Py.lt (VFloat 9007199254740992) (VInt (2 ^ 53 + 1)) = Ok true /\
  Py.lt (VBool true) (VInt 2) = Ok true /\
  Py.lt (VFloat nan) (VFloat nan) = Ok false.
Proof. vm_compute. repeat split. Qed.

Example lt_on_strings_and_lists :
  Py.lt (VStr "a") (VStr "b") = Ok true /\
  Py.lt (VStr "Z") (VStr "a") = Ok true /\
  Py.lt (VStr "") (VStr "a") = Ok true /\
  Py.lt (VList [VInt 1]) (VList [VInt 1; VInt 2]) = Ok true /\
  Py.lt (VList [VInt 1; VStr "a"]) (VList [VInt 1; VInt 2]) = Raise TypeError /\
  Py.lt (VList [VFloat nan]) (VList [VFloat nan; VInt 1]) = Ok true /\
  Py.lt (VList [VDict [("a", VInt 1); ("b", VList [VInt 2])]])
        (VList [VDict [("b", VList [VInt 2]); ("a", VFloat 1)]; VInt 0]) = Ok true.
Proof. vm_compute. repeat split. Qed.

Example lt_raises :
  Py.lt (VStr "") (VInt 5) = Raise TypeError /\
  Py.lt (VInt 5) (VStr "") = Raise TypeError /\
  Py.lt VNone VNone = Raise TypeError /\
  Py.lt (VDict []) (VDict []) = Raise TypeError.
Proof. repeat split. Qed.

Example truth_values :
  Py.truthy (VFloat nan) = true /\
  Py.truthy (VFloat 0) = false /\
  Py.truthy (VFloat neg_zero) = false /\
  Py.truthy (VStr "") = false /\
  Py.truthy (VStr "0") = true /\
  Py.truthy (VList []) = false /\
  Py.truthy (VDict []) = false.
Proof. vm_compute. repeat split. Qed.

Example float_of_int_range :
  Py.float_of_int (2 ^ 53 + 1) = Ok 9007199254740992%float /\
  Py.float_of_int (2 ^ 1024 - 2 ^ 970 - 1) = Ok 0x1.fffffffffffffp+1023%float /\
  Py.float_of_int (2 ^ 1024 - 2 ^ 970) = Raise OverflowError /\
  heading_transform (VInt (10 ^ 400)) = Raise OverflowError.
Proof. vm_compute. repeat split. Qed.

Example gear_transform_samples :
  gear_transform no_repr (VBool true) = Ok (VStr "Forward") /\
  gear_transform no_repr (VFloat 255) = Ok (VStr "Unknown") /\
  gear_transform no_repr (VInt (-3)) = Ok (VStr "Unknown(-3)") /\
  gear_transform no_repr (VStr "drive") = Ok (VStr "Unknown(drive)").
Proof. vm_compute. repeat split. Qed.

Example split_samples :
  Py.split "." "a.b" = ["a"; "b"] /\
  Py.split "." "a..b" = ["a"; ""; "b"] /\
  Py.split "." "" = [""] /\
  Py.split "." "odometer" = ["odometer"].
Proof. repeat split. Qed.

(** ** Concrete runs *)

Lemma rows_of_cons (py_repr : value -> string) (p : point) (ps : list point) :
  rows py_repr (p :: ps) <> EmptyString.
Proof.
  unfold rows. cbn [List.map String.concat].
  unfold row_of, csv_row. cbn [List.map String.concat].
  destruct ps as [|q ps]; cbn [List.map String.concat String.append];
    destruct (csv_field py_repr (VStr (boat p))); discriminate.
Qed.

(** C1 fails on a series that mixes a missing timestamp (the empty string)
    with a number: the sort raises [TypeError] after the header was
    written, so the file holds the header and no row. *)
Lemma mixed_timestamps_leave_the_header_only :
  mixed_series <> [] /\
  export no_repr ["out"] ("Odometry", odometry_cfg) mixed_series fresh =
    (Raise TypeError,
     {| files := {[ ["out"; "odometer.csv"] := header ]}; dirs := ∅;
        debug := false; log := [] |}) /\
  ~ (exists sorted,
       Permutation sorted mixed_series /\
       files (snd (export no_repr ["out"] ("Odometry", odometry_cfg) mixed_series fresh))
         !! ["out"; "odometer.csv"] = Some (header +:+ rows no_repr sorted)).
Proof.
  assert (Hrun :
    export no_repr ["out"] ("Odometry", odometry_cfg) mixed_series fresh =
    (Raise TypeError,
     {| files := {[ ["out"; "odometer.csv"] := header ]}; dirs := ∅;
        debug := false; log := [] |})).
  { vm_compute. reflexivity. }
  split; [discriminate|]. split; [exact Hrun|].
  intros (sorted & Hperm & Hfile).
  apply Permutation_length in Hperm.
  destruct sorted as [|p ps]; [discriminate|].
  rewrite Hrun in Hfile. cbn [snd files] in Hfile.
  rewrite lookup_singleton_eq in Hfile.
  injection Hfile as Hrows.
  exact (rows_of_cons no_repr p ps (eq_sym Hrows)).
Qed.

(** How the mixed series comes about: a file with a record without [ts] and
    a record with [ts = 5].  The run ends with status 1 and leaves
    [odometer.csv] with the header alone. *)
Example run_with_mixed_timestamps :
  main no_repr
    (run_on (Some (one_file_tree [ Json (odometry_without_ts (VInt 1));
                                   Json (odometry (VInt 5) (VInt 2)) ])) None) fresh =
  (1%Z,
   {| files := {[ ["output_csv"; "cr38"; "2025-05-01"; "odometer.csv"] := header ]};
      dirs := {[ ["output_csv"]; ["output_csv"; "cr38"];
                 ["output_csv"; "cr38"; "2025-05-01"] ]};
      debug := false;
      log := [ (INFO, Starting); (INFO, OutputTo ["output_csv"]);
               (INFO, FoundBoats 1); (INFO, ProcessingBoat "cr38");
               (INFO, ProcessingDay "2025-05-01" "cr38");
               (INFO, ProcessingFiles 1 "2025-05-01");
               (WARNING, NoData "VolvoFuelLevel");
               (WARNING, NoData "EngineFuelEconomy");
               (WARNING, NoData "EngineHours");
               (WARNING, NoData "EngineTemperatures");
               (WARNING, NoData "PentaEngineStatus_oil_pressure");
               (WARNING, NoData "EngineSpeed");
               (WARNING, NoData "SeaState") ] |}).
Proof. vm_compute. reflexivity. Qed.

(** A gear value that is a list, and a heading that is a string, end the
    run with status 1 as well. *)
Example run_with_unexpected_field_values :
  fst (main no_repr
         (run_on (Some (one_file_tree
            [Json (gear_status (VInt 1) (VList [VInt 1]))])) None) fresh) = 1%Z /\
  fst (main no_repr
         (run_on (Some (one_file_tree
            [Json (vessel_heading (VInt 1) (VStr "north"))])) None) fresh) = 1%Z.
Proof. vm_compute. repeat split. Qed.

(** The theorem for C1 at [tied_series]. *)
Lemma export_writes_sorted_rows_witness :
  tied_series <> [] /\
  ordered_by_lt (List.map timestamp tied_series) = true /\
  exists sorted w',
    export no_repr ["out"] ("Odometry", odometry_cfg) tied_series fresh = (Ok tt, w') /\
    files w' !! (["out"] ++ [csv_name odometry_cfg]) =
      Some ("boat,value,timestamp" +:+ CRLF +:+
            String.concat EmptyString (List.map (row_of no_repr) sorted)) /\
    Permutation sorted tied_series /\
    StronglySorted not_after sorted /\
    (forall p, In p tied_series ->
       tied_with (timestamp p) sorted = tied_with (timestamp p) tied_series) /\
    (uniform_timestamps tied_series = true ->
       forall k, at_time k sorted = at_time k tied_series).
Proof.
  split; [discriminate|]. split; [reflexivity|].
  apply (export_writes_sorted_rows no_repr ["out"] "Odometry" odometry_cfg
           tied_series fresh); [discriminate|reflexivity].
Defined.

(** The file of [tied_series]: both points of [t1] come first, in the order
    they were met. *)
Example tied_series_exported :
  files (snd (export no_repr ["out"] ("Odometry", odometry_cfg) tied_series fresh))
    !! ["out"; "odometer.csv"] =
  Some ("boat,value,timestamp" +:+ CRLF +:+
        "cr38,10,t1" +:+ CRLF +:+ "cr38,20,t1" +:+ CRLF +:+ "cr38,30,t2" +:+ CRLF).
Proof. vm_compute. reflexivity. Qed.

(** Float timestamps, with an integer among them: [<] orders them, and the
    two points of the timestamp 1.5 stay in the order they were met. *)
Example float_series_sorted :
  ordered_by_lt (List.map timestamp float_series) = true /\
  sort float_series =
    Ok [ at_ts (VFloat 1.5) (VInt 10); at_ts (VFloat 1.5) (VInt 20);
         at_ts (VInt 2) (VInt 40); at_ts (VFloat 2.5) (VInt 30) ].
Proof. vm_compute. repeat split. Qed.

(** C3 fails: the status is zero when the root is missing, and when the boat
    filter matches no boat directory. *)
Lemma missing_root_exits_with_zero :
  fst (main no_repr (run_on None None) fresh) = 0%Z /\
  log (snd (main no_repr (run_on None None) fresh)) =
    [ (INFO, Starting); (INFO, OutputTo ["output_csv"]); (ERROR, RootMissing);
      (INFO, Complete) ] /\
  fst (main no_repr (run_on (Some (one_file_tree [])) (Some "cr99")) fresh) = 0%Z /\
  log (snd (main no_repr (run_on (Some (one_file_tree [])) (Some "cr99")) fresh)) =
    [ (INFO, Starting); (INFO, OutputTo ["output_csv"]); (ERROR, BoatNotFound "cr99");
      (INFO, Complete) ].
Proof. vm_compute. repeat split. Qed.

(** C4 fails: a record without [ts] gives a data point, with the empty
    string as its timestamp. *)
Lemma record_without_ts_yields_a_point :
  (fun message_data : message_store => message_data !! "Odometry") <$>
    process_record no_repr "cr38" (odometry_without_ts (VInt 5)) (no_data no_repr) =
  Ok (Some [ {| boat := "cr38"; val := VInt 5; timestamp := VStr "" |} ]).
Proof. vm_compute. reflexivity. Qed.

(** C2 fails on a line that decodes to a number, and on a record whose
    [msg] is a number or a string: [AttributeError] leaves [main], the
    process exits with status 1, and the valid records of the same file
    are not exported. *)
Theorem bad_record_aborts_the_run :
  let good := Json (odometry (VInt 1) (VInt 7)) in
  main no_repr (run_on (Some (one_file_tree [good; Json (VInt 5); good])) None) fresh =
    (1%Z,
     {| files := ∅; dirs := ∅; debug := false;
        log := [ (INFO, Starting); (INFO, OutputTo ["output_csv"]);
                 (INFO, FoundBoats 1); (INFO, ProcessingBoat "cr38");
                 (INFO, ProcessingDay "2025-05-01" "cr38");
                 (INFO, ProcessingFiles 1 "2025-05-01") ] |}) /\
  fst (main no_repr
         (run_on (Some (one_file_tree
            [good; Json (VDict [("ts", VInt 2); ("msg", VInt 5)]); good])) None) fresh)
    = 1%Z /\
  fst (main no_repr
         (run_on (Some (one_file_tree
            [good; Json (VDict [("ts", VInt 2); ("msg", VStr "text")]); good])) None) fresh)
    = 1%Z /\
  fst (main no_repr (run_on (Some (one_file_tree [good; Malformed; good])) None) fresh)
    = 0%Z.
Proof. vm_compute. repeat split. Qed.

(** The theorem for C10 at [day_without_json]. *)
Lemma no_json_files_leaves_output_untouched_witness :
  Forall no_candidate (dir_entries day_without_json) /\
  exists w',
    process_boat_day_data no_repr day_without_json ["out"; "cr38"; "2025-05-01"]
      "cr38" fresh = (Ok tt, w') /\
    files w' = files fresh /\
    dirs w' = dirs fresh /\
    log w' = log fresh ++ [(WARNING, NoJsonFiles (dir_name day_without_json))].
Proof.
  assert (H : Forall no_candidate (dir_entries day_without_json)).
  { repeat constructor. }
  split; [exact H|].
  exact (no_json_files_leaves_output_untouched no_repr day_without_json
           ["out"; "cr38"; "2025-05-01"] "cr38" fresh H).
Defined.

(** A run over a tree whose only day holds no candidate file, with a filter
    that names the only boat, ends with status 0. *)
Example idle_tree_exits_with_zero :
  let tree := Dir [("cr38", Dir [("2025-05-01", Dir (dir_entries day_without_json))])] in
  main no_repr (run_on (Some tree) (Some "cr38")) fresh =
  (0%Z,
   {| files := ∅; dirs := ∅; debug := false;
      log := [ (INFO, Starting); (INFO, OutputTo ["output_csv"]);
               (INFO, SingleBoat "cr38"); (INFO, ProcessingBoat "cr38");
               (INFO, ProcessingDay "2025-05-01" "cr38");
               (WARNING, NoJsonFiles "2025-05-01"); (INFO, Complete) ] |}).
Proof. vm_compute. reflexivity. Qed.

(** A record with an empty payload wrapper, and one without [msg], leave the
    collectors as they are. *)
Example record_without_payload_examples :
  let start := no_data no_repr in
  process_record no_repr "cr38" (VDict [("ts", VInt 1); ("msg", VDict [])]) start =
    Ok start /\
  process_record no_repr "cr38" (VDict [("ts", VInt 1)]) start = Ok start /\
  process_record no_repr "cr38" (VDict [("ts", VInt 1); ("msg", VNone)]) start =
    Ok start.
Proof. cbv zeta. repeat split. Qed.

(** ** The further properties at sample inputs *)


(** The theorem of X5 at a day with the file [odometry_file]. *)
Lemma collected_points_have_a_value_witness :
  collect no_repr "cr38" [odometry_file] (no_data no_repr) = Ok (odometry_store no_repr) /\
  forall config_key p,
    In p (default [] (odometry_store no_repr !! config_key)) ->
    val p <> VNone /\ boat p = "cr38".
Proof.
  assert (H : collect no_repr "cr38" [odometry_file] (no_data no_repr) =
              Ok (odometry_store no_repr)).
  { vm_compute. reflexivity. }
  split; [exact H|].
  exact (collected_points_have_a_value no_repr "cr38" [odometry_file] _ H).
Defined.

(** The theorem of X6 at [mixed_series]. *)
Lemma mixed_timestamps_abort_the_export_witness :
  Forall (fun p => is_str (timestamp p) || is_int (timestamp p) = true) mixed_series /\
  uniform_timestamps mixed_series = false /\
  exists w',
    export no_repr ["out"] ("Odometry", odometry_cfg) mixed_series fresh =
      (Raise TypeError, w') /\
    files w' = <[["out"] ++ [csv_name (snd ("Odometry", odometry_cfg))] := header]>
                 (files fresh) /\
    dirs w' = dirs fresh.
Proof.
  assert (H : Forall (fun p => is_str (timestamp p) || is_int (timestamp p) = true)
                mixed_series).
  { repeat constructor. }
  split; [exact H|]. split; [reflexivity|].
  exact (mixed_timestamps_abort_the_export no_repr ["out"] ("Odometry", odometry_cfg)
           mixed_series fresh H eq_refl).
Defined.

(** The theorem of X7 at [two_points] and the same points swapped. *)
Lemma export_does_not_depend_on_the_order_met_witness :
  ordered_by_lt (List.map timestamp two_points) = true /\
  untied (List.map timestamp two_points) = true /\
  Permutation two_points two_points_swapped /\
  exists sorted,
    sort two_points = Ok sorted /\
    sort two_points_swapped = Ok sorted /\
    export_content no_repr two_points_swapped = export_content no_repr two_points.
Proof.
  assert (H : Permutation two_points two_points_swapped) by apply perm_swap.
  split; [reflexivity|]. split; [reflexivity|]. split; [exact H|].
  exact (export_does_not_depend_on_the_order_met no_repr two_points two_points_swapped
           eq_refl eq_refl H).
Defined.

(** The theorem of X8 at the day of the end-to-end scenario. *)
Lemma day_writes_the_signals_with_data_witness :
  process_boat_day_data no_repr scenario_day ["out"] "cr38" fresh =
    (Ok tt, snd (process_boat_day_data no_repr scenario_day ["out"] "cr38" fresh)) /\
  exists message_data,
    collect no_repr "cr38" (json_files scenario_day) (no_data no_repr) =
      Ok message_data /\
    forall config_key cfg,
      In (config_key, cfg) (MESSAGE_CONFIGS no_repr) ->
      files (snd (process_boat_day_data no_repr scenario_day ["out"] "cr38" fresh))
        !! (["out"] ++ [csv_name cfg]) =
        match default [] (message_data !! config_key) with
        | [] => files fresh !! (["out"] ++ [csv_name cfg])
        | p :: ps => Some (export_content no_repr (p :: ps))
        end.
Proof.
  assert (H : process_boat_day_data no_repr scenario_day ["out"] "cr38" fresh =
    (Ok tt, snd (process_boat_day_data no_repr scenario_day ["out"] "cr38" fresh))).
  { vm_compute. reflexivity. }
  split; [exact H|].
  exact (day_writes_the_signals_with_data no_repr scenario_day ["out"] "cr38" fresh _ H).
Defined.

(** The theorem of X11 at a tree with one file, from an empty log. *)
Lemma verbose_adds_debug_records_only_witness :
  debug fresh = false /\
  let args := run_on (Some (one_file_tree [Json (odometry (VInt 5) (VInt 7))])) None in
  let silent := main no_repr (with_verbose false args) fresh in
  let loud := main no_repr (with_verbose true args) fresh in
  fst loud = fst silent /\
  files (snd loud) = files (snd silent) /\
  dirs (snd loud) = dirs (snd silent) /\
  exists added,
    log (snd loud) = log fresh ++ added /\
    log (snd silent) = log fresh ++ without_debug added.
Proof.
  split; [reflexivity|].
  exact (verbose_adds_debug_records_only no_repr
           (run_on (Some (one_file_tree [Json (odometry (VInt 5) (VInt 7))])) None)
           fresh eq_refl).
Defined.

(** The runs of X9 to X12 on small trees: a boat filter and a day filter on
    a tree of two boats; the verbose flag; a root that is a file. *)
Example filtered_run :
  let day := Dir [("a.jsonl", File (Readable [Json (odometry (VInt 5) (VInt 7))]))] in
  let tree := [ ("cr38", Dir [("2025-05-01", day); ("2025-05-02", day)]);
                ("cr39", Dir [("2025-05-01", day)]);
                ("readme.txt", File (Readable [])) ] in
  selected (Some "cr38") (Some "2025-05-02") tree =
    [ ("cr38", Dir [("2025-05-02", day)]) ] /\
  files (snd (process_all_boats no_repr (Some (Dir tree)) ["out"]
                (Some "cr38") (Some "2025-05-02") fresh)) =
    {[ ["out"; "cr38"; "2025-05-02"; "odometer.csv"] :=
         header +:+ "cr38,7,5" +:+ CRLF ]}.
Proof. cbv zeta. split; vm_compute; reflexivity. Qed.

Example verbose_run :
  let args := run_on (Some (one_file_tree [Json (odometry (VInt 5) (VInt 7))])) None in
  without_debug (log (snd (main no_repr (with_verbose true args) fresh))) =
    log (snd (main no_repr (with_verbose false args) fresh)) /\
  In (DEBUG, ProcessingFile "a.jsonl")
     (log (snd (main no_repr (with_verbose true args) fresh))).
Proof. cbv zeta. split; vm_compute; [reflexivity|tauto]. Qed.

Example root_that_is_a_file :
  main no_repr (run_on (Some (File (Readable []))) None) fresh =
  (1%Z,
   {| files := ∅; dirs := ∅; debug := false;
      log := [ (INFO, Starting); (INFO, OutputTo ["output_csv"]) ] |}).
Proof. vm_compute. reflexivity. Qed.

(** The theorem of X20 at a day whose only record is of a message type
    that is not configured. *)
Lemma day_without_data_creates_its_directory_witness :
  json_files unknown_day <> [] /\
  collect no_repr "cr38" (json_files unknown_day) (no_data no_repr) =
    Ok (no_data no_repr) /\
  no_points no_repr (no_data no_repr) = true /\
  exists w',
    process_boat_day_data no_repr unknown_day ["out"; "cr38"; "2025-05-01"] "cr38"
      fresh = (Ok tt, w') /\
    files w' = files fresh /\
    dirs w' = dirs fresh ∪ list_to_set (parents ["out"; "cr38"; "2025-05-01"]) /\
    Forall (fun e => In (WARNING, NoData (fst e)) (log w')) (MESSAGE_CONFIGS no_repr).
Proof.
  assert (Hfiles : json_files unknown_day <> []) by discriminate.
  assert (Hcollect : collect no_repr "cr38" (json_files unknown_day) (no_data no_repr) =
                     Ok (no_data no_repr)).
  { vm_compute. reflexivity. }
  split; [exact Hfiles|]. split; [exact Hcollect|]. split; [reflexivity|].
  exact (day_without_data_creates_its_directory no_repr unknown_day
           ["out"; "cr38"; "2025-05-01"] "cr38" (no_data no_repr) fresh
           Hfiles Hcollect eq_refl).
Defined.

(** ** Matching the patterns of the helper scripts *)

Lemma append_assoc (a b c : string) : (a +:+ b) +:+ c = a +:+ (b +:+ c).
Proof.
  induction a as [|x a IH]; [reflexivity|].
  rewrite !append_cons, IH. reflexivity.
Qed.

Lemma after_app (t s : string) : Re.after t (t +:+ s) = Some s.
Proof.
  induction t as [|c t IH]; [reflexivity|].
  rewrite append_cons. cbn [Re.after]. rewrite Ascii.eqb_refl. exact IH.
Qed.

Lemma after_inv (t s rest : string) : Re.after t s = Some rest -> s = t +:+ rest.
Proof.
  revert s. induction t as [|c t IH]; intros s H.
  - injection H as <-. reflexivity.
  - destruct s as [|c' s]; [discriminate|]. cbn [Re.after] in H.
    destruct (Ascii.eqb c c') eqn:E; [|discriminate].
    apply Ascii.eqb_eq in E. subst c'. rewrite append_cons. f_equal. apply IH, H.
Qed.

Lemma consumed_app (a b : string) : Re.consumed (a +:+ b) b = a.
Proof.
  unfold Re.consumed. rewrite string_length_app.
  replace (String.length a + String.length b - String.length b)
    with (String.length a) by lia.
  induction a as [|c a IH]; [destruct b; reflexivity|].
  rewrite append_cons. cbn [String.length substring]. f_equal. exact IH.
Qed.

Lemma many_greedy {A : Type} (class : ascii -> bool) (taken rest : string)
    (k : string -> option A) (a : A) :
  Re.all class taken = true -> Re.starts_in class rest = false ->
  k rest = Some a -> Re.many class (taken +:+ rest) k = Some a.
Proof.
  intros Hall Hrest Hk. induction taken as [|c taken IH].
  - rewrite append_nil_l. destruct rest as [|c rest]; [exact Hk|].
    cbn [Re.many]. cbn [Re.starts_in] in Hrest. rewrite Hrest. exact Hk.
  - cbn [Re.all] in Hall. apply andb_prop in Hall. destruct Hall as [Hc Hall].
    rewrite append_cons. cbn [Re.many]. rewrite Hc, (IH Hall). reflexivity.
Qed.

Lemma many_inv {A : Type} (class : ascii -> bool) (s : string)
    (k : string -> option A) (a : A) :
  Re.many class s k = Some a ->
  exists taken rest, s = taken +:+ rest /\ Re.all class taken = true /\ k rest = Some a.
Proof.
  induction s as [|c s IH]; cbn [Re.many]; intros H.
  - exists EmptyString, EmptyString. repeat split. exact H.
  - destruct (class c) eqn:Hc.
    + destruct (Re.many class s k) as [a'|] eqn:Hmany.
      * injection H as ->. destruct (IH eq_refl) as (taken & rest & -> & Hall & Hk).
        exists (String c taken), rest. rewrite append_cons. cbn [Re.all]. rewrite Hc.
        repeat split; assumption.
      * exists EmptyString, (String c s). repeat split. exact H.
    + exists EmptyString, (String c s). repeat split. exact H.
Qed.

Lemma times_exact {A : Type} (n : nat) (class : ascii -> bool) (taken rest : string)
    (k : string -> option A) :
  Re.word_of n class taken = true ->
  Re.times n class (taken +:+ rest) k = k rest.
Proof.
  unfold Re.word_of. intros H. apply andb_prop in H. destruct H as [Hn Hall].
  apply Nat.eqb_eq in Hn. subst n.
  induction taken as [|c taken IH]; [reflexivity|].
  cbn [Re.all] in Hall. apply andb_prop in Hall. destruct Hall as [Hc Hall].
  rewrite append_cons. cbn [String.length Re.times]. rewrite Hc. apply IH, Hall.
Qed.

Lemma times_inv {A : Type} (n : nat) (class : ascii -> bool) (s : string)
    (k : string -> option A) (a : A) :
  Re.times n class s k = Some a ->
  exists taken rest,
    s = taken +:+ rest /\ Re.word_of n class taken = true /\ k rest = Some a.
Proof.
  unfold Re.word_of. revert s. induction n as [|n IH]; intros s H.
  - exists EmptyString, s. repeat split. exact H.
  - destruct s as [|c s]; [discriminate|]. cbn [Re.times] in H.
    destruct (class c) eqn:Hc; [|discriminate].
    destruct (IH s H) as (taken & rest & -> & Hn & Hk).
    apply andb_prop in Hn. destruct Hn as [Hlen Hall].
    exists (String c taken), rest. rewrite append_cons. cbn [String.length Re.all Nat.eqb].
    rewrite Hlen, Hc, Hall. repeat split. exact Hk.
Qed.

Lemma word_inv (class : ascii -> bool) (s : string) :
  Re.word class s = true ->
  exists c rest, s = String c rest /\ class c = true /\ Re.all class rest = true.
Proof.
  unfold Re.word. destruct s as [|c rest]; [discriminate|]. cbn [Re.all negb String.eqb andb].
  intros H. apply andb_prop in H. exists c, rest. repeat split; apply H.
Qed.

Lemma run_group_plus {A : Type} (n : nat) (class : ascii -> bool)
    (taken rest : string) (g : Re.groups) (k : string -> Re.groups -> option A) (a : A) :
  Re.word class taken = true -> Re.starts_in class rest = false ->
  k rest ((n, taken) :: g) = Some a ->
  Re.run (Re.Group n (Re.Plus class)) (taken +:+ rest) g k = Some a.
Proof.
  intros Hword Hrest Hk. pose proof (consumed_app taken rest) as Hc.
  destruct (word_inv _ _ Hword) as (c & taken' & -> & Hclass & Hall).
  cbn [Re.run]. rewrite append_cons in *. rewrite Hclass.
  apply many_greedy; [exact Hall|exact Hrest|]. rewrite Hc. exact Hk.
Qed.

Lemma run_group_plus_inv {A : Type} (n : nat) (class : ascii -> bool)
    (s : string) (g : Re.groups) (k : string -> Re.groups -> option A) (a : A) :
  Re.run (Re.Group n (Re.Plus class)) s g k = Some a ->
  exists taken rest,
    s = taken +:+ rest /\ Re.word class taken = true /\ k rest ((n, taken) :: g) = Some a.
Proof.
  cbn [Re.run]. destruct s as [|c s]; [discriminate|].
  destruct (class c) eqn:Hclass; [|discriminate]. intros H.
  apply many_inv in H. destruct H as (taken & rest & -> & Hall & Hk).
  exists (String c taken), rest. rewrite <- append_cons in Hk.
  rewrite consumed_app in Hk. rewrite append_cons.
  unfold Re.word. cbn [String.eqb negb Re.all andb]. rewrite Hclass, Hall.
  repeat split. exact Hk.
Qed.

Lemma run_group_times {A : Type} (n m : nat) (class : ascii -> bool)
    (taken rest : string) (g : Re.groups) (k : string -> Re.groups -> option A) :
  Re.word_of m class taken = true ->
  Re.run (Re.Group n (Re.Times m class)) (taken +:+ rest) g k =
  k rest ((n, taken) :: g).
Proof.
  intros Hword. cbn [Re.run]. rewrite times_exact by exact Hword.
  rewrite consumed_app. reflexivity.
Qed.

Lemma run_group_times_inv {A : Type} (n m : nat) (class : ascii -> bool)
    (s : string) (g : Re.groups) (k : string -> Re.groups -> option A) (a : A) :
  Re.run (Re.Group n (Re.Times m class)) s g k = Some a ->
  exists taken rest,
    s = taken +:+ rest /\ Re.word_of m class taken = true /\
    k rest ((n, taken) :: g) = Some a.
Proof.
  cbn [Re.run]. intros H. apply times_inv in H.
  destruct H as (taken & rest & -> & Hword & Hk).
  rewrite consumed_app in Hk. exists taken, rest. repeat split; assumption.
Qed.

Lemma digit_is_no_letter (c : ascii) : Re.digit c = true -> Re.letter c = false.
Proof.
  unfold Re.digit, Re.letter, Re.between. intros H.
  apply andb_prop in H. destruct H as [H1 H2].
  apply Nat.leb_le in H1, H2.
  change (nat_of_ascii "0") with 48 in *. change (nat_of_ascii "9") with 57 in *.
  change (nat_of_ascii "a") with 97. change (nat_of_ascii "z") with 122.
  change (nat_of_ascii "A") with 65. change (nat_of_ascii "Z") with 90.
  apply orb_false_intro; apply andb_false_intro1; apply Nat.leb_gt; lia.
Qed.

Lemma starts_in_word (class : ascii -> bool) (s rest : string) :
  Re.word class s = true -> Re.starts_in class (s +:+ rest) = true.
Proof.
  intros H. destruct (word_inv _ _ H) as (c & s' & -> & Hc & _). exact Hc.
Qed.

(** The pattern of [expand_range] on an item of the form it looks for. *)
Lemma range_pattern_match (prefix first last rest : string) :
  Re.word Re.letter prefix = true -> Re.word Re.digit first = true ->
  Re.word Re.digit last = true -> Re.starts_in Re.digit rest = false ->
  Re.match_ EngineHours.range_pattern
    (prefix +:+ first +:+ "-" +:+ prefix +:+ last +:+ rest) =
  Some [(3, last); (2, first); (1, prefix)].
Proof.
  intros Hprefix Hfirst Hlast Hrest. unfold Re.match_, EngineHours.range_pattern.
  cbn [Re.run]. fold (@Re.run Re.groups).
  change (Re.run (Re.Group 1 (Re.Plus Re.letter))
            (prefix +:+ first +:+ "-" +:+ prefix +:+ last +:+ rest) []
            (fun s' g' =>
               Re.run (Re.Group 2 (Re.Plus Re.digit)) s' g'
                 (fun s'' g'' =>
                    Re.run (Re.Str "-") s'' g''
                      (fun s3 g3 =>
                         Re.run (Re.Backref 1) s3 g3
                           (fun s4 g4 =>
                              Re.run (Re.Group 3 (Re.Plus Re.digit)) s4 g4
                                (fun _ g => Some g))))) = Some [(3, last); (2, first); (1, prefix)]).
  apply run_group_plus; [exact Hprefix| |].
  { destruct (word_inv _ _ Hfirst) as (c & s' & -> & Hc & _).
    rewrite append_cons. cbn [Re.starts_in]. apply digit_is_no_letter, Hc. }
  apply run_group_plus; [exact Hfirst|reflexivity|].
  cbn [Re.run Re.after Re.group Nat.eqb]. rewrite append_cons, append_nil_l.
  cbn [Re.after]. rewrite Ascii.eqb_refl.
  rewrite after_app.
  fold (@Re.run Re.groups).
  change (Re.run (Re.Group 3 (Re.Plus Re.digit)) (last +:+ rest)
            [(2, first); (1, prefix)] (fun _ g => Some g) =
          Some [(3, last); (2, first); (1, prefix)]).
  apply run_group_plus; [exact Hlast|exact Hrest|reflexivity].
Qed.

(** What the pattern of [expand_range] found, when it found something. *)
Lemma range_pattern_inv (item : string) (g : Re.groups) :
  Re.match_ EngineHours.range_pattern item = Some g ->
  exists prefix first last rest,
    item = prefix +:+ first +:+ "-" +:+ prefix +:+ last +:+ rest /\
    Re.word Re.letter prefix = true /\ Re.word Re.digit first = true /\
    Re.word Re.digit last = true /\
    g = [(3, last); (2, first); (1, prefix)].
Proof.
  unfold Re.match_, EngineHours.range_pattern. intros H.
  cbn [Re.run] in H. fold (@Re.run Re.groups) in H.
  change (Re.run (Re.Group 1 (Re.Plus Re.letter)) item []
            (fun s' g' =>
               Re.run (Re.Group 2 (Re.Plus Re.digit)) s' g'
                 (fun s'' g'' =>
                    Re.run (Re.Str "-") s'' g''
                      (fun s3 g3 =>
                         Re.run (Re.Backref 1) s3 g3
                           (fun s4 g4 =>
                              Re.run (Re.Group 3 (Re.Plus Re.digit)) s4 g4
                                (fun _ g => Some g))))) = Some g) in H.
  apply run_group_plus_inv in H. destruct H as (prefix & s1 & -> & Hprefix & H).
  apply run_group_plus_inv in H. destruct H as (first & s2 & -> & Hfirst & H).
  cbn [Re.run] in H.
  destruct (Re.after "-" s2) as [s3|] eqn:Hdash; [|discriminate].
  apply after_inv in Hdash. subst s2.
  cbn [Re.group Nat.eqb] in H.
  destruct (Re.after prefix s3) as [s4|] eqn:Hback; [|discriminate].
  apply after_inv in Hback. subst s3.
  change (Re.run (Re.Group 3 (Re.Plus Re.digit)) s4 [(2, first); (1, prefix)]
            (fun _ g => Some g) = Some g) in H.
  apply run_group_plus_inv in H. destruct H as (last & rest & -> & Hlast & H).
  injection H as <-.
  exists prefix, first, last, rest. repeat split; assumption.
Qed.

Lemma elem_of_range (a b i : Z) : In i (EngineHours.range a b) <-> (a <= i < b)%Z.
Proof.
  unfold EngineHours.range. rewrite <- list_elem_of_In, elem_of_seqZ. lia.
Qed.

Lemma expand_range_matched (prefix first last rest : string) :
  Re.word Re.letter prefix = true -> Re.word Re.digit first = true ->
  Re.word Re.digit last = true -> Re.starts_in Re.digit rest = false ->
  EngineHours.expand_range (prefix +:+ first +:+ "-" +:+ prefix +:+ last +:+ rest) =
    (a ← EngineHours.int first; b ← EngineHours.int last;
     Some (List.map (fun i => prefix +:+ pretty i) (EngineHours.range a (b + 1)))).
Proof.
  intros Hprefix Hfirst Hlast Hrest. unfold EngineHours.expand_range.
  rewrite (range_pattern_match prefix first last rest) by assumption.
  reflexivity.
Qed.

Lemma span_unique (class : ascii -> bool) (a a' b b' : string) :
  Re.all class a = true -> Re.all class a' = true ->
  Re.starts_in class b = false -> Re.starts_in class b' = false ->
  a +:+ b = a' +:+ b' -> a = a' /\ b = b'.
Proof.
  revert a'. induction a as [|c a IH]; intros a' Ha Ha' Hb Hb' E.
  - destruct a' as [|c' a']; [split; [reflexivity|exact E]|].
    rewrite append_nil_l, append_cons in E. subst b.
    cbn [Re.all Re.starts_in] in *. apply andb_prop in Ha'. destruct Ha' as [Hc _].
    congruence.
  - destruct a' as [|c' a'].
    + rewrite append_nil_l, append_cons in E. subst b'.
      cbn [Re.all Re.starts_in] in *. apply andb_prop in Ha. destruct Ha as [Hc _].
      congruence.
    + rewrite !append_cons in E. injection E as <- E.
      cbn [Re.all] in Ha, Ha'. apply andb_prop in Ha, Ha'.
      destruct (IH a' (proj2 Ha) (proj2 Ha') Hb Hb' E) as [<- <-].
      split; reflexivity.
Qed.

Lemma word_all (class : ascii -> bool) (s : string) :
  Re.word class s = true -> Re.all class s = true.
Proof. unfold Re.word. intros H. apply andb_prop in H. apply H. Qed.

Lemma number_is_no_name (s rest : string) :
  Re.word Re.digit s = true -> Re.starts_in Re.letter (s +:+ rest) = false.
Proof.
  intros H. destruct (word_inv _ _ H) as (c & s' & -> & Hc & _).
  rewrite append_cons. cbn [Re.starts_in]. apply digit_is_no_letter, Hc.
Qed.

(** ** [expand_range] and [parse_vehicles] *)

(** X13. An item [prefix first - prefix last], where [prefix] is made of
    letters and [first] and [last] of digits, gives the names [prefix i] for
    [i] from [first] to [last], in this order and without leading zeros: as
    many as [last - first + 1], and none when [last] is the smaller number.
    A number of more than 4300 digits raises [ValueError].  What follows
    [last] in the item, if it does not start with a digit, is dropped. *)
Theorem expand_range_enumerates (prefix first last rest : string) :
  Re.word Re.letter prefix = true -> Re.word Re.digit first = true ->
  Re.word Re.digit last = true ->
  Re.starts_in Re.digit rest = false -> Re.isascii rest = true ->
  EngineHours.expand_range (prefix +:+ first +:+ "-" +:+ prefix +:+ last +:+ rest) =
    (a ← EngineHours.int first; b ← EngineHours.int last;
     Some (List.map (fun i => prefix +:+ pretty i) (EngineHours.range a (b + 1)))) /\
  forall a b,
    EngineHours.int first = Some a -> EngineHours.int last = Some b ->
    exists vehicles,
      EngineHours.expand_range
        (prefix +:+ first +:+ "-" +:+ prefix +:+ last +:+ rest) = Some vehicles /\
      length vehicles = Z.to_nat (b + 1 - a) /\
      (forall name, In name vehicles <->
         exists i, (a <= i <= b)%Z /\ name = prefix +:+ pretty i) /\
      ((b < a)%Z -> vehicles = []).
Proof.
  intros Hprefix Hfirst Hlast Hrest _.
  pose proof (expand_range_matched prefix first last rest Hprefix Hfirst Hlast Hrest)
    as Hrun.
  split; [exact Hrun|].
  intros a b Ha Hb. rewrite Hrun, Ha, Hb. cbn [mbind option_bind].
  eexists. split; [reflexivity|].
  assert (Hlen : length (List.map (fun i => prefix +:+ pretty i)
                           (EngineHours.range a (b + 1))) = Z.to_nat (b + 1 - a)).
  { rewrite length_map. unfold EngineHours.range. apply length_seqZ. }
  split; [exact Hlen|]. split.
  - intros name. rewrite in_map_iff. split.
    + intros (i & <- & Hi). apply elem_of_range in Hi.
      exists i. split; [lia|reflexivity].
    + intros (i & Hi & ->). exists i. split; [reflexivity|].
      apply elem_of_range. lia.
  - intros Hlt. apply length_zero_iff_nil. rewrite Hlen. lia.
Qed.

(** X14. Whatever [expand_range] does not return as it is has the form of
    a range: an ASCII item either comes back alone, or it is
    [prefix first - prefix last] followed by anything, with the same prefix
    of letters on both sides and two numbers, and it is expanded from
    [first] to [last]. *)
Theorem expand_range_expands_ranges_only (item : string) :
  Re.isascii item = true ->
  EngineHours.expand_range item = Some [item] \/
  exists prefix first last rest,
    item = prefix +:+ first +:+ "-" +:+ prefix +:+ last +:+ rest /\
    Re.word Re.letter prefix = true /\ Re.word Re.digit first = true /\
    Re.word Re.digit last = true /\
    EngineHours.expand_range item =
      (a ← EngineHours.int first; b ← EngineHours.int last;
       Some (List.map (fun i => prefix +:+ pretty i) (EngineHours.range a (b + 1)))).
Proof.
  intros _. unfold EngineHours.expand_range.
  destruct (Re.match_ EngineHours.range_pattern item) as [g|] eqn:Hmatch;
    [|left; reflexivity].
  destruct (range_pattern_inv item g Hmatch)
    as (prefix & first & last & rest & E & Hp & Hf & Hl & ->).
  right. exists prefix, first, last, rest.
  split; [exact E|]. repeat (split; [assumption|]). reflexivity.
Qed.

(** X15. An item with two different prefixes, as [cr1-br3], is not a
    range: it comes back as one vehicle name, dash included. *)
Theorem expand_range_needs_one_prefix (prefix prefix' first last rest : string) :
  Re.word Re.letter prefix = true -> Re.word Re.digit first = true ->
  Re.word Re.letter prefix' = true -> Re.word Re.digit last = true ->
  prefix <> prefix' ->
  EngineHours.expand_range (prefix +:+ first +:+ "-" +:+ prefix' +:+ last +:+ rest) =
  Some [prefix +:+ first +:+ "-" +:+ prefix' +:+ last +:+ rest].
Proof.
  intros Hprefix Hfirst Hprefix' Hlast Hne. unfold EngineHours.expand_range.
  destruct (Re.match_ EngineHours.range_pattern _) as [g|] eqn:Hmatch; [|reflexivity].
  exfalso. apply Hne.
  destruct (range_pattern_inv _ g Hmatch) as (p & f & l & r & E & Hp & Hf & Hl & _).
  apply span_unique with (class := Re.letter) in E;
    [|apply word_all; assumption|apply word_all; assumption
     |apply number_is_no_name; assumption|apply number_is_no_name; assumption].
  destruct E as [<- E].
  apply span_unique with (class := Re.digit) in E;
    [|apply word_all; assumption|apply word_all; assumption|reflexivity|reflexivity].
  destruct E as [<- E].
  rewrite !(append_cons "-"), !append_nil_l in E. injection E as E.
  apply span_unique with (class := Re.letter) in E;
    [|apply word_all; assumption|apply word_all; assumption
     |apply number_is_no_name; assumption|apply number_is_no_name; assumption].
  symmetry. apply E.
Qed.

Lemma parse_items_from (items vehicles : list string) :
  EngineHours.parse_items items vehicles =
  (found ← EngineHours.parse_items items []; Some (vehicles ++ found)).
Proof.
  revert vehicles. induction items as [|item rest IH]; intros vehicles.
  - cbn. rewrite app_nil_r. reflexivity.
  - cbn [EngineHours.parse_items]. destruct (EngineHours.contains "-" item).
    + destruct (EngineHours.expand_range item) as [expanded|]; [|reflexivity]. cbn.
      rewrite (IH (vehicles ++ expanded)), (IH expanded).
      destruct (EngineHours.parse_items rest []) as [found|]; [|reflexivity]. cbn.
      rewrite app_assoc. reflexivity.
    + cbn. rewrite (IH (vehicles ++ [item])), (IH [item]).
      destruct (EngineHours.parse_items rest []) as [found|]; [|reflexivity]. cbn.
      rewrite <- app_assoc. reflexivity.
Qed.

Lemma parse_items_app (items items' vehicles : list string) :
  EngineHours.parse_items (items ++ items') vehicles =
  (found ← EngineHours.parse_items items vehicles; EngineHours.parse_items items' found).
Proof.
  revert vehicles. induction items as [|item rest IH]; intros vehicles; [reflexivity|].
  cbn [app EngineHours.parse_items]. destruct (EngineHours.contains "-" item).
  - destruct (EngineHours.expand_range item) as [expanded|]; [|reflexivity]. cbn. apply IH.
  - cbn. apply IH.
Qed.

(** X16. The vehicles of a list with a comma are the vehicles of what
    stands before the comma followed by the vehicles of what stands after
    it; a [ValueError] on either side is one of the whole. *)
Theorem parse_vehicles_of_a_list (left right : string) :
  EngineHours.parse_vehicles (left +:+ "," +:+ right) =
  (vehicles ← EngineHours.parse_vehicles left;
   vehicles' ← EngineHours.parse_vehicles right;
   Some (vehicles ++ vehicles')).
Proof.
  unfold EngineHours.parse_vehicles. rewrite append_cons, append_nil_l, split_app, parse_items_app.
  destruct (EngineHours.parse_items (Py.split "," left) []) as [vehicles|]; [|reflexivity].
  cbn. apply parse_items_from.
Qed.

Lemma split_contains (sep c : ascii) (s : string) :
  EngineHours.contains c s = false -> Forall (fun item => EngineHours.contains c item = false) (Py.split sep s).
Proof.
  induction s as [|c' s IH]; intros H; [repeat constructor|].
  cbn [EngineHours.contains] in H. apply orb_false_elim in H. destruct H as [Hc Hs].
  cbn [Py.split]. destruct (Ascii.eqb c' sep).
  - constructor; [reflexivity|apply IH, Hs].
  - specialize (IH Hs). destruct (Py.split sep s) as [|w ws].
    + repeat constructor. cbn [EngineHours.contains]. rewrite Hc. reflexivity.
    + inversion IH as [|? ? Hw Hws]; subst. constructor; [|exact Hws].
      cbn [EngineHours.contains]. rewrite Hc, Hw. reflexivity.
Qed.

(** X17. An input without a dash is split at its commas and nothing else
    is done to it: no item is dropped or trimmed, so the empty input gives
    one vehicle with the empty name, and two commas in a row give one
    between them. *)
Theorem parse_vehicles_without_ranges (raw_input : string) :
  EngineHours.contains "-" raw_input = false ->
  EngineHours.parse_vehicles raw_input = Some (Py.split "," raw_input).
Proof.
  intros H. unfold EngineHours.parse_vehicles. apply (split_contains ",") in H.
  rewrite parse_items_from.
  induction H as [|item rest Hitem _ IH]; [reflexivity|].
  cbn [EngineHours.parse_items]. rewrite Hitem. cbn. rewrite parse_items_from.
  cbn in IH. destruct (EngineHours.parse_items rest []) as [found|]; [|discriminate].
  cbn in *. congruence.
Qed.

(** ** [extract_date_part] *)

Lemma word_of_length (n : nat) (class : ascii -> bool) (s : string) :
  Re.word_of n class s = true -> String.length s = n /\ Re.all class s = true.
Proof.
  unfold Re.word_of. intros H. apply andb_prop in H. destruct H as [Hn Hall].
  apply Nat.eqb_eq in Hn. split; assumption.
Qed.

Lemma run_seq {A : Type} (r1 r2 : Re.regex) (s : string) (g : Re.groups)
    (k : string -> Re.groups -> option A) :
  Re.run (Re.Seq r1 r2) s g k = Re.run r1 s g (fun s' g' => Re.run r2 s' g' k).
Proof. reflexivity. Qed.

Lemma run_str {A : Type} (t rest : string) (g : Re.groups)
    (k : string -> Re.groups -> option A) :
  Re.run (Re.Str t) (t +:+ rest) g k = k rest g.
Proof. cbn [Re.run]. rewrite after_app. reflexivity. Qed.

Lemma run_str_inv {A : Type} (t s : string) (g : Re.groups)
    (k : string -> Re.groups -> option A) (a : A) :
  Re.run (Re.Str t) s g k = Some a -> exists rest, s = t +:+ rest /\ k rest g = Some a.
Proof.
  cbn [Re.run]. destruct (Re.after t s) as [rest|] eqn:H; [|discriminate].
  apply after_inv in H. intros Hk. exists rest. split; assumption.
Qed.

Lemma run_opt_inv {A : Type} (c : ascii) (s : string) (g : Re.groups)
    (k : string -> Re.groups -> option A) (a : A) :
  Re.run (Re.Opt c) s g k = Some a ->
  exists taken rest,
    s = taken +:+ rest /\ (taken = EmptyString \/ taken = String c EmptyString) /\
    k rest g = Some a.
Proof.
  cbn [Re.run]. intros H.
  assert (Hskip : k s g = Some a ->
    exists taken rest,
      s = taken +:+ rest /\ (taken = EmptyString \/ taken = String c EmptyString) /\
      k rest g = Some a).
  { intros Hk. exists EmptyString, s. repeat split; [left; reflexivity|exact Hk]. }
  destruct s as [|c' rest]; [apply Hskip, H|].
  destruct (Ascii.eqb c c') eqn:E; [|apply Hskip, H].
  apply Ascii.eqb_eq in E. subst c'.
  destruct (k rest g) as [a'|] eqn:Hk; [|apply Hskip, H].
  injection H as ->. exists (String c EmptyString), rest.
  repeat split; [right; reflexivity|exact Hk].
Qed.

Lemma run_opt_take {A : Type} (c : ascii) (rest : string) (g : Re.groups)
    (k : string -> Re.groups -> option A) (a : A) :
  k rest g = Some a -> Re.run (Re.Opt c) (String c rest) g k = Some a.
Proof. intros H. cbn [Re.run]. rewrite Ascii.eqb_refl, H. reflexivity. Qed.

Lemma run_opt_skip {A : Type} (c c' : ascii) (rest : string) (g : Re.groups)
    (k : string -> Re.groups -> option A) :
  Ascii.eqb c c' = false ->
  Re.run (Re.Opt c) (String c' rest) g k = k (String c' rest) g.
Proof. intros H. cbn [Re.run]. rewrite H. reflexivity. Qed.

(** The pattern of [extract_date_part] at a stamp. *)
Lemma date_pattern_match (d_opt year month day rest : string) :
  d_opt = EmptyString \/ d_opt = "d" ->
  Re.word_of 4 Re.digit year = true -> Re.word_of 2 Re.digit month = true ->
  Re.word_of 2 Re.digit day = true ->
  Re.match_ OrganizeAndUnzip.date_pattern
    ("snarf" +:+ d_opt +:+ "." +:+ year +:+ "-" +:+ month +:+ "-" +:+ day +:+ "T" +:+ rest) =
  Some [(3, day); (2, month); (1, year)].
Proof.
  intros Hd Hy Hm Hday. unfold Re.match_, OrganizeAndUnzip.date_pattern.
  rewrite run_seq, run_str, run_seq.
  assert (Hrest :
    Re.run (Re.Seq (Re.Str ".")
          (Re.Seq (Re.Group 1 (Re.Times 4 Re.digit))
             (Re.Seq (Re.Str "-")
                (Re.Seq (Re.Group 2 (Re.Times 2 Re.digit))
                   (Re.Seq (Re.Str "-")
                      (Re.Seq (Re.Group 3 (Re.Times 2 Re.digit)) (Re.Str "T")))))))
      ("." +:+ year +:+ "-" +:+ month +:+ "-" +:+ day +:+ "T" +:+ rest) []
      (fun _ g => Some g) = Some [(3, day); (2, month); (1, year)]).
  { rewrite run_seq, run_str, run_seq, run_group_times by exact Hy.
    rewrite run_seq, run_str, run_seq, run_group_times by exact Hm.
    rewrite run_seq, run_str, run_seq, run_group_times by exact Hday.
    rewrite run_str. reflexivity. }
  destruct Hd as [->| ->].
  - rewrite append_nil_l, append_cons. rewrite run_opt_skip by reflexivity.
    rewrite <- append_cons. exact Hrest.
  - rewrite (append_cons "d"), append_nil_l. apply run_opt_take. exact Hrest.
Qed.

Lemma date_pattern_inv (s : string) (g : Re.groups) :
  Re.match_ OrganizeAndUnzip.date_pattern s = Some g ->
  exists d_opt year month day rest,
    s = "snarf" +:+ d_opt +:+ "." +:+ year +:+ "-" +:+ month +:+ "-" +:+ day +:+
        "T" +:+ rest /\
    (d_opt = EmptyString \/ d_opt = "d") /\
    Re.word_of 4 Re.digit year = true /\ Re.word_of 2 Re.digit month = true /\
    Re.word_of 2 Re.digit day = true /\
    g = [(3, day); (2, month); (1, year)].
Proof.
  unfold Re.match_, OrganizeAndUnzip.date_pattern. intros H.
  rewrite run_seq in H. apply run_str_inv in H. destruct H as (s1 & -> & H).
  rewrite run_seq in H. apply run_opt_inv in H.
  destruct H as (d_opt & s2 & -> & Hd & H).
  rewrite run_seq in H. apply run_str_inv in H. destruct H as (s3 & -> & H).
  rewrite run_seq in H. apply run_group_times_inv in H.
  destruct H as (year & s4 & -> & Hy & H).
  rewrite run_seq in H. apply run_str_inv in H. destruct H as (s5 & -> & H).
  rewrite run_seq in H. apply run_group_times_inv in H.
  destruct H as (month & s6 & -> & Hm & H).
  rewrite run_seq in H. apply run_str_inv in H. destruct H as (s7 & -> & H).
  rewrite run_seq in H. apply run_group_times_inv in H.
  destruct H as (day & s8 & -> & Hday & H).
  apply run_str_inv in H. destruct H as (rest & -> & H). injection H as <-.
  exists d_opt, year, month, day, rest. repeat split; assumption.
Qed.

Lemma search_here (r : Re.regex) (s : string) (g : Re.groups) :
  Re.match_ r s = Some g -> Re.search r s = Some g.
Proof. intros H. destruct s; cbn [Re.search]; rewrite H; reflexivity. Qed.

Lemma search_later (r : Re.regex) (before s : string) :
  Re.search r s <> None -> Re.search r (before +:+ s) <> None.
Proof.
  intros H. induction before as [|c before IH]; [exact H|].
  rewrite append_cons. cbn [Re.search].
  destruct (Re.match_ r (String c (before +:+ s))); [discriminate|exact IH].
Qed.

Lemma search_inv (r : Re.regex) (s : string) (g : Re.groups) :
  Re.search r s = Some g ->
  exists before rest, s = before +:+ rest /\ Re.match_ r rest = Some g.
Proof.
  induction s as [|c s IH]; cbn [Re.search]; intros H.
  - destruct (Re.match_ r EmptyString) as [g'|] eqn:Hm; [|discriminate].
    exists EmptyString, EmptyString. split; [reflexivity|congruence].
  - destruct (Re.match_ r (String c s)) as [g'|] eqn:Hm.
    + exists EmptyString, (String c s). split; [reflexivity|congruence].
    + destruct (IH H) as (before & rest & -> & Hrest).
      exists (String c before), rest. split; [reflexivity|exact Hrest].
Qed.

(** X18. [extract_date_part] returns a date exactly for the names that
    hold a stamp [snarf.YYYY-MM-DDT] or [snarfd.YYYY-MM-DDT], with four, two
    and two digits: what it returns is [YYYY_MM_DD] for such a stamp of the
    name, and a name with such a stamp anywhere in it never gives [None]. *)
Theorem extract_date_part_finds_a_stamp :
  (forall filename date_part,
     OrganizeAndUnzip.extract_date_part filename = Some date_part ->
     exists before d_opt year month day rest,
       filename = before +:+ "snarf" +:+ d_opt +:+ "." +:+ year +:+ "-" +:+ month +:+
                  "-" +:+ day +:+ "T" +:+ rest /\
       (d_opt = EmptyString \/ d_opt = "d") /\
       Re.word_of 4 Re.digit year = true /\ Re.word_of 2 Re.digit month = true /\
       Re.word_of 2 Re.digit day = true /\
       date_part = year +:+ "_" +:+ month +:+ "_" +:+ day) /\
  (forall before d_opt year month day rest,
     d_opt = EmptyString \/ d_opt = "d" ->
     Re.word_of 4 Re.digit year = true -> Re.word_of 2 Re.digit month = true ->
     Re.word_of 2 Re.digit day = true ->
     OrganizeAndUnzip.extract_date_part
       (before +:+ "snarf" +:+ d_opt +:+ "." +:+ year +:+ "-" +:+ month +:+
        "-" +:+ day +:+ "T" +:+ rest) <> None).
Proof.
  split.
  - intros filename date_part. unfold OrganizeAndUnzip.extract_date_part.
    destruct (Re.search OrganizeAndUnzip.date_pattern filename) as [g|] eqn:Hsearch; [|discriminate].
    intros [= <-]. apply search_inv in Hsearch.
    destruct Hsearch as (before & s & -> & Hmatch).
    apply date_pattern_inv in Hmatch.
    destruct Hmatch as (d_opt & year & month & day & rest & -> & Hd & Hy & Hm & Hday & ->).
    exists before, d_opt, year, month, day, rest. repeat split; assumption.
  - intros before d_opt year month day rest Hd Hy Hm Hday. unfold OrganizeAndUnzip.extract_date_part.
    pose proof (date_pattern_match d_opt year month day rest Hd Hy Hm Hday) as Hmatch.
    apply search_here in Hmatch.
    assert (Hfound : Re.search OrganizeAndUnzip.date_pattern
      (before +:+ "snarf" +:+ d_opt +:+ "." +:+ year +:+ "-" +:+ month +:+
       "-" +:+ day +:+ "T" +:+ rest) <> None).
    { apply search_later. rewrite Hmatch. discriminate. }
    revert Hfound.
    generalize (Re.search OrganizeAndUnzip.date_pattern
      (before +:+ "snarf" +:+ d_opt +:+ "." +:+ year +:+ "-" +:+ month +:+
       "-" +:+ day +:+ "T" +:+ rest)).
    intros [g|] Hfound; [discriminate|destruct (Hfound eq_refl)].
Qed.

(** X19. For a name that starts with the stamp, as the log files have it,
    the date is the date of that stamp, whatever follows. *)
Theorem extract_date_part_of_a_log_name (d_opt year month day rest : string) :
  d_opt = EmptyString \/ d_opt = "d" ->
  Re.word_of 4 Re.digit year = true -> Re.word_of 2 Re.digit month = true ->
  Re.word_of 2 Re.digit day = true ->
  OrganizeAndUnzip.extract_date_part
    ("snarf" +:+ d_opt +:+ "." +:+ year +:+ "-" +:+ month +:+ "-" +:+ day +:+
     "T" +:+ rest) =
  Some (year +:+ "_" +:+ month +:+ "_" +:+ day).
Proof.
  intros Hd Hy Hm Hday. unfold OrganizeAndUnzip.extract_date_part.
  rewrite (search_here _ _ _ (date_pattern_match d_opt year month day rest Hd Hy Hm Hday)).
  reflexivity.
Qed.

(** ** The helper scripts at sample inputs *)

(** The theorem of X13 at [cr1-cr3]. *)
Lemma expand_range_enumerates_witness :
  Re.word Re.letter "cr" = true /\ Re.word Re.digit "1" = true /\
  Re.word Re.digit "3" = true /\
  Re.starts_in Re.digit "" = false /\ Re.isascii "" = true /\
  EngineHours.expand_range ("cr" +:+ "1" +:+ "-" +:+ "cr" +:+ "3" +:+ "") =
    (a ← EngineHours.int "1"; b ← EngineHours.int "3";
     Some (List.map (fun i => "cr" +:+ pretty i) (EngineHours.range a (b + 1)))) /\
  forall a b,
    EngineHours.int "1" = Some a -> EngineHours.int "3" = Some b ->
    exists vehicles,
      EngineHours.expand_range ("cr" +:+ "1" +:+ "-" +:+ "cr" +:+ "3" +:+ "") =
        Some vehicles /\
      length vehicles = Z.to_nat (b + 1 - a) /\
      (forall name, In name vehicles <->
         exists i, (a <= i <= b)%Z /\ name = "cr" +:+ pretty i) /\
      ((b < a)%Z -> vehicles = []).
Proof.
  do 5 (split; [reflexivity|]).
  exact (expand_range_enumerates "cr" "1" "3" "" eq_refl eq_refl eq_refl eq_refl eq_refl).
Defined.

(** The theorem of X14 at [cr1-cr3xyz]. *)
Lemma expand_range_expands_ranges_only_witness :
  Re.isascii "cr1-cr3xyz" = true /\
  (EngineHours.expand_range "cr1-cr3xyz" = Some ["cr1-cr3xyz"] \/
   exists prefix first last rest,
     "cr1-cr3xyz" = prefix +:+ first +:+ "-" +:+ prefix +:+ last +:+ rest /\
     Re.word Re.letter prefix = true /\ Re.word Re.digit first = true /\
     Re.word Re.digit last = true /\
     EngineHours.expand_range "cr1-cr3xyz" =
       (a ← EngineHours.int first; b ← EngineHours.int last;
        Some (List.map (fun i => prefix +:+ pretty i) (EngineHours.range a (b + 1))))).
Proof.
  split; [reflexivity|].
  exact (expand_range_expands_ranges_only "cr1-cr3xyz" eq_refl).
Defined.

(** The theorem of X15 at [cr1-br3]. *)
Lemma expand_range_needs_one_prefix_witness :
  Re.word Re.letter "cr" = true /\ Re.word Re.digit "1" = true /\
  Re.word Re.letter "br" = true /\ Re.word Re.digit "3" = true /\
  "cr" <> "br" /\
  EngineHours.expand_range ("cr" +:+ "1" +:+ "-" +:+ "br" +:+ "3" +:+ "") =
  Some ["cr" +:+ "1" +:+ "-" +:+ "br" +:+ "3" +:+ ""].
Proof.
  assert (H : "cr" <> "br") by discriminate.
  do 4 (split; [reflexivity|]). split; [exact H|].
  exact (expand_range_needs_one_prefix "cr" "br" "1" "3" "" eq_refl eq_refl eq_refl
           eq_refl H).
Defined.

(** The theorem of X17 at [cr1,,cr2]. *)
Lemma parse_vehicles_without_ranges_witness :
  EngineHours.contains "-" "cr1,,cr2" = false /\
  EngineHours.parse_vehicles "cr1,,cr2" = Some (Py.split "," "cr1,,cr2").
Proof.
  split; [reflexivity|].
  exact (parse_vehicles_without_ranges "cr1,,cr2" eq_refl).
Defined.

(** The theorem of X19 at the name of a compressed log file. *)
Lemma extract_date_part_of_a_log_name_witness :
  ("" = EmptyString \/ "" = "d") /\
  Re.word_of 4 Re.digit "2025" = true /\ Re.word_of 2 Re.digit "01" = true /\
  Re.word_of 2 Re.digit "02" = true /\
  OrganizeAndUnzip.extract_date_part
    ("snarf" +:+ "" +:+ "." +:+ "2025" +:+ "-" +:+ "01" +:+ "-" +:+ "02" +:+
     "T" +:+ "10-00-00.log.jsonl.zst") =
  Some ("2025" +:+ "_" +:+ "01" +:+ "_" +:+ "02").
Proof.
  assert (H : "" = EmptyString \/ "" = "d") by (left; reflexivity).
  split; [exact H|]. do 3 (split; [reflexivity|]).
  exact (extract_date_part_of_a_log_name "" "2025" "01" "02" "10-00-00.log.jsonl.zst"
           H eq_refl eq_refl eq_refl).
Defined.

(** The helper scripts on some inputs, as Python has them. *)
Example expand_range_samples :
  EngineHours.expand_range "cr1-cr3" = Some ["cr1"; "cr2"; "cr3"] /\
  EngineHours.expand_range "cr007-cr009" = Some ["cr7"; "cr8"; "cr9"] /\
  EngineHours.expand_range "cr5-cr3" = Some [] /\
  EngineHours.expand_range "cr1-cr2-cr5" = Some ["cr1"; "cr2"] /\
  EngineHours.expand_range "cr1-crcr3" = Some ["cr1-crcr3"] /\
  EngineHours.expand_range " cr1-cr2" = Some [" cr1-cr2"].
Proof. vm_compute. repeat split. Qed.

Example parse_vehicles_samples :
  EngineHours.parse_vehicles "" = Some [""] /\
  EngineHours.parse_vehicles "cr1-cr3,cr7" = Some ["cr1"; "cr2"; "cr3"; "cr7"] /\
  EngineHours.parse_vehicles "cr5-cr3,x" = Some ["x"] /\
  EngineHours.parse_vehicles "cr1, cr2-cr3" = Some ["cr1"; " cr2-cr3"].
Proof. vm_compute. repeat split. Qed.

Example extract_date_part_samples :
  OrganizeAndUnzip.extract_date_part "snarfd.2025-01-02T" = Some "2025_01_02" /\
  OrganizeAndUnzip.extract_date_part "xsnarfd.2025-01-02Tsnarf.2024-01-01T" =
    Some "2025_01_02" /\
  OrganizeAndUnzip.extract_date_part "snarf.2025-01-0snarf.2025-01-02T" =
    Some "2025_01_02" /\
  OrganizeAndUnzip.extract_date_part "snarfdd.2025-01-02T" = None /\
  OrganizeAndUnzip.extract_date_part "snarf.2025-1-02T" = None /\
  OrganizeAndUnzip.extract_date_part "snarf.2025-01-02" = None.
Proof. vm_compute. repeat split. Qed.
